(** * NeuraVault: docking-result pipeline

    A shallow embedding of the TypeScript actions of NeuraVault
    (parse, tag, store, query and the combined workflow) together with the
    properties of its specification.

    Conventions of the embedding.
    - A JavaScript string is held as the [string] of its UTF-8 bytes, the
      bytes [crypto] hashes.  Its [length] counts UTF-16 code units, and
      the character classes are those of a regular expression without the
      [u] flag: [\w] and [\d] are classes of ASCII, [\s] is the white
      space of Unicode.  The case mappings map the letters of ASCII; text
      with other cased letters, whose mapping is a table of Unicode, lies
      outside the embedding, and so do lone surrogates, which have no
      UTF-8 form.
    - A JavaScript number is a [number]: one of the three non-finite
      values, or a finite double, held as the shortest decimal that rounds
      to it (the decimal [Number::toString] prints).  Doubles are ordered
      as these decimals are, so the comparisons of the program ([<],
      [<=], [>=], [!==]) are those of the rationals; [parseFloat] rounds
      what it reads to a double; the only arithmetic of the program, the
      confidence sum, is checked against binary64 arithmetic below.
      Minus zero is held as zero: nothing the actions do tells them
      apart.
    - [undefined], [null] and a missing property are [None].
    - Mutable state (the process-wide array, the runtime's memory table) is
      passed explicitly; the objects the workflow shares between the array
      and its own variables live in a heap and are referred to by address.
    - The one operation that throws is the reading of a property of
      [undefined], in the query; a function that may throw returns an
      option, and the [catch] clause that receives it is modelled.  The
      other [catch] clauses are never entered and are left out.  The
      replies a handler sends through its [callback] are returned beside
      its result. *)

From Stdlib Require Import ZArith QArith String Ascii List Bool Arith Lia Lqa.
From Stdlib Require Import Floats.
Import ListNotations.

Local Open Scope string_scope.
Local Open Scope list_scope.

(* ================================================================== *)
(** * The JavaScript runtime the actions rely on *)
(* ================================================================== *)

Module JS.

(** ** Characters and strings *)

Definition code (c : ascii) : nat := nat_of_ascii c.

Definition between (lo hi : nat) (c : ascii) : bool :=
  (lo <=? code c)%nat && (code c <=? hi)%nat.

Definition is_upper (c : ascii) : bool := between 65 90 c.
Definition is_lower (c : ascii) : bool := between 97 122 c.
Definition is_digit (c : ascii) : bool := between 48 57 c.

(** [\w]: letters, digits and the underscore. *)
Definition is_word (c : ascii) : bool :=
  is_upper c || is_lower c || is_digit c || (code c =? 95)%nat.

(** The white space of one byte: tab, line feed, vertical tab, form feed,
    carriage return and space. *)
Definition is_space (c : ascii) : bool :=
  between 9 13 c || (code c =? 32)%nat.

(** The UTF-8 bytes of a character of the basic plane. *)
Definition utf8 (cp : N) : string :=
  if (cp <? 128)%N then String (ascii_of_N cp) EmptyString
  else if (cp <? 2048)%N then
    String (ascii_of_N (192 + cp / 64))
      (String (ascii_of_N (128 + cp mod 64)) EmptyString)
  else
    String (ascii_of_N (224 + cp / 4096))
      (String (ascii_of_N (128 + (cp / 64) mod 64))
         (String (ascii_of_N (128 + cp mod 64)) EmptyString)).

(** [\s]: the WhiteSpace and LineTerminator characters of ECMA-262. *)
Definition white_space : list string :=
  Eval vm_compute in
  map utf8
    [9; 10; 11; 12; 13; 32; 160; 5760; 8192; 8193; 8194; 8195; 8196; 8197;
     8198; 8199; 8200; 8201; 8202; 8232; 8233; 8239; 8287; 12288;
     65279]%N.

(** [s.length]: the UTF-16 code units of the text.  A byte that opens a
    character counts for one unit, for two when it opens a character of
    four bytes (a surrogate pair), and a byte that continues a character
    for none. *)
Definition units (c : ascii) : nat :=
  if between 128 191 c then 0 else if (240 <=? code c)%nat then 2 else 1.

Fixpoint length (s : string) : nat :=
  match s with
  | EmptyString => O
  | String c s' => (units c + length s')%nat
  end.

Definition upper_char (c : ascii) : ascii :=
  if is_lower c then ascii_of_nat (code c - 32) else c.

Definition lower_char (c : ascii) : ascii :=
  if is_upper c then ascii_of_nat (code c + 32) else c.

Fixpoint map_string (f : ascii -> ascii) (s : string) : string :=
  match s with
  | EmptyString => EmptyString
  | String c s' => String (f c) (map_string f s')
  end.

Definition toUpperCase : string -> string := map_string upper_char.
Definition toLowerCase : string -> string := map_string lower_char.

(** [s.startsWith(p)]. *)
Fixpoint startsWith (p s : string) : bool :=
  match p, s with
  | EmptyString, _ => true
  | String a p', String b s' => Ascii.eqb a b && startsWith p' s'
  | String _ _, EmptyString => false
  end.

(** [s.includes(p)]. *)
Fixpoint includes (s p : string) : bool :=
  startsWith p s ||
  match s with
  | EmptyString => false
  | String _ s' => includes s' p
  end.

Fixpoint drop (n : nat) (s : string) : string :=
  match n, s with
  | O, _ => s
  | S n', String _ s' => drop n' s'
  | S _, EmptyString => EmptyString
  end.

Fixpoint take (n : nat) (s : string) : string :=
  match n, s with
  | S n', String c s' => String c (take n' s')
  | _, _ => EmptyString
  end.

(** [s.substring(0, n)]. *)
Definition substring0 (n : nat) (s : string) : string := take n s.

(** Length of the longest prefix of [s] made of characters of class [p]. *)
Fixpoint run (p : ascii -> bool) (s : string) : nat :=
  match s with
  | String c s' => if p c then S (run p s') else O
  | EmptyString => O
  end.

(** The number of bytes of the member of the class [cls] that [s] starts
    with, [0] when it starts with none.  A class is the list of its
    characters, each given by its bytes. *)
Fixpoint member_width (cls : list string) (s : string) : nat :=
  match cls with
  | [] => 0
  | m :: cls' =>
      if startsWith m s then String.length m else member_width cls' s
  end.

(** [s.replace(/\s+/g, "_")]: every maximal run of white space becomes one
    underscore.  [inrun] tells that the previous character was white
    space, [skip] counts the bytes still to pass of a white-space
    character met before. *)
Fixpoint replace_spaces_from (inrun : bool) (skip : nat) (s : string)
  : string :=
  match s with
  | EmptyString => EmptyString
  | String c s' =>
      match skip with
      | S n => replace_spaces_from inrun n s'
      | O =>
          match member_width white_space s with
          | O => String c (replace_spaces_from false 0 s')
          | S n =>
              if inrun then replace_spaces_from true n s'
              else String "_" (replace_spaces_from true n s')
          end
      end
  end.

Definition replace_spaces (s : string) : string :=
  replace_spaces_from false 0 s.

(** ** Numbers *)

Inductive number : Type :=
| NaN
| NegInf
| Num (q : Q)
| PosInf.

Definition Qltb (a b : Q) : bool := negb (Qle_bool b a).

(** [a < b]. *)
Definition lt (a b : number) : bool :=
  match a, b with
  | NaN, _ | _, NaN => false
  | NegInf, NegInf => false
  | NegInf, _ => true
  | _, NegInf => false
  | PosInf, _ => false
  | Num _, PosInf => true
  | Num x, Num y => Qltb x y
  end.

(** [a <= b]. *)
Definition le (a b : number) : bool :=
  match a, b with
  | NaN, _ | _, NaN => false
  | NegInf, _ => true
  | _, NegInf => false
  | _, PosInf => true
  | PosInf, _ => false
  | Num x, Num y => Qle_bool x y
  end.

(** [a >= b]. *)
Definition ge (a b : number) : bool := le b a.

(** [a === b] on numbers. *)
Definition strict_eq (a b : number) : bool :=
  match a, b with
  | NegInf, NegInf | PosInf, PosInf => true
  | Num x, Num y => Qeq_bool x y
  | _, _ => false
  end.

(** [a !== b]. *)
Definition strict_neq (a b : number) : bool := negb (strict_eq a b).

(** [a + b]. *)
Definition add (a b : number) : number :=
  match a, b with
  | NaN, _ | _, NaN => NaN
  | NegInf, PosInf | PosInf, NegInf => NaN
  | NegInf, _ | _, NegInf => NegInf
  | PosInf, _ | _, PosInf => PosInf
  | Num x, Num y => Num (Qred (x + y))
  end.

(** [Math.min(a, b)]. *)
Definition min (a b : number) : number :=
  match a, b with
  | NaN, _ | _, NaN => NaN
  | _, _ => if le a b then a else b
  end.

(** The value of a string of decimal digits. *)
Fixpoint digits_value (acc : Z) (s : string) : Z :=
  match s with
  | EmptyString => acc
  | String c s' => digits_value (10 * acc + Z.of_nat (code c - 48)) s'
  end.

(** [10^n] *)
Fixpoint pow10 (n : nat) : positive :=
  match n with
  | O => 1%positive
  | S n' => (10 * pow10 n')%positive
  end.

Local Open Scope Z_scope.

(** [n / d] rounded to the nearest integer, a tie to the even one
    ([0 <= n], [0 < d]). *)
Definition round_half_even (n d : Z) : Z :=
  let q := n / d in
  match 2 * (n mod d) ?= d with
  | Lt => q
  | Gt => q + 1
  | Eq => if Z.even q then q else q + 1
  end.

(** [b^e <= n / d] ([0 < n], [0 < d]). *)
Definition reaches_power (b n d e : Z) : bool :=
  if 0 <=? e then d * b ^ e <=? n else d <=? n * b ^ (- e).

(** [floor (log2 (n / d))] *)
Definition exponent2 (n d : Z) : Z :=
  let e := Z.log2 n - Z.log2 d in
  if reaches_power 2 n d e then e else e - 1.

(** The double nearest the positive rational [n / d], given as a
    fraction: the significand has 53 bits, fewer below [2^-1022] where the
    doubles are the multiples of [2^-1074]. *)
Definition nearest (n d : Z) : Z * Z :=
  let p := Z.max (exponent2 n d - 52) (-1074) in
  if 0 <=? p then (round_half_even n (d * 2 ^ p) * 2 ^ p, 1)
  else (round_half_even (n * 2 ^ (- p)) d, 2 ^ (- p)).

Definition same_value (a b : Z * Z) : bool :=
  fst a * snd b =? fst b * snd a.

Fixpoint climb (fuel : nat) (n d e : Z) : Z :=
  match fuel with
  | O => e
  | S fuel' =>
      if reaches_power 10 n d (e + 1) then climb fuel' n d (e + 1) else e
  end.

(** [floor (log10 (n / d))] *)
Definition exponent10 (n d : Z) : Z :=
  climb 4 n d ((Z.log2 n - Z.log2 d) * 30103 / 100000 - 2).

(** [s * 10^u] as a fraction. *)
Definition scaled (s u : Z) : Z * Z :=
  if 0 <=? u then (s * 10 ^ u, 1) else (s, 10 ^ (- u)).

(** The shortest decimal that rounds to the double [xn / xd], whose
    decimal exponent is [e]: for [k = 1, 2, ...] digits, the two decimals
    of [k] digits that enclose the double are tried, and of two that round
    to it the nearer is taken ([Number::toString]; seventeen digits always
    suffice). *)
Fixpoint shortest (fuel : nat) (k : Z) (xn xd e : Z) : Z * Z :=
  match fuel with
  | O => (xn, xd)
  | S fuel' =>
      let u := e + 1 - k in
      let s := fst (scaled xn (- u)) / (xd * snd (scaled xn (- u))) in
      let rounds c := same_value (nearest (fst c) (snd c)) (xn, xd) in
      let lower := scaled s u in
      let upper := scaled (s + 1) u in
      let nearer :=
        match 2 * fst (scaled xn (- u))
              ?= (2 * s + 1) * (xd * snd (scaled xn (- u))) with
        | Lt => true
        | Gt => false
        | Eq => Z.even s
        end in
      match rounds lower, rounds upper with
      | true, true => if nearer then lower else upper
      | true, false => lower
      | false, true => upper
      | false, false => shortest fuel' (k + 1) xn xd e
      end
  end.

Definition to_Q (x : Z * Z) : Q := Qred (Qmake (fst x) (Z.to_pos (snd x))).

(** The Number value of a positive rational, [None] for [Infinity]: the
    nearest double, zero below half the least double, infinite from
    [2^1024] on. *)
Definition positive_value (n d : Z) : option Q :=
  let x := nearest n d in
  if fst x =? 0 then Some 0%Q
  else if 1024 <=? exponent2 (fst x) (snd x) then None
  else Some (to_Q (shortest 17 1 (fst x) (snd x) (exponent10 (fst x) (snd x)))).

Local Close Scope Z_scope.

(** The Number value of a rational. *)
Definition number_value (q : Q) : number :=
  match Qnum q with
  | Z0 => Num 0
  | Zpos n =>
      match positive_value (Zpos n) (Zpos (Qden q)) with
      | Some v => Num v
      | None => PosInf
      end
  | Zneg n =>
      match positive_value (Zpos n) (Zpos (Qden q)) with
      | Some v => Num (Qopp v)
      | None => NegInf
      end
  end.

(** [parseFloat(s)] for the strings the capture group [[-\d.]+] produces
    (an optional sign, digits, an optional fraction; the longest such
    prefix is read, and [NaN] is returned when it holds no digit): the
    Number value of the decimal read. *)
Definition parseFloat (s : string) : number :=
  let '(neg, s1) :=
    match s with
    | String "-" r => (true, r)
    | String "+" r => (false, r)
    | _ => (false, s)
    end in
  let ip := take (run is_digit s1) s1 in
  let fp :=
    match drop (run is_digit s1) s1 with
    | String "." r => take (run is_digit r) r
    | _ => EmptyString
    end in
  if (String.length ip =? 0)%nat && (String.length fp =? 0)%nat then NaN
  else
    let v := Qmake (digits_value 0 (ip ++ fp)) (pow10 (String.length fp)) in
    number_value (if neg then Qopp v else v).

(** ** Regular expressions

    The fragment the actions use: literal text, a greedy repetition of a
    character class ([c*] and [c+]), one capture group, a non-capturing
    alternation, and concatenation.  A class of ASCII characters is a
    test on bytes ([Rep]); a class with characters of several bytes is
    the list of its characters ([RepOf]).  The matcher backtracks as the
    JavaScript one does. *)

Inductive regex : Type :=
| Lit (s : string)
| Rep (p : ascii -> bool) (atleast : nat)
| RepOf (cls : list string) (atleast : nat)
| Cap (r : regex)
| Alt (r1 r2 : regex)
| Seq (r1 r2 : regex).

(** [s] after no member of the class, after one, after two, and so on as
    long as members follow one another. *)
Fixpoint reaches (cls : list string) (fuel : nat) (s : string)
  : list string :=
  s :: match fuel with
       | O => []
       | S fuel' =>
           match member_width cls s with
           | O => []
           | S n => reaches cls fuel' (drop (S n) s)
           end
       end.

(** The first success of [k] on the elements of [l], in order. *)
Fixpoint first_of {R : Type} (k : string -> option R) (l : list string)
  : option R :=
  match l with
  | [] => None
  | x :: l' =>
      match k x with
      | Some r => Some r
      | None => first_of k l'
      end
  end.

Section Matcher.

(** The [i] flag. *)
Variable ignoreCase : bool.

Definition same_char (a b : ascii) : bool :=
  if ignoreCase then Ascii.eqb (upper_char a) (upper_char b)
  else Ascii.eqb a b.

(** What is left of [s] after the literal [p], if [s] starts with it. *)
Fixpoint after_literal (p s : string) : option string :=
  match p, s with
  | EmptyString, _ => Some s
  | String a p', String b s' =>
      if same_char a b then after_literal p' s' else None
  | String _ _, EmptyString => None
  end.

(** Try the continuation after [n] characters, then after [n - 1], down
    to [atleast]. *)
Fixpoint backtrack {R : Type} (k : string -> option R) (s : string)
    (atleast n : nat) : option R :=
  match k (drop n s) with
  | Some r => Some r
  | None =>
      match n with
      | O => None
      | S n' => if (n' <? atleast)%nat then None else backtrack k s atleast n'
      end
  end.

Fixpoint exec {R : Type} (r : regex) (s : string) (cap : option string)
    (k : string -> option string -> option R) : option R :=
  match r with
  | Lit p =>
      match after_literal p s with
      | Some rest => k rest cap
      | None => None
      end
  | Rep p atleast =>
      if (run p s <? atleast)%nat then None
      else backtrack (fun rest => k rest cap) s atleast (run p s)
  | RepOf cls atleast =>
      first_of (fun rest => k rest cap)
        (rev (skipn atleast (reaches cls (String.length s) s)))
  | Cap r' =>
      exec r' s cap
        (fun rest _ =>
           k rest (Some (take (String.length s - String.length rest) s)))
  | Alt r1 r2 =>
      match exec r1 s cap k with
      | Some x => Some x
      | None => exec r2 s cap k
      end
  | Seq r1 r2 => exec r1 s cap (fun rest c => exec r2 rest c k)
  end.

(** The first position of [s] at which [r] matches, with its capture. *)
Fixpoint search (r : regex) (s : string) : option (option string) :=
  match exec r s None (fun _ c => Some c) with
  | Some c => Some c
  | None =>
      match s with
      | EmptyString => None
      | String _ s' => search r s'
      end
  end.

End Matcher.

(** [s.match(r)] read at index 1: the text of the capture group of the
    first match, [None] when there is no match.  (In every expression of
    the actions the group takes part in each match.) *)
Definition match1 (ignoreCase : bool) (r : regex) (s : string)
  : option string :=
  match search ignoreCase r s with
  | Some (Some c) => Some c
  | _ => None
  end.

(** [a || b] on match results. *)
Definition orElse {A : Type} (a b : option A) : option A :=
  match a with
  | Some x => Some x
  | None => b
  end.

(** The character classes of the actions: [[:\s]] and [[-\d.]]. *)
Definition colon_or_space : list string := ":" :: white_space.
Definition number_char (c : ascii) : bool :=
  (code c =? 45)%nat || is_digit c || (code c =? 46)%nat.

Fixpoint seq (rs : list regex) : regex :=
  match rs with
  | [] => Lit EmptyString
  | [r] => r
  | r :: rs' => Seq r (seq rs')
  end.

End JS.

(* ================================================================== *)
(** * [crypto]: SHA-256 (FIPS 180-4) with hexadecimal output *)
(* ================================================================== *)

Module Crypto.

Local Open Scope Z_scope.

(** 32-bit words are integers reduced modulo [2^32]. *)
Definition word (x : Z) : Z := x mod 2 ^ 32.

Definition rotr (n x : Z) : Z :=
  Z.lor (Z.shiftr x n) (word (Z.shiftl x (32 - n))).

Definition xor3 (a b c : Z) : Z := Z.lxor (Z.lxor a b) c.

Definition Ch (x y z : Z) : Z :=
  Z.lxor (Z.land x y) (Z.land (Z.lxor x 0xffffffff) z).
Definition Maj (x y z : Z) : Z :=
  xor3 (Z.land x y) (Z.land x z) (Z.land y z).
Definition Sigma0 (x : Z) : Z := xor3 (rotr 2 x) (rotr 13 x) (rotr 22 x).
Definition Sigma1 (x : Z) : Z := xor3 (rotr 6 x) (rotr 11 x) (rotr 25 x).
Definition sigma0 (x : Z) : Z := xor3 (rotr 7 x) (rotr 18 x) (Z.shiftr x 3).
Definition sigma1 (x : Z) : Z := xor3 (rotr 17 x) (rotr 19 x) (Z.shiftr x 10).

(** The constants of the standard are read off the first primes: the
    first 32 bits of the fractional part of the cube root (round
    constants) and of the square root (initial hash value). *)
Definition is_prime (k : Z) : bool :=
  forallb (fun d => negb (k mod d =? 0))
          (map Z.of_nat (List.seq 2 (Z.to_nat k - 2))).

Definition primes : list Z :=
  Eval vm_compute in
    firstn 64 (filter is_prime (map Z.of_nat (List.seq 2 400))).

(** The integer [r]-th root of [x], one bit at a time from bit [bit]
    down. *)
Fixpoint root_bits (r x : Z) (bit : nat) (acc : Z) : Z :=
  match bit with
  | O => acc
  | S b =>
      let candidate := acc + 2 ^ Z.of_nat b in
      root_bits r x b (if candidate ^ r <=? x then candidate else acc)
  end.

Definition K : list Z :=
  Eval vm_compute in
    map (fun p => word (root_bits 3 (p * 2 ^ 96) 48 0)) primes.

Definition H0 : list Z :=
  Eval vm_compute in
    map (fun p => word (root_bits 2 (p * 2 ^ 64) 48 0)) (firstn 8 primes).

(** The [n] low bytes of [x], most significant first. *)
Fixpoint be_bytes (n : nat) (x : Z) : list Z :=
  match n with
  | O => []
  | S n' => Z.shiftr x (8 * Z.of_nat n') mod 256 :: be_bytes n' x
  end.

(** The message, one [1] bit, zero bits up to 56 modulo 64 bytes, and the
    length in bits on 64 bits. *)
Definition pad (msg : list Z) : list Z :=
  let l := Z.of_nat (List.length msg) in
  msg ++ [0x80] ++ repeat 0 (Z.to_nat ((55 - l) mod 64)) ++ be_bytes 8 (8 * l).

Fixpoint words_of_bytes (fuel : nat) (bs : list Z) : list Z :=
  match fuel, bs with
  | S fuel', a :: b :: c :: d :: rest =>
      (((a * 256 + b) * 256 + c) * 256 + d) :: words_of_bytes fuel' rest
  | _, _ => []
  end.

Fixpoint blocks (fuel : nat) (ws : list Z) : list (list Z) :=
  match fuel, ws with
  | S fuel', _ :: _ => firstn 16 ws :: blocks fuel' (skipn 16 ws)
  | _, _ => []
  end.

(** The message schedule: [n] more words after the ones of [w]. *)
Fixpoint extend (n : nat) (w : list Z) : list Z :=
  match n with
  | O => w
  | S n' =>
      let back i := nth (List.length w - i) w 0 in
      extend n'
        (w ++ [word (sigma1 (back 2%nat) + back 7%nat
                     + sigma0 (back 15%nat) + back 16%nat)])
  end.

Record regs : Type :=
  mkRegs { ra : Z; rb : Z; rc : Z; rd : Z; re : Z; rf : Z; rg : Z; rh : Z }.

Definition round (r : regs) (kw : Z * Z) : regs :=
  let t1 := rh r + Sigma1 (re r) + Ch (re r) (rf r) (rg r) + fst kw + snd kw in
  let t2 := Sigma0 (ra r) + Maj (ra r) (rb r) (rc r) in
  mkRegs (word (t1 + t2)) (ra r) (rb r) (rc r)
         (word (rd r + t1)) (re r) (rf r) (rg r).

Definition regs_of (h : list Z) : regs :=
  mkRegs (nth 0 h 0) (nth 1 h 0) (nth 2 h 0) (nth 3 h 0)
         (nth 4 h 0) (nth 5 h 0) (nth 6 h 0) (nth 7 h 0).

Definition list_of (r : regs) : list Z :=
  [ra r; rb r; rc r; rd r; re r; rf r; rg r; rh r].

Definition compress (h block : list Z) : list Z :=
  let r := fold_left round (combine K (extend 48 block)) (regs_of h) in
  map (fun p => word (fst p + snd p)) (combine h (list_of r)).

Definition digest (msg : list Z) : list Z :=
  let bs := pad msg in
  let ws := words_of_bytes (List.length bs) bs in
  fold_left compress (blocks (List.length ws) ws) H0.

Definition hex_digit (d : Z) : ascii :=
  ascii_of_nat (Z.to_nat (if d <? 10 then 48 + d else 87 + d)).

Fixpoint hex (n : nat) (x : Z) : string :=
  match n with
  | O => EmptyString
  | S n' => String (hex_digit (Z.shiftr x (4 * Z.of_nat n') mod 16)) (hex n' x)
  end.

Definition bytes_of_string (s : string) : list Z :=
  map (fun c => Z.of_nat (nat_of_ascii c)) (list_ascii_of_string s).

(** [createHash("sha256").update(s).digest("hex")]. *)
Definition sha256_hex (s : string) : string :=
  fold_right (fun w acc => hex 8 w ++ acc)%string EmptyString
             (digest (bytes_of_string s)).

(** The test vectors of the standard. *)
Example sha256_empty :
  sha256_hex EmptyString
  = "e3b0c44298fc1c149afbf4c8996fb92427ae41e4649b934ca495991b7852b855"%string.
Proof. vm_compute. reflexivity. Qed.

Example sha256_abc :
  sha256_hex "abc"
  = "ba7816bf8f01cfea414140de5dae2223b00361a396177a9cb410ff61f20015ad"%string.
Proof. vm_compute. reflexivity. Qed.

Example sha256_two_blocks :
  sha256_hex "abcdbcdecdefdefgefghfghighijhijkijkljklmklmnlmnomnopnopq"
  = "248d6a61d20638b8e5c026930c3e6039a33ce45964ff2167f6ecedd419db06c1"%string.
Proof. vm_compute. reflexivity. Qed.

End Crypto.

(* ================================================================== *)
(** * [JSON.stringify] on the values the actions serialise *)
(* ================================================================== *)

Module JSON.

Local Open Scope Z_scope.

(** Decimal digits of a non-negative integer, most significant first. *)
Fixpoint int_digits (fuel : nat) (x : Z) (acc : list Z) : list Z :=
  match fuel with
  | O => acc
  | S fuel' =>
      if x =? 0 then acc else int_digits fuel' (x / 10) (x mod 10 :: acc)
  end.

Definition digits_of (x : Z) : list Z :=
  int_digits (S (Z.to_nat (Z.log2 x))) x [].

(** Digits of the fraction [r / d] ([0 <= r < d]), up to [fuel] of them.
    The rationals that name doubles have finite expansions. *)
Fixpoint frac_digits (fuel : nat) (r d : Z) : list Z :=
  match fuel with
  | O => []
  | S fuel' =>
      if r =? 0 then []
      else (10 * r / d) :: frac_digits fuel' ((10 * r) mod d) d
  end.

Fixpoint strip_leading (l : list Z) : list Z :=
  match l with
  | 0 :: l' => strip_leading l'
  | _ => l
  end.

Definition strip_trailing (l : list Z) : list Z :=
  rev (strip_leading (rev l)).

Definition show_digits (l : list Z) : string :=
  string_of_list_ascii (map (fun d => ascii_of_nat (Z.to_nat (48 + d))) l).

Definition show_int (x : Z) : string :=
  if x =? 0 then "0"%string else show_digits (digits_of x).

Definition zeros (n : nat) : string := show_digits (repeat 0 n).

(** [Number::toString] of a positive rational: with [s] the [k]
    significant digits and [n] the position of the decimal point
    (value = 0.s * 10^n), the four layouts of ECMA-262. *)
Definition show_positive (q : Q) : string :=
  let a := Qnum q in
  let d := Zpos (Qden q) in
  let ip := digits_of (a / d) in
  let fp := frac_digits 1100 (a mod d) d in
  let s := strip_trailing (strip_leading (ip ++ fp)) in
  let k := Z.of_nat (List.length s) in
  let n :=
    match ip with
    | [] => Z.of_nat (List.length (strip_leading fp)) - Z.of_nat (List.length fp)
    | _ => Z.of_nat (List.length ip)
    end in
  if (k <=? n) && (n <=? 21) then
    (show_digits s ++ zeros (Z.to_nat (n - k)))%string
  else if (0 <? n) && (n <=? 21) then
    (show_digits (firstn (Z.to_nat n) s) ++ "." ++
     show_digits (skipn (Z.to_nat n) s))%string
  else if (-6 <? n) && (n <=? 0) then
    ("0." ++ zeros (Z.to_nat (- n)) ++ show_digits s)%string
  else
    (show_digits (firstn 1 s) ++
     (if (k =? 1)%Z then EmptyString else "." ++ show_digits (skipn 1 s)) ++
     "e" ++ (if (0 <? n - 1)%Z then "+" else "-") ++
     show_int (Z.abs (n - 1)))%string.

Definition number_toString (q : Q) : string :=
  match Qnum q with
  | Z0 => "0"%string
  | Zpos _ => show_positive q
  | Zneg _ => ("-" ++ show_positive (Qopp q))%string
  end.

Local Close Scope Z_scope.

(** A number: [null] when it is not finite. *)
Definition number (n : JS.number) : string :=
  match n with
  | JS.Num q => number_toString q
  | _ => "null"
  end.

Definition quote_char : ascii := ascii_of_nat 34.
Definition backslash : ascii := ascii_of_nat 92.

Definition hex2 (n : nat) : string :=
  Crypto.hex 2 (Z.of_nat n).

Fixpoint escape (s : string) : string :=
  match s with
  | EmptyString => EmptyString
  | String c s' =>
      let n := nat_of_ascii c in
      ((if (n =? 34)%nat then String backslash (String quote_char EmptyString)
       else if (n =? 92)%nat then String backslash (String backslash EmptyString)
       else if (n =? 8)%nat then String backslash "b"
       else if (n =? 9)%nat then String backslash "t"
       else if (n =? 10)%nat then String backslash "n"
       else if (n =? 12)%nat then String backslash "f"
       else if (n =? 13)%nat then String backslash "r"
       else if (n <? 32)%nat then String backslash ("u00" ++ hex2 n)
       else String c EmptyString) ++ escape s')%string
  end.

(** A string, quoted. *)
Definition str (s : string) : string :=
  String quote_char (escape s ++ String quote_char EmptyString)%string.

Fixpoint join (sep : string) (l : list string) : string :=
  match l with
  | [] => EmptyString
  | [x] => x
  | x :: l' => (x ++ sep ++ join sep l')%string
  end.

(** An array of already serialised elements. *)
Definition array (l : list string) : string :=
  ("[" ++ join "," l ++ "]")%string.

(** An object: its properties in insertion order, the values already
    serialised. *)
Definition object (fields : list (string * string)) : string :=
  ("{" ++ join "," (map (fun kv => str (fst kv) ++ ":" ++ snd kv) fields)
       ++ "}")%string.

End JSON.

Import JS.

(* ================================================================== *)
(** * [types.ts] *)
(* ================================================================== *)

Module Types.

Record ParsedDockingData : Type := mkParsed {
  protein : string;
  ligand : string;
  binding_energy : number;
  docking_tool : string;
  file_hash : string
}.

(** [TaggedDockingData extends ParsedDockingData]; a value is built as
    [{...data, tags, confidence}]. *)
Record TaggedDockingData : Type := mkTagged {
  parsed :> ParsedDockingData;
  tags : list string;
  confidence : number
}.

(** [DockingResult]; a value is built as
    [{...taggedData, timestamp, solana_tx}]. *)
Record DockingResult : Type := mkResult {
  tagged :> TaggedDockingData;
  timestamp : string;
  solana_tx : option string
}.

End Types.
Export Types.

(** What an action handler returns.  [error] is the message of the
    [Error]; the [values] flags, which repeat [success], are left out. *)
Record ActionResult (D : Type) : Type := mkActionResult {
  text : string;
  success : bool;
  error : option string;
  data : option D
}.
Arguments mkActionResult {D}.
Arguments text {D}.
Arguments success {D}.
Arguments error {D}.
Arguments data {D}.

(** A reply handed to the [callback] of a handler: the action it names and
    whether it is the progress notice sent on entry or a later report. *)
Inductive reply : Type :=
| Progress (action : string)
| Report (action : string).

(* ================================================================== *)
(** * [actions/parseDockingFile.ts] *)
(* ================================================================== *)

Module ParseDockingFile.

(** [/KEY[:\s]+(\w+)/i] *)
Definition labelled_word (key : string) : regex :=
  seq [Lit key; RepOf colon_or_space 1; Cap (Rep is_word 1)].

(** [/\s+1\s+([-\d.]+)/] *)
Definition first_mode : regex :=
  seq [RepOf white_space 1; Lit "1"; RepOf white_space 1; Cap (Rep number_char 1)].

(** [/REMARK\s+Name\s*=\s*(\w+)/i] *)
Definition remark_name : regex :=
  seq [Lit "REMARK"; RepOf white_space 1; Lit "Name"; RepOf white_space 0; Lit "=";
       RepOf white_space 0; Cap (Rep is_word 1)].

(** [/WORD\s+Score[:\s]+([-\d.]+)/i] *)
Definition score (word : string) : regex :=
  seq [Lit word; RepOf white_space 1; Lit "Score"; RepOf colon_or_space 1;
       Cap (Rep number_char 1)].

Definition or_default {A : Type} (m : option A) (d : A) : A :=
  match m with
  | Some x => x
  | None => d
  end.

Definition energy_or (m : option string) (d : number) : number :=
  match m with
  | Some x => parseFloat x
  | None => d
  end.

Definition parseVinaFormat (content fileHash : string)
  : option ParsedDockingData :=
  let proteinMatch :=
    orElse (match1 true (labelled_word "receptor") content)
           (match1 true (labelled_word "protein") content) in
  let protein := or_default proteinMatch "UNKNOWN" in
  let ligandMatch :=
    orElse (match1 true (labelled_word "ligand") content)
           (match1 true remark_name content) in
  let ligand := or_default ligandMatch "UNKNOWN" in
  let energyMatch := match1 false first_mode content in
  let binding_energy := energy_or energyMatch (Num 0) in
  Some (mkParsed protein ligand binding_energy "AutoDock Vina" fileHash).

Definition parseGoldFormat (content fileHash : string)
  : option ParsedDockingData :=
  let proteinMatch := match1 true (labelled_word "Protein") content in
  let protein := or_default proteinMatch "UNKNOWN" in
  let ligandMatch := match1 true (labelled_word "Ligand") content in
  let ligand := or_default ligandMatch "UNKNOWN" in
  let scoreMatch := match1 true (score "Gold") content in
  let binding_energy := energy_or scoreMatch (Num 0) in
  Some (mkParsed protein ligand binding_energy "GOLD" fileHash).

Definition parseGlideFormat (content fileHash : string)
  : option ParsedDockingData :=
  let proteinMatch := match1 true (labelled_word "Receptor") content in
  let protein := or_default proteinMatch "MOCK_PROTEIN" in
  let ligandMatch := match1 true (labelled_word "Title") content in
  let ligand := or_default ligandMatch "MOCK_LIGAND" in
  let scoreMatch := match1 true (score "Docking") content in
  let binding_energy := energy_or scoreMatch (Num (-7.5)) in
  Some (mkParsed protein ligand binding_energy "Glide" fileHash).

Definition parseGenericFormat (content fileHash : string)
  : option ParsedDockingData :=
  if (JS.length content <? 10)%nat then None
  else Some (mkParsed "GENERIC_PROTEIN" "GENERIC_LIGAND" (Num (-6.0))
                      "Unknown" fileHash).

Definition parseDockingContent (content : string)
  : option ParsedDockingData :=
  let fileHash := Crypto.sha256_hex content in
  if includes content "AutoDock Vina" || includes content "VINA RESULT" then
    parseVinaFormat content fileHash
  else if includes content "GOLD" || includes content "Gold Score" then
    parseGoldFormat content fileHash
  else if includes content "Glide" || includes content "GLIDE" then
    parseGlideFormat content fileHash
  else parseGenericFormat content fileHash.

(** The handler; [text] is [message.content.text || ""]. *)
Definition handler (text : string)
  : ActionResult ParsedDockingData * list reply :=
  match parseDockingContent text with
  | None =>
      (mkActionResult
         "Failed to parse docking file. Unsupported format or invalid data."
         false (Some "PARSE_FAILED") None,
       [Progress "PARSE_DOCKING_FILE"])
  | Some parsedData =>
      (mkActionResult "Docking file parsed successfully" true None
                      (Some parsedData),
       [Progress "PARSE_DOCKING_FILE"; Report "PARSE_DOCKING_FILE"])
  end.

(** [validate]: [text] is [message.content.text], which may be
    undefined. *)
Definition validate (text : option string) : bool :=
  let text :=
    match text with
    | Some t => toLowerCase t
    | None => EmptyString
    end in
  includes text "parse" || includes text "upload"
  || includes text "docking" || includes text "file".

End ParseDockingFile.

(* ================================================================== *)
(** * [actions/autoTagDockingResult.ts] *)
(* ================================================================== *)

Module AutoTag.

(** [a !== b] on strings. *)
Definition differs (a b : string) : bool := negb (String.eqb a b).

(** The first tag [applyTags] pushes. *)
Definition energy_tag (energy : number) : string :=
  if lt energy (Num (-10)) then "very_strong_binder"
  else if lt energy (Num (-8)) then "strong_binder"
  else if lt energy (Num (-6)) then "moderate_binder"
  else if lt energy (Num (-4)) then "weak_binder"
  else "very_weak_binder".

(** [`tool_${data.docking_tool.toLowerCase().replace(/\s+/g, "_")}`] *)
Definition tool_tag (docking_tool : string) : string :=
  "tool_" ++ replace_spaces (toLowerCase docking_tool).

Definition calculateConfidence (data : ParsedDockingData) : number :=
  let score := Num 0 in
  let score :=
    if differs (protein data) "UNKNOWN"
       && differs (protein data) "GENERIC_PROTEIN"
    then add score (Num 0.3) else score in
  let score :=
    if differs (ligand data) "UNKNOWN"
       && differs (ligand data) "GENERIC_LIGAND"
    then add score (Num 0.3) else score in
  let score :=
    if strict_neq (binding_energy data) (Num 0)
       && lt (binding_energy data) (Num 0)
    then add score (Num 0.2) else score in
  let score :=
    if differs (docking_tool data) "Unknown"
    then add score (Num 0.2) else score in
  JS.min score (Num 1.0).

Definition applyTags (data : ParsedDockingData) : TaggedDockingData :=
  let tags := [] in
  let energy := binding_energy data in
  let tags := tags ++ [energy_tag energy] in
  let tags := tags ++ [tool_tag (docking_tool data)] in
  let tags :=
    if differs (protein data) "UNKNOWN"
       && differs (protein data) "GENERIC_PROTEIN"
    then tags ++ ["protein_identified"]
    else tags ++ ["protein_unknown"] in
  let tags :=
    if differs (ligand data) "UNKNOWN"
       && differs (ligand data) "GENERIC_LIGAND"
    then tags ++ ["ligand_identified"]
    else tags ++ ["ligand_unknown"] in
  let confidence := calculateConfidence data in
  mkTagged data tags confidence.

(** [options.context] and the result an earlier action left there. *)
Record Context : Type := mkContext {
  getPreviousResult : option (string -> option (ActionResult ParsedDockingData))
}.

Record Options : Type := mkOptions {
  context : option Context;
  parsedData : option ParsedDockingData
}.

(** [options?.context?.getPreviousResult?.("PARSE_DOCKING_FILE")?.data
     || options?.parsedData] *)
Definition upstream (options : option Options) : option ParsedDockingData :=
  let previousResult :=
    match options with
    | Some o =>
        match context o with
        | Some c =>
            match getPreviousResult c with
            | Some f => f "PARSE_DOCKING_FILE"
            | None => None
            end
        | None => None
        end
    | None => None
    end in
  orElse (match previousResult with Some r => data r | None => None end)
         (match options with Some o => parsedData o | None => None end).

Definition handler (options : option Options)
  : ActionResult TaggedDockingData * list reply :=
  match upstream options with
  | None =>
      (mkActionResult
         "No parsed docking data found. Please run PARSE_DOCKING_FILE first."
         false (Some "MISSING_PARSED_DATA") None,
       [Progress "AUTO_TAG_DOCKING_RESULT"])
  | Some parsedData =>
      let taggedData := applyTags parsedData in
      (mkActionResult "Docking result tagged successfully" true None
                      (Some taggedData),
       [Progress "AUTO_TAG_DOCKING_RESULT"; Report "AUTO_TAG_DOCKING_RESULT"])
  end.

(** [validate]: the action is always applicable. *)
Definition validate : bool := true.

Definition getEnergyClassification (energy : number) : string :=
  if lt energy (Num (-10)) then "Very Strong Binding"
  else if lt energy (Num (-8)) then "Strong Binding"
  else if lt energy (Num (-6)) then "Moderate Binding"
  else if lt energy (Num (-4)) then "Weak Binding"
  else "Very Weak Binding".

End AutoTag.

(* ================================================================== *)
(** * The stores *)
(* ================================================================== *)

(** A property value of a memory's [content]. *)
Inductive value : Type :=
| Undefined
| Null
| Str (s : string)
| Obj (r : DockingResult).

Record Memory : Type := mkMemory {
  id : string;
  entityId : string;
  roomId : string;
  content : list (string * value)
}.

(** The mutable state of the process: the objects the workflow allocated
    (an address is an index of [heap]), the array [global.dockingResults]
    of references to them ([None] while the global is undefined), and the
    runtime's memory table. *)
Record World : Type := mkWorld {
  heap : list DockingResult;
  dockingResults : option (list nat);
  memories : list Memory
}.

Definition empty_world : World := mkWorld [] None [].

(** The runtime's configuration. *)
Record Runtime : Type := mkRuntime {
  getSetting : string -> option string;
  agentId : string
}.

(** The incoming message. *)
Record Message : Type := mkMessage {
  msg_text : string;
  msg_entityId : string;
  msg_roomId : string
}.

(** [!x] on a value that is a string, [null] or [undefined]. *)
Definition falsy (x : option string) : bool :=
  match x with
  | None => true
  | Some s => String.eqb s EmptyString
  end.

(** [l[i] = f(l[i])] on the object at address [i]. *)
Fixpoint update {A : Type} (i : nat) (f : A -> A) (l : list A) : list A :=
  match l, i with
  | [], _ => []
  | x :: l', O => f x :: l'
  | x :: l', S i' => x :: update i' f l'
  end.

(** [runtime.createMemory(m)]: the memory joins the table. *)
Definition createMemory (w : World) (m : Memory) : World :=
  mkWorld (heap w) (dockingResults w) (memories w ++ [m]).

(** [runtime.getMemories({tableName, roomId, count})]: the memories of the
    room, at most [count] of them. *)
Definition getMemories (w : World) (room : string) (count : nat)
  : list Memory :=
  firstn count (filter (fun m => String.eqb (roomId m) room) (memories w)).

Definition json_tags (l : list string) : string :=
  JSON.array (map JSON.str l).

Definition json_nullable (x : option string) : string :=
  match x with
  | None => "null"
  | Some s => JSON.str s
  end.

(* ================================================================== *)
(** * [actions/storeMetadata.ts] *)
(* ================================================================== *)

Module StoreMetadata.

Record Context : Type := mkContext {
  getPreviousResult : option (string -> option (ActionResult TaggedDockingData))
}.

Record Options : Type := mkOptions {
  context : option Context;
  taggedData : option TaggedDockingData
}.

(** [options?.context?.getPreviousResult?.("AUTO_TAG_DOCKING_RESULT")?.data
     || options?.taggedData] *)
Definition upstream (options : option Options) : option TaggedDockingData :=
  let previousResult :=
    match options with
    | Some o =>
        match context o with
        | Some c =>
            match getPreviousResult c with
            | Some f => f "AUTO_TAG_DOCKING_RESULT"
            | None => None
            end
        | None => None
        end
    | None => None
    end in
  orElse (match previousResult with Some r => data r | None => None end)
         (match options with Some o => taggedData o | None => None end).

(** Builds the record; the source only logs it here. *)
Definition storeInDatabase (taggedData : TaggedDockingData)
    (timestamp : string) : DockingResult :=
  mkResult taggedData timestamp None.

(** The object [createSolanaProof] serialises. *)
Definition metadataString (data : DockingResult) : string :=
  JSON.object
    [ ("protein", JSON.str (protein data));
      ("ligand", JSON.str (ligand data));
      ("binding_energy", JSON.number (binding_energy data));
      ("docking_tool", JSON.str (docking_tool data));
      ("tags", json_tags (tags data));
      ("confidence", JSON.number (confidence data));
      ("file_hash", JSON.str (file_hash data));
      ("timestamp", JSON.str (timestamp data)) ].

Definition metadataHash (data : DockingResult) : string :=
  Crypto.sha256_hex (metadataString data).

Definition createSolanaProof (runtime : Runtime) (data : DockingResult)
  : option string :=
  let solanaRpcUrl := getSetting runtime "SOLANA_RPC_URL" in
  let solanaPrivateKey := getSetting runtime "SOLANA_PRIVATE_KEY" in
  if falsy solanaRpcUrl || falsy solanaPrivateKey then None
  else
    let mockTxId := ("MOCK_" ++ substring0 16 (metadataHash data))%string in
    Some mockTxId.

(** The handler.  [now] is [new Date().toISOString()] and [newId] is
    [runtime.generateId()]. *)
Definition handler (runtime : Runtime) (w : World) (message : Message)
    (options : option Options) (now newId : string)
  : ActionResult DockingResult * list reply * World :=
  match upstream options with
  | None =>
      (mkActionResult
         "No tagged docking data found. Please run AUTO_TAG_DOCKING_RESULT first."
         false (Some "MISSING_TAGGED_DATA") None,
       [Progress "STORE_METADATA"], w)
  | Some taggedData =>
      let timestamp := now in
      let storedData := storeInDatabase taggedData timestamp in
      let solana_tx := createSolanaProof runtime storedData in
      let finalResult :=
        mkResult (tagged storedData) (Types.timestamp storedData) solana_tx in
      let w' :=
        createMemory w
          (mkMemory newId (msg_entityId message) (msg_roomId message)
                    [ ("type", Str "docking_result");
                      ("data", Obj finalResult) ]) in
      (mkActionResult "Metadata stored with blockchain proof" true None
                      (Some finalResult),
       [Progress "STORE_METADATA"; Report "STORE_METADATA"], w')
  end.

(** [validate]: the action is always applicable. *)
Definition validate : bool := true.

End StoreMetadata.

(* ================================================================== *)
(** * [actions/processDockingWorkflow.ts] *)
(* ================================================================== *)

Module Workflow.

Import ParseDockingFile.

(** [/energy[:\s]+([-\d.]+)/i] *)
Definition energy_label : regex :=
  seq [Lit "energy"; RepOf colon_or_space 1; Cap (Rep number_char 1)].

(** [/([-\d.]+)\s*kcal/i] *)
Definition kcal : regex :=
  seq [Cap (Rep number_char 1); RepOf white_space 0; Lit "kcal"].

(** [/affinity\s*=\s*([-\d.]+)/i] *)
Definition affinity : regex :=
  seq [Lit "affinity"; RepOf white_space 0; Lit "="; RepOf white_space 0;
       Cap (Rep number_char 1)].

(** Declared to return [any]; the handler tests the result for
    falsiness, so the embedding returns an option, which is never
    [None]. *)
Definition parseDockingContent (content : string)
  : option ParsedDockingData :=
  let fileHash := Crypto.sha256_hex content in
  let proteinMatch :=
    orElse (match1 true (labelled_word "receptor") content)
           (match1 true (labelled_word "protein") content) in
  let protein := or_default proteinMatch "UNKNOWN" in
  let ligandMatch := match1 true (labelled_word "ligand") content in
  let ligand := or_default ligandMatch "UNKNOWN" in
  let energyMatch :=
    orElse (match1 true energy_label content)
      (orElse (match1 true kcal content)
         (orElse (match1 true affinity content)
                 (match1 false first_mode content))) in
  let binding_energy := energy_or energyMatch (Num 0) in
  let docking_tool :=
    if includes content "Vina" then "AutoDock Vina"
    else if includes content "GOLD" then "GOLD"
    else if includes content "Glide" then "Glide"
    else "Unknown" in
  Some (mkParsed protein ligand binding_energy docking_tool fileHash).

Definition applyTags (data : ParsedDockingData) : TaggedDockingData :=
  let tags := [] in
  let energy := binding_energy data in
  let tags :=
    if lt energy (Num (-10)) then tags ++ ["very_strong_binder"]
    else if lt energy (Num (-8)) then tags ++ ["strong_binder"]
    else if lt energy (Num (-6)) then tags ++ ["moderate_binder"]
    else if lt energy (Num (-4)) then tags ++ ["weak_binder"]
    else tags ++ ["very_weak_binder"] in
  let tags := tags ++ [AutoTag.tool_tag (docking_tool data)] in
  let tags :=
    if AutoTag.differs (protein data) "UNKNOWN"
    then tags ++ ["protein_identified"] else tags in
  let tags :=
    if AutoTag.differs (ligand data) "UNKNOWN"
    then tags ++ ["ligand_identified"] else tags in
  let confidence := Num 0 in
  let confidence :=
    if AutoTag.differs (protein data) "UNKNOWN"
    then add confidence (Num 0.3) else confidence in
  let confidence :=
    if AutoTag.differs (ligand data) "UNKNOWN"
    then add confidence (Num 0.3) else confidence in
  let confidence :=
    if strict_neq (binding_energy data) (Num 0)
       && lt (binding_energy data) (Num 0)
    then add confidence (Num 0.2) else confidence in
  let confidence :=
    if AutoTag.differs (docking_tool data) "Unknown"
    then add confidence (Num 0.2) else confidence in
  mkTagged data tags (JS.min confidence (Num 1.0)).

(** [JSON.stringify(result)]: the properties in the order the spreads
    [{...data, tags, confidence}] and [{...taggedData, timestamp,
    solana_tx}] created them. *)
Definition stringify (result : DockingResult) : string :=
  JSON.object
    [ ("protein", JSON.str (protein result));
      ("ligand", JSON.str (ligand result));
      ("binding_energy", JSON.number (binding_energy result));
      ("docking_tool", JSON.str (docking_tool result));
      ("file_hash", JSON.str (file_hash result));
      ("tags", json_tags (tags result));
      ("confidence", JSON.number (confidence result));
      ("timestamp", JSON.str (timestamp result));
      ("solana_tx", json_nullable (solana_tx result)) ].

(** Lines 93-104: the record is created with [solana_tx: null] and a
    reference to it is pushed on [global.dockingResults], which is created
    first when it does not exist.  Returns the address of the record. *)
Definition append (w : World) (taggedData : TaggedDockingData)
    (timestamp : string) : nat * World :=
  let result := mkResult taggedData timestamp None in
  let addr := List.length (heap w) in
  let array :=
    match dockingResults w with
    | None => []
    | Some a => a
    end in
  (addr, mkWorld (heap w ++ [result]) (Some (array ++ [addr])) (memories w)).

Definition mockTxId (result : DockingResult) : string :=
  let metadataHash := Crypto.sha256_hex (stringify result) in
  ("MOCK_" ++ substring0 16 metadataHash)%string.

(** Lines 107-111: [result.solana_tx = mockTxId], an assignment to the
    object the array refers to. *)
Definition anchor (w : World) (addr : nat) : World :=
  match nth_error (heap w) addr with
  | Some result =>
      mkWorld
        (update addr
           (fun r => mkResult (tagged r) (timestamp r) (Some (mockTxId result)))
           (heap w))
        (dockingResults w) (memories w)
  | None => w
  end.

(** The handler.  [now] is [new Date().toISOString()]. *)
Definition handler (w : World) (message : Message) (now : string)
  : ActionResult DockingResult * list reply * World :=
  let fileContent := msg_text message in
  match parseDockingContent fileContent with
  | None =>
      (mkActionResult "Failed to parse docking file" false
                      (Some "PARSE_FAILED") None,
       [Progress "PROCESS_DOCKING_WORKFLOW"], w)
  | Some parsedData =>
      let taggedData := applyTags parsedData in
      let timestamp := now in
      let '(addr, w1) := append w taggedData timestamp in
      let w2 := anchor w1 addr in
      (mkActionResult "Docking workflow completed successfully" true None
                      (nth_error (heap w2) addr),
       [Progress "PROCESS_DOCKING_WORKFLOW";
        Progress "PROCESS_DOCKING_WORKFLOW";
        Progress "PROCESS_DOCKING_WORKFLOW";
        Report "PROCESS_DOCKING_WORKFLOW"], w2)
  end.

Definition validate (text : option string) : bool :=
  let text :=
    match text with
    | Some t => toLowerCase t
    | None => EmptyString
    end in
  includes text "parse" || includes text "process"
  || includes text "upload" || includes text "docking"
  || includes text "receptor" || includes text "ligand".

End Workflow.

(* ================================================================== *)
(** * [actions/queryDockingData.ts] *)
(* ================================================================== *)

Module Query.

Record QueryFilters : Type := mkFilters {
  protein : option string;
  ligand : option string;
  minEnergy : option number;
  maxEnergy : option number;
  tool : option string;
  tags : option (list string)
}.

(** [/KEY\s+(\w+)/i] *)
Definition named (key : string) : regex :=
  seq [Lit key; RepOf white_space 1; Cap (Rep is_word 1)].

(** [/KEY\s+([-\d.]+)/] *)
Definition bound_after (key : string) : regex :=
  seq [Lit key; RepOf white_space 1; Cap (Rep number_char 1)].

(** [/(?:WORDS|SIGN)\s*([-\d.]+)/] *)
Definition bound_either (words sign : string) : regex :=
  seq [Alt (Lit words) (Lit sign); RepOf white_space 0; Cap (Rep number_char 1)].

(** [a || b] on strings that may be undefined: the empty string is
    falsy. *)
Definition str_or (a : option string) (b : option string) : option string :=
  if falsy a then b else a.

Definition parseQueryFilters (queryText : string) : QueryFilters :=
  let lowerQuery := toLowerCase queryText in
  let proteinMatch := match1 true (named "protein") lowerQuery in
  let ligandMatch := match1 true (named "ligand") lowerQuery in
  let belowMatch := match1 false (bound_after "below") lowerQuery in
  let aboveMatch := match1 false (bound_after "above") lowerQuery in
  let lessThanMatch := match1 false (bound_either "less than" "<") lowerQuery in
  let greaterThanMatch :=
    match1 false (bound_either "greater than" ">") lowerQuery in
  let tags := [] in
  let tags :=
    if includes lowerQuery "strong binder" then tags ++ ["strong_binder"]
    else tags in
  let tags :=
    if includes lowerQuery "weak binder" then tags ++ ["weak_binder"]
    else tags in
  let tags :=
    if includes lowerQuery "moderate binder" then tags ++ ["moderate_binder"]
    else tags in
  mkFilters
    (option_map toUpperCase proteinMatch)
    (option_map toUpperCase ligandMatch)
    (match aboveMatch, greaterThanMatch with
     | None, None => None
     | _, _ =>
         Some (parseFloat
                 (ParseDockingFile.or_default
                    (str_or (str_or aboveMatch greaterThanMatch) (Some "0"))
                    "0"))
     end)
    (match belowMatch, lessThanMatch with
     | None, None => None
     | _, _ =>
         Some (parseFloat
                 (ParseDockingFile.or_default
                    (str_or (str_or belowMatch lessThanMatch) (Some "0"))
                    "0"))
     end)
    (if includes lowerQuery "vina" then Some "AutoDock Vina"
     else if includes lowerQuery "gold" then Some "GOLD"
     else if includes lowerQuery "glide" then Some "Glide"
     else None)
    (if (0 <? List.length tags)%nat then Some tags else None).

(** [key in content] *)
Definition has_key (key : string) (content : list (string * value)) : bool :=
  existsb (fun kv => String.eqb (fst kv) key) content.

(** [content[key]] *)
Fixpoint get (key : string) (content : list (string * value)) : value :=
  match content with
  | [] => Undefined
  | (k, v) :: rest => if String.eqb k key then v else get key rest
  end.

(** [r !== null && r !== undefined] *)
Definition defined (r : value) : bool :=
  match r with
  | Undefined | Null => false
  | Str _ | Obj _ => true
  end.

(** [dockingMemories.map(m => m.content.docking_result).filter(r => r !==
    null && r !== undefined)].  The source casts what is left to records
    and checks nothing: a value that is no record stays in the list. *)
Definition results_of (dockingMemories : list Memory) : list value :=
  filter defined
    (map (fun m => get "docking_result" (content m)) dockingMemories).

(** A test that calls a method of a field of the result, as
    [r.protein.toUpperCase()] and [r.tags.includes(tag)] do: the field of
    a result that is no record is [undefined] and the call throws a
    TypeError, which is [None]. *)
Definition on_record (test : DockingResult -> bool) (r : value)
  : option bool :=
  match r with
  | Obj o => Some (test o)
  | _ => None
  end.

(** [results.filter(p)] with a test that may throw: the first throw ends
    the filtering. *)
Fixpoint filter_or_throw {A : Type} (p : A -> option bool) (l : list A)
  : option (list A) :=
  match l with
  | [] => Some []
  | x :: l' =>
      match p x with
      | None => None
      | Some keep =>
          match filter_or_throw p l' with
          | None => None
          | Some kept => Some (if keep then x :: kept else kept)
          end
      end
  end.

(** [if (c) results = results.filter(p)] *)
Definition filter_if {A : Type} (c : bool) (p : A -> option bool)
    (l : list A) : option (list A) :=
  if c then filter_or_throw p l else Some l.

(** One statement after the other, as long as none throws. *)
Definition andThen {A B : Type} (x : option A) (f : A -> option B)
  : option B :=
  match x with
  | Some a => f a
  | None => None
  end.

Local Notation "x <- e ;; k" := (andThen e (fun x => k))
  (at level 61, e at next level, right associativity).

Definition is_some {A : Type} (o : option A) : bool :=
  match o with
  | Some _ => true
  | None => false
  end.

(** [filters.f!] where the guard has established that it is defined. *)
Definition the_string (o : option string) : string :=
  ParseDockingFile.or_default o EmptyString.
Definition the_number (o : option number) : number :=
  ParseDockingFile.or_default o NaN.
Definition the_tags (o : option (list string)) : list string :=
  ParseDockingFile.or_default o [].

(** [r.tags.includes(tag)] *)
Definition has_tag (r : DockingResult) (tag : string) : bool :=
  existsb (String.eqb tag) (Types.tags r).

(** [r.binding_energy]: [undefined] on a result that is no record, which
    compares as [NaN] does. *)
Definition energy_of (r : value) : number :=
  match r with
  | Obj o => binding_energy o
  | _ => NaN
  end.

(** Lines 240-261 of [queryDatabase]: the values read from the memory
    table. *)
Definition loadResults (runtime : Runtime) (w : World) : list value :=
  let memories := getMemories w (agentId runtime) 100 in
  let dockingMemories :=
    filter (fun m => has_key "docking_result" (content m)) memories in
  results_of dockingMemories.

(** Lines 263-294 of [queryDatabase]: the filters, one after the other.
    The tests on the protein, the ligand, the tool and the tags throw on a
    result that is no record; the tests on the energy compare and do not
    throw. *)
Definition applyFilters (filters : QueryFilters) (results : list value)
  : option (list value) :=
  results <-
    filter_if (negb (falsy (protein filters)))
      (on_record (fun r : DockingResult =>
         includes (toUpperCase (Types.protein r))
                  (toUpperCase (the_string (protein filters)))))
      results ;;
  results <-
    filter_if (negb (falsy (ligand filters)))
      (on_record (fun r : DockingResult =>
         includes (toUpperCase (Types.ligand r))
                  (toUpperCase (the_string (ligand filters)))))
      results ;;
  results <-
    filter_if (is_some (minEnergy filters))
      (fun r => Some (ge (energy_of r) (the_number (minEnergy filters))))
      results ;;
  results <-
    filter_if (is_some (maxEnergy filters))
      (fun r => Some (le (energy_of r) (the_number (maxEnergy filters))))
      results ;;
  results <-
    filter_if (negb (falsy (tool filters)))
      (on_record (fun r : DockingResult =>
         includes (toLowerCase (docking_tool r))
                  (toLowerCase (the_string (tool filters)))))
      results ;;
  results <-
    filter_if (is_some (tags filters)
               && (0 <? List.length (the_tags (tags filters)))%nat)
      (on_record (fun r : DockingResult =>
         existsb (has_tag r) (the_tags (tags filters))))
      results ;;
  Some results.

(** [queryDatabase]: the [catch] clause of lines 299-302 answers a throw
    with the empty list. *)
Definition queryDatabase (runtime : Runtime) (w : World)
    (filters : QueryFilters) : list value :=
  match applyFilters filters (loadResults runtime w) with
  | Some results => results
  | None => []
  end.

(** [formatResults] goes through the results and calls [r.tags.join] on
    each: it throws on a result that is no record.  The text it builds
    goes to the callback only and is not modelled. *)
Definition formatResults (results : list value) : option unit :=
  andThen (filter_or_throw (on_record (fun _ => true)) results)
          (fun _ => Some tt).

(** The handler: the results and their count.  [typeError] is the message
    of the TypeError the engine raises (its wording is the engine's); the
    [catch] clause of lines 112-120 puts it into the text. *)
Definition handler (typeError : string) (runtime : Runtime) (w : World)
    (message : Message) : ActionResult (list value) * list reply :=
  let queryText := msg_text message in
  let filters := parseQueryFilters queryText in
  let results := queryDatabase runtime w filters in
  if (List.length results =? 0)%nat then
    (mkActionResult "No results found" true None (Some []),
     [Progress "QUERY_DOCKING_DATA"; Report "QUERY_DOCKING_DATA"])
  else
    match formatResults results with
    | Some _ =>
        (mkActionResult
           ("Found " ++ JSON.show_int (Z.of_nat (List.length results))
                     ++ " docking results")%string
           true None (Some results),
         [Progress "QUERY_DOCKING_DATA"; Report "QUERY_DOCKING_DATA"])
    | None =>
        (mkActionResult ("Failed to query docking data: " ++ typeError)%string
                        false (Some typeError) None,
         [Progress "QUERY_DOCKING_DATA"])
    end.

Definition validate (text : option string) : bool :=
  let text :=
    match text with
    | Some t => toLowerCase t
    | None => EmptyString
    end in
  includes text "query" || includes text "search"
  || includes text "find" || includes text "show"
  || includes text "get" || includes text "retrieve"
  || includes text "list".

End Query.

(* ================================================================== *)
(** * The specification's notions *)
(* ================================================================== *)

(** ** Energy tiers (section 4.2) *)

Inductive tier : Type := VeryStrong | Strong | Moderate | Weak | VeryWeak.

Definition tier_tag (t : tier) : string :=
  match t with
  | VeryStrong => "very_strong_binder"
  | Strong => "strong_binder"
  | Moderate => "moderate_binder"
  | Weak => "weak_binder"
  | VeryWeak => "very_weak_binder"
  end.

(** The partition of the line: below -10, [-10,-8), [-8,-6), [-6,-4),
    and -4 or more. *)
Definition in_tier (q : Q) (t : tier) : Prop :=
  match t with
  | VeryStrong => q < -10
  | Strong => -10 <= q /\ q < -8
  | Moderate => -8 <= q /\ q < -6
  | Weak => -6 <= q /\ q < -4
  | VeryWeak => -4 <= q
  end.

Definition is_tier_tag (s : string) : bool :=
  existsb (String.eqb s)
    (map tier_tag [VeryStrong; Strong; Moderate; Weak; VeryWeak]).

(** The tier tags of a tag list, in order. *)
Definition tier_tags (l : list string) : list string := filter is_tier_tag l.

(** ** Confidence (section 4.2) *)

(** A field is identified when it is none of the sentinels. *)
Definition identified (sentinels : list string) (x : string) : bool :=
  negb (existsb (String.eqb x) sentinels).

(** [energy !== 0 && energy < 0] *)
Definition nonzero_negative (energy : number) : bool :=
  strict_neq energy (Num 0) && JS.lt energy (Num 0).

Definition bonus (evidence : bool) (x : Q) : Q := if evidence then x else 0.

Definition capped (s : Q) : Q := if Qle_bool s 1 then s else 1.

(** The additive score, capped at 1. *)
Definition additive_confidence (p l e t : bool) : Q :=
  capped (bonus p 0.3 + bonus l 0.3 + bonus e 0.2 + bonus t 0.2).

(** The double nearest to a rational with numerator and denominator below
    [2^53]: the correctly rounded quotient of two exact doubles. *)
Definition to_double (q : Q) : float :=
  (PrimFloat.of_uint63 (Uint63.of_Z (Qnum q))
   / PrimFloat.of_uint63 (Uint63.of_Z (Zpos (Qden q))))%float.

(** The sum of [calculateConfidence] evaluated on doubles, as the
    JavaScript engine evaluates it, from the four tests. *)
Definition confidence_binary64 (p l e t : bool) : float :=
  let score := 0%float in
  let score := if p then (score + to_double 0.3)%float else score in
  let score := if l then (score + to_double 0.3)%float else score in
  let score := if e then (score + to_double 0.2)%float else score in
  let score := if t then (score + to_double 0.2)%float else score in
  if PrimFloat.leb score 1%float then score else 1%float.

(** ** Format detection (section 4.1) *)

(** The markers of the format detection. *)
Definition tool_markers : list string :=
  ["AutoDock Vina"; "VINA RESULT"; "GOLD"; "Gold Score"; "Glide"; "GLIDE"].

Definition has_marker (content : string) : bool :=
  existsb (includes content) tool_markers.

(** The rulesets of the three tools, in the order of the detection, each
    with its markers, the tool it names and the function that applies
    it. *)
Inductive ruleset : Type := VinaRules | GoldRules | GlideRules.

Definition markers_of (t : ruleset) : list string :=
  match t with
  | VinaRules => ["AutoDock Vina"; "VINA RESULT"]
  | GoldRules => ["GOLD"; "Gold Score"]
  | GlideRules => ["Glide"; "GLIDE"]
  end.

Definition tool_of (t : ruleset) : string :=
  match t with
  | VinaRules => "AutoDock Vina"
  | GoldRules => "GOLD"
  | GlideRules => "Glide"
  end.

Definition rules_of (t : ruleset)
  : string -> string -> option ParsedDockingData :=
  match t with
  | VinaRules => ParseDockingFile.parseVinaFormat
  | GoldRules => ParseDockingFile.parseGoldFormat
  | GlideRules => ParseDockingFile.parseGlideFormat
  end.

(** The first ruleset, in that order, one of whose markers the content
    holds. *)
Definition detected (content : string) : option ruleset :=
  find (fun t => existsb (includes content) (markers_of t))
       [VinaRules; GoldRules; GlideRules].

(** ** The stores and the operations on them (sections 4.4 and 4.6) *)

(** The array [global.dockingResults], empty while undefined. *)
Definition array_of (w : World) : list nat :=
  match dockingResults w with
  | None => []
  | Some a => a
  end.

(** The records the array refers to, read through the references. *)
Definition stored (w : World) : list (option DockingResult) :=
  map (nth_error (heap w)) (array_of w).

(** One invocation of an action. *)
Inductive operation : Type :=
| ParseFile (text : string)
| AutoTagResult (options : option AutoTag.Options)
| StoreRecord (runtime : Runtime) (message : Message)
    (options : option StoreMetadata.Options) (now newId : string)
| QueryData (runtime : Runtime) (message : Message)
| ProcessWorkflow (message : Message) (now : string).

Definition perform (w : World) (op : operation) : World :=
  match op with
  | ParseFile _ | AutoTagResult _ | QueryData _ _ => w
  | StoreRecord runtime message options now newId =>
      snd (StoreMetadata.handler runtime w message options now newId)
  | ProcessWorkflow message now => snd (Workflow.handler w message now)
  end.

Definition run (w : World) (ops : list operation) : World :=
  fold_left perform ops w.

(** Every reference of the array is an address of the heap. *)
Definition well_formed (w : World) : Prop :=
  Forall (fun a => (a < List.length (heap w))%nat) (array_of w).

(** A memory as STORE_METADATA writes it. *)
Definition stored_by_handler (m : Memory) : Prop :=
  exists r, content m = [("type", Str "docking_result"); ("data", Obj r)].

(** ** Matching without regard to case, and filters (section 4.5) *)

(** Two characters are the same letter when they are equal or one is the
    capital of the other. *)
Definition same_letter (a b : ascii) : Prop :=
  a = b
  \/ (is_lower a = true /\ b = upper_char a)
  \/ (is_lower b = true /\ a = upper_char b).

Inductive same_text : string -> string -> Prop :=
| same_text_empty : same_text EmptyString EmptyString
| same_text_cons (a b : ascii) (s t : string) :
    same_letter a b -> same_text s t -> same_text (String a s) (String b t).

(** [needle] occurs in [hay], letters compared without regard to case. *)
Definition ci_contains (hay needle : string) : Prop :=
  exists pre mid post,
    hay = (pre ++ mid ++ post)%string /\ same_text mid needle.

(** A record satisfies a filter when it satisfies every field the filter
    holds: the protein, ligand and tool filters by containment without
    regard to case, the energy bounds inclusively, the tag filter by
    carrying one of the requested tags. *)
Definition matches (f : Query.QueryFilters) (r : DockingResult) : Prop :=
  (forall p, Query.protein f = Some p -> ci_contains (protein r) p)
  /\ (forall l, Query.ligand f = Some l -> ci_contains (ligand r) l)
  /\ (forall lo, Query.minEnergy f = Some lo ->
                 JS.ge (binding_energy r) lo = true)
  /\ (forall hi, Query.maxEnergy f = Some hi ->
                 JS.le (binding_energy r) hi = true)
  /\ (forall t, Query.tool f = Some t -> ci_contains (docking_tool r) t)
  /\ (forall ts, Query.tags f = Some ts ->
                 exists t, In t ts /\ In t (tags r)).

(** The six tests of [applyFilters] on one record. *)
Definition passes (f : Query.QueryFilters) (r : DockingResult) : bool :=
  implb (negb (falsy (Query.protein f)))
        (includes (toUpperCase (protein r))
                  (toUpperCase (Query.the_string (Query.protein f))))
  && implb (negb (falsy (Query.ligand f)))
        (includes (toUpperCase (ligand r))
                  (toUpperCase (Query.the_string (Query.ligand f))))
  && implb (Query.is_some (Query.minEnergy f))
        (JS.ge (binding_energy r) (Query.the_number (Query.minEnergy f)))
  && implb (Query.is_some (Query.maxEnergy f))
        (JS.le (binding_energy r) (Query.the_number (Query.maxEnergy f)))
  && implb (negb (falsy (Query.tool f)))
        (includes (toLowerCase (docking_tool r))
                  (toLowerCase (Query.the_string (Query.tool f))))
  && implb (Query.is_some (Query.tags f)
            && (0 <? List.length (Query.the_tags (Query.tags f)))%nat)
        (existsb (Query.has_tag r) (Query.the_tags (Query.tags f))).

(** The six filters of [applyFilters] in their order, each with its
    guard. *)
Definition tests (f : Query.QueryFilters)
  : list (bool * (value -> option bool)) :=
  [ (negb (falsy (Query.protein f)),
     Query.on_record (fun r : DockingResult =>
       includes (toUpperCase (protein r))
                (toUpperCase (Query.the_string (Query.protein f)))));
    (negb (falsy (Query.ligand f)),
     Query.on_record (fun r : DockingResult =>
       includes (toUpperCase (ligand r))
                (toUpperCase (Query.the_string (Query.ligand f)))));
    (Query.is_some (Query.minEnergy f),
     fun r => Some (JS.ge (Query.energy_of r)
                          (Query.the_number (Query.minEnergy f))));
    (Query.is_some (Query.maxEnergy f),
     fun r => Some (JS.le (Query.energy_of r)
                          (Query.the_number (Query.maxEnergy f))));
    (negb (falsy (Query.tool f)),
     Query.on_record (fun r : DockingResult =>
       includes (toLowerCase (docking_tool r))
                (toLowerCase (Query.the_string (Query.tool f)))));
    (Query.is_some (Query.tags f)
     && (0 <? List.length (Query.the_tags (Query.tags f)))%nat,
     Query.on_record (fun r : DockingResult =>
       existsb (Query.has_tag r) (Query.the_tags (Query.tags f)))) ].

(** What the filters make of one result: [Some true] when every test
    keeps it, [Some false] when one drops it, [None] when one throws
    on it. *)
Definition test_if (c : bool) (p : value -> option bool) (r : value)
    (kept : option bool) : option bool :=
  match kept with
  | Some true => if c then p r else Some true
  | other => other
  end.

Definition verdict (f : Query.QueryFilters) (r : value) : option bool :=
  fold_left (fun kept test => test_if (fst test) (snd test) r kept)
            (tests f) (Some true).

(** Two filtered lists one after the other, when neither filtering
    threw. *)
Definition both {A : Type} (a b : option (list A)) : option (list A) :=
  match a, b with
  | Some x, Some y => Some (x ++ y)
  | _, _ => None
  end.

(** The memory [m] holds the record [r] the way the query reads it: in
    the room [room], under the property [docking_result]. *)
Definition holds (room : string) (m : Memory) (r : DockingResult) : Prop :=
  roomId m = room
  /\ Query.has_key "docking_result" (content m) = true
  /\ Query.get "docking_result" (content m) = Obj r.

(** The records the memory table holds the way STORE_METADATA writes
    them: under the property [data]. *)
Definition stored_records (w : World) : list DockingResult :=
  flat_map
    (fun m =>
       match Query.get "data" (content m) with
       | Obj r => [r]
       | _ => []
       end)
    (memories w).

(** ** Sample inputs *)

Definition unidentified_sample : ParsedDockingData :=
  mkParsed "UNKNOWN" "UNKNOWN" (Num 0) "Unknown" (Crypto.sha256_hex "hello").

Definition generic_sample : ParsedDockingData :=
  mkParsed "GENERIC_PROTEIN" "GENERIC_LIGAND" (Num (-6.0)) "Unknown"
           (Crypto.sha256_hex "hello world").

Definition unconfigured : Runtime := mkRuntime (fun _ => None) "agent".

Definition configured : Runtime :=
  mkRuntime (fun _ => Some "https://api.devnet.solana.com") "agent".

Definition sample_message : Message :=
  mkMessage
    "Parse this Vina result: receptor: 1ABC, ligand: XYZ, energy: -8.5"
    "user" "room".

Definition sample_now : string := "2025-01-01T00:00:00.000Z".

(** A classified record, and the options that hand it to STORE_METADATA. *)
Definition sample_tagged : TaggedDockingData :=
  AutoTag.applyTags
    (mkParsed "1ABC" "MOL123" (Num (-8.7)) "AutoDock Vina"
              (Crypto.sha256_hex "sample")).

Definition sample_options : option StoreMetadata.Options :=
  Some (StoreMetadata.mkOptions None (Some sample_tagged)).

(** A table of four records, written the way the query reads them. *)
Definition record_of (p l : string) (e : number) (tool : string)
  : DockingResult :=
  mkResult (AutoTag.applyTags (mkParsed p l e tool (Crypto.sha256_hex p)))
           sample_now None.

Definition readable (i : string) (r : DockingResult) : Memory :=
  mkMemory i "user" "agent" [("docking_result", Obj r)].

Definition query_world : World :=
  mkWorld [] None
    [ readable "m1" (record_of "1abc" "MOL123" (Num (-8.7)) "AutoDock Vina");
      readable "m2" (record_of "x1ABCy" "MOL7" (Num (-6.5)) "GOLD");
      readable "m3" (record_of "2XYZ" "MOL123" (Num (-9.1)) "Glide");
      readable "m4" (record_of "1Abc" "MOL9" (Num (-7.0)) "Glide") ].

(** The filter of the specification's example: protein 1ABC, energy at
    most -7.0. *)
Definition example_filter : Query.QueryFilters :=
  Query.mkFilters (Some "1ABC") None None (Some (Num (-7.0))) None None.

(** The table with one more memory, whose [docking_result] is a string. *)
Definition mixed_world : World :=
  mkWorld [] None
    (memories query_world
     ++ [mkMemory "m5" "user" "agent" [("docking_result", Str "1ABC")]]).

(** ** Notions for the further properties *)

(** A message text mentions one of the keywords, letters compared without
    regard to case. *)
Definition mentions (text : option string) (keywords : list string) : Prop :=
  exists t k, text = Some t /\ In k keywords /\ ci_contains t k.

(** The label [getEnergyClassification] gives a tier. *)
Definition tier_label (t : tier) : string :=
  match t with
  | VeryStrong => "Very Strong Binding"
  | Strong => "Strong Binding"
  | Moderate => "Moderate Binding"
  | Weak => "Weak Binding"
  | VeryWeak => "Very Weak Binding"
  end.

(** The tiers from the strongest to the weakest. *)
Definition tier_rank (t : tier) : nat :=
  match t with
  | VeryStrong => 0
  | Strong => 1
  | Moderate => 2
  | Weak => 3
  | VeryWeak => 4
  end.

(** Every character of [s] is of class [p]. *)
Fixpoint all_chars (p : ascii -> bool) (s : string) : bool :=
  match s with
  | EmptyString => true
  | String c s' => p c && all_chars p s'
  end.

(** No white-space character, of one byte or of several, stands anywhere
    in [s]. *)
Fixpoint spaceless (s : string) : bool :=
  match s with
  | EmptyString => true
  | String _ s' => (member_width white_space s =? 0)%nat && spaceless s'
  end.

(** [t] follows [s] until it ends or holds an underscore. *)
Inductive blunted : string -> string -> Prop :=
| blunted_end (s : string) : blunted s EmptyString
| blunted_underscore (s t : string) : blunted s (String "_" t)
| blunted_next (c : ascii) (s t : string) :
    blunted s t -> blunted (String c s) (String c t).

(** A non-empty string of characters of class [p]. *)
Definition word_of (p : ascii -> bool) (s : string) : bool :=
  negb (String.eqb s EmptyString) && all_chars p s.

(** Every capture group of [r] encloses a repetition whose matches all
    satisfy [P]. *)
Fixpoint captures (P : string -> Prop) (r : regex) : Prop :=
  match r with
  | Cap (Rep p atleast) =>
      forall s n, (atleast <= n <= JS.run p s)%nat -> P (take n s)
  | Cap _ => False
  | Alt r1 r2 | Seq r1 r2 => captures P r1 /\ captures P r2
  | Lit _ | Rep _ _ | RepOf _ _ => True
  end.

(** What every extraction promises of the record it returns for
    [content]: names that are non-empty words, one of the four tool names,
    and the digest of the content. *)
Definition extracted_from (content : string) (d : ParsedDockingData) : Prop :=
  word_of is_word (protein d) = true
  /\ word_of is_word (ligand d) = true
  /\ In (docking_tool d) ["AutoDock Vina"; "GOLD"; "Glide"; "Unknown"]
  /\ file_hash d = Crypto.sha256_hex content.

(** Capitals, digits and the underscore. *)
Definition capital_word_char (c : ascii) : bool :=
  is_word c && negb (is_lower c).

(** The words and signs [parseQueryFilters] looks for. *)
Definition query_keywords : list string :=
  ["protein"; "ligand"; "below"; "above"; "less than"; "<";
   "greater than"; ">"; "vina"; "gold"; "glide";
   "strong binder"; "weak binder"; "moderate binder"].

(** The filter that constrains nothing. *)
Definition no_filter : Query.QueryFilters :=
  Query.mkFilters None None None None None None.

(** A digit of lower-case hexadecimal notation. *)
Definition is_hex (c : ascii) : bool :=
  is_digit c || between 97 102 c.

(** The form of a ledger reference: [MOCK_] and sixteen hexadecimal
    digits. *)
Definition is_reference (tx : string) : bool :=
  startsWith "MOCK_" tx
  && (String.length (drop 5 tx) =? 16)%nat
  && all_chars is_hex (drop 5 tx).

(** The reference of a record is the one the workflow derives from the
    record itself, its reference reset to null. *)
Definition carries_own_reference (r : DockingResult) : Prop :=
  solana_tx r
  = Some (Workflow.mockTxId (mkResult (tagged r) (timestamp r) None)).

(** What holds of every state the actions reach: the array lists the heap
    in order, every record on the heap carries its own reference, and
    every memory is one STORE_METADATA wrote. *)
Definition reached (w : World) : Prop :=
  array_of w = List.seq 0 (List.length (heap w))
  /\ Forall carries_own_reference (heap w)
  /\ Forall stored_by_handler (memories w).

(** A context that remembers the result of one action. *)
Definition remembering {D : Type} (action : string) (result : ActionResult D)
  : string -> option (ActionResult D) :=
  fun name => if String.eqb name action then Some result else None.

(** Options that carry nothing but such a context. *)
Definition after_parse (result : ActionResult ParsedDockingData)
  : option AutoTag.Options :=
  Some (AutoTag.mkOptions
          (Some (AutoTag.mkContext
                   (Some (remembering "PARSE_DOCKING_FILE" result))))
          None).

Definition after_tag (result : ActionResult TaggedDockingData)
  : option StoreMetadata.Options :=
  Some (StoreMetadata.mkOptions
          (Some (StoreMetadata.mkContext
                   (Some (remembering "AUTO_TAG_DOCKING_RESULT" result))))
          None).

(** The markers of a tool that only one of the two extractions looks
    for. *)
Definition one_sided_markers : list string :=
  ["Vina"; "VINA RESULT"; "Gold Score"; "GLIDE"].

(** A result and the replies sent with it are coherent: a success carries
    data and no error code, and a report was the last reply; a failure
    carries an error code and no data, and nothing was sent after the
    progress notice. *)
Definition coherent {D : Type} (out : ActionResult D * list reply) : bool :=
  let (result, replies) := out in
  if success result then
    match error result, data result, last replies (Progress EmptyString) with
    | None, Some _, Report _ => true
    | _, _, _ => false
    end
  else
    match error result, data result, replies with
    | Some _, None, [Progress _] => true
    | _, _, _ => false
    end.

(** ** Proof steps *)

Ltac bool_cases :=
  repeat match goal with
  | |- context [String.eqb ?a ?b] => destruct (String.eqb a b)
  | |- context [nonzero_negative ?e] => destruct (nonzero_negative e)
  end.

Ltac score_case :=
  eexists; split; [reflexivity|];
  split; [vm_compute; reflexivity|];
  split; vm_compute; discriminate.

Ltac each_char a :=
  destruct a as [[] [] [] [] [] [] [] []].

(** A marked input is taken by the ruleset of its marker. *)
Ltac marked :=
  cbn [orb find markers_of existsb rules_of tool_of];
  repeat match goal with
  | H : includes _ _ = _ |- _ => rewrite H
  end;
  cbn [orb];
  split; [reflexivity|]; eexists; repeat split.

(* ================================================================== *)
(** * Properties *)
(* ================================================================== *)

(** ** Numbers *)

Lemma Qltb_lt (a b : Q) : Qltb a b = true <-> a < b.
Proof.
  unfold Qltb. rewrite negb_true_iff.
  split; intro H.
  - apply Qnot_le_lt. intro L. apply Qle_bool_iff in L. congruence.
  - destruct (Qle_bool b a) eqn:E; [|reflexivity].
    apply Qle_bool_iff in E. exfalso. exact (Qlt_not_le _ _ H E).
Qed.

Lemma Qltb_ge (a b : Q) : Qltb a b = false <-> b <= a.
Proof.
  unfold Qltb. rewrite negb_false_iff. apply Qle_bool_iff.
Qed.

Lemma lt_Num (a b : Q) : JS.lt (Num a) (Num b) = true <-> a < b.
Proof. apply Qltb_lt. Qed.

Lemma le_Num (a b : Q) : JS.le (Num a) (Num b) = true <-> a <= b.
Proof. apply Qle_bool_iff. Qed.

(** ** Lists *)

Lemma filter_none {A : Type} (f : A -> bool) (l : list A) :
  Forall (fun x => f x = false) l -> filter f l = [].
Proof.
  induction 1 as [|x l Hx _ IH]; simpl; [reflexivity|].
  rewrite Hx. exact IH.
Qed.

Lemma Forall_filter {A : Type} (P : A -> Prop) (f : A -> bool) (l : list A) :
  Forall P l -> Forall P (filter f l).
Proof.
  induction 1 as [|x l Hx _ IH]; simpl; [constructor|].
  destruct (f x); [constructor; assumption | assumption].
Qed.

Lemma Forall_firstn {A : Type} (P : A -> Prop) (n : nat) (l : list A) :
  Forall P l -> Forall P (firstn n l).
Proof.
  intro H. revert n. induction H as [|x l Hx _ IH]; intros [|n]; simpl;
    constructor; auto.
Qed.

Lemma nth_error_update_other {A : Type} (f : A -> A) (l : list A) (i j : nat) :
  i <> j -> nth_error (update i f l) j = nth_error l j.
Proof.
  revert i j. induction l as [|x l IH]; intros [|i] [|j] H; simpl;
    try reflexivity; try congruence.
  apply IH. congruence.
Qed.

Lemma nth_error_update_same {A : Type} (f : A -> A) (l : list A) (i : nat) :
  nth_error (update i f l) i = option_map f (nth_error l i).
Proof.
  revert i. induction l as [|x l IH]; intros [|i]; simpl; try reflexivity.
  apply IH.
Qed.

Lemma update_length {A : Type} (f : A -> A) (l : list A) (i : nat) :
  List.length (update i f l) = List.length l.
Proof.
  revert i. induction l as [|x l IH]; intros [|i]; simpl; try reflexivity.
  f_equal. apply IH.
Qed.

Lemma map_nth_error_below {A : Type} (h h' : list A) (a : list nat) :
  Forall (fun i => (i < List.length h)%nat) a ->
  (forall i, (i < List.length h)%nat -> nth_error h' i = nth_error h i) ->
  map (nth_error h') a = map (nth_error h) a.
Proof.
  intros Ha Hh. induction Ha as [|i a Hi _ IH]; simpl; [reflexivity|].
  rewrite (Hh i Hi), IH. reflexivity.
Qed.

(** ** Energy tiers *)

Lemma in_tier_total (q : Q) : exists t, in_tier q t.
Proof.
  destruct (Qlt_le_dec q (-10)); [exists VeryStrong; assumption|].
  destruct (Qlt_le_dec q (-8)); [exists Strong; split; assumption|].
  destruct (Qlt_le_dec q (-6)); [exists Moderate; split; assumption|].
  destruct (Qlt_le_dec q (-4)); [exists Weak; split; assumption|].
  exists VeryWeak; assumption.
Qed.

Lemma in_tier_unique (q : Q) (t t' : tier) :
  in_tier q t -> in_tier q t' -> t = t'.
Proof.
  destruct t, t'; simpl; intros H H'; try reflexivity; exfalso; lra.
Qed.

(** The tag the chain of comparisons selects, read on a rational. *)
Lemma energy_tag_in_tier (q : Q) (t : tier) :
  in_tier q t -> AutoTag.energy_tag (Num q) = tier_tag t.
Proof.
  intro H. unfold AutoTag.energy_tag.
  destruct (JS.lt (Num q) (Num (-10))) eqn:E10.
  { apply lt_Num in E10. destruct t; simpl in H; try reflexivity; exfalso; lra. }
  apply Qltb_ge in E10.
  destruct (JS.lt (Num q) (Num (-8))) eqn:E8.
  { apply lt_Num in E8. destruct t; simpl in H; try reflexivity; exfalso; lra. }
  apply Qltb_ge in E8.
  destruct (JS.lt (Num q) (Num (-6))) eqn:E6.
  { apply lt_Num in E6. destruct t; simpl in H; try reflexivity; exfalso; lra. }
  apply Qltb_ge in E6.
  destruct (JS.lt (Num q) (Num (-4))) eqn:E4.
  { apply lt_Num in E4. destruct t; simpl in H; try reflexivity; exfalso; lra. }
  apply Qltb_ge in E4.
  destruct t; simpl in H; try reflexivity; exfalso; lra.
Qed.

Lemma is_tier_tag_tier (t : tier) : is_tier_tag (tier_tag t) = true.
Proof. destruct t; reflexivity. Qed.

Lemma tool_tag_not_tier (tool : string) :
  is_tier_tag (AutoTag.tool_tag tool) = false.
Proof. reflexivity. Qed.

Lemma AutoTag_tags_shape (data : ParsedDockingData) :
  exists pt lt,
    tags (AutoTag.applyTags data) =
      [AutoTag.energy_tag (binding_energy data);
       AutoTag.tool_tag (docking_tool data); pt; lt]
    /\ (pt = "protein_identified" \/ pt = "protein_unknown")
    /\ (lt = "ligand_identified" \/ lt = "ligand_unknown").
Proof.
  unfold AutoTag.applyTags; simpl.
  destruct (_ && _); destruct (_ && _); simpl; eauto 10.
Qed.

Lemma Workflow_tags_shape (data : ParsedDockingData) :
  exists rest,
    tags (Workflow.applyTags data) =
      AutoTag.energy_tag (binding_energy data)
      :: AutoTag.tool_tag (docking_tool data) :: rest
    /\ Forall (fun s => s = "protein_identified" \/ s = "ligand_identified")
              rest.
Proof.
  unfold Workflow.applyTags, AutoTag.energy_tag; simpl.
  destruct (JS.lt _ (Num (-10))); [|destruct (JS.lt _ (Num (-8)));
    [|destruct (JS.lt _ (Num (-6))); [|destruct (JS.lt _ (Num (-4)))]]];
    simpl;
    destruct (AutoTag.differs (protein data) _);
    destruct (AutoTag.differs (ligand data) _); simpl;
    eexists; (split; [reflexivity|]);
    repeat (apply Forall_cons; [solve [auto]|]); apply Forall_nil.
Qed.

Lemma tier_tags_of_shape (e tool : string) (rest : list string) :
  is_tier_tag e = true ->
  Forall (fun s => is_tier_tag s = false) rest ->
  tier_tags (e :: AutoTag.tool_tag tool :: rest) = [e].
Proof.
  intros He Hrest. unfold tier_tags.
  change (filter is_tier_tag (e :: AutoTag.tool_tag tool :: rest))
    with (if is_tier_tag e
          then e :: filter is_tier_tag (AutoTag.tool_tag tool :: rest)
          else filter is_tier_tag (AutoTag.tool_tag tool :: rest)).
  rewrite He. f_equal.
  apply filter_none. constructor; [apply tool_tag_not_tier | exact Hrest].
Qed.

(** C4. Energy-tier tagging partitions the line: every rational binding
    energy (every finite double is one) lies in exactly one of the five
    tiers (below -10; [-10,-8); [-8,-6); [-6,-4); -4 or more), and both
    classifiers, the one of AUTO_TAG_DOCKING_RESULT and the one of the
    combined workflow, produce exactly one tier tag, the tag of that tier.
    The boundary values -10, -8, -6 and -4 open the tier above them: -10
    is tagged strong, -8 moderate, -6 weak and -4 very weak. *)
Theorem C4_energy_tier_partition :
  forall (p l : string) (q : Q) (tool h : string),
    let data := mkParsed p l (Num q) tool h in
    (exists t,
        in_tier q t
        /\ (forall t', in_tier q t' <-> t' = t)
        /\ tier_tags (tags (AutoTag.applyTags data)) = [tier_tag t]
        /\ tier_tags (tags (Workflow.applyTags data)) = [tier_tag t])
    /\ in_tier (-10) Strong /\ in_tier (-8) Moderate
    /\ in_tier (-6) Weak /\ in_tier (-4) VeryWeak.
Proof.
  intros p l q tool h data. split.
  - destruct (in_tier_total q) as [t Ht]. exists t.
    split; [exact Ht|]. split.
    { intro t'. split; intro H.
      - exact (in_tier_unique q t' t H Ht).
      - subst t'. exact Ht. }
    pose proof (energy_tag_in_tier q t Ht) as Htag.
    split.
    + destruct (AutoTag_tags_shape data) as (pt & lt & -> & Hp & Hl).
      simpl binding_energy. rewrite Htag.
      apply tier_tags_of_shape; [apply is_tier_tag_tier|].
      repeat constructor; [destruct Hp as [-> | ->] | destruct Hl as [-> | ->]];
        reflexivity.
    + destruct (Workflow_tags_shape data) as (rest & -> & Hrest).
      simpl binding_energy. rewrite Htag.
      apply tier_tags_of_shape; [apply is_tier_tag_tier|].
      eapply Forall_impl; [|exact Hrest].
      intros s [-> | ->]; reflexivity.
  - simpl. repeat split; lra.
Qed.

(** Beyond the line: a not-a-number energy, which [parseFloat] returns for
    a capture with no digit, falls through every comparison; the
    infinities fall in the outer tiers. *)
Remark energy_tag_not_finite :
  parseFloat "-" = NaN
  /\ AutoTag.energy_tag NaN = "very_weak_binder"
  /\ AutoTag.energy_tag NegInf = "very_strong_binder"
  /\ AutoTag.energy_tag PosInf = "very_weak_binder".
Proof. repeat split; reflexivity. Qed.

(** ** Confidence *)

(** C5. For every extracted record the confidence of either classifier is
    the additive score: 0.3 when the protein is identified (it is none of
    the classifier's sentinels), 0.3 when the ligand is identified, 0.2
    when the binding energy is non-zero and negative, 0.2 when the tool is
    not the sentinel Unknown, the sum capped at 1; it lies between 0 and
    1.  The sentinels of the AUTO_TAG_DOCKING_RESULT classifier are UNKNOWN
    and the generic fallback's names; the sentinel of the workflow's
    classifier is UNKNOWN. *)
Theorem C5_confidence_additive_capped :
  forall data : ParsedDockingData,
    (exists c,
        confidence (AutoTag.applyTags data) = Num c
        /\ c == additive_confidence
                  (identified ["UNKNOWN"; "GENERIC_PROTEIN"] (protein data))
                  (identified ["UNKNOWN"; "GENERIC_LIGAND"] (ligand data))
                  (nonzero_negative (binding_energy data))
                  (identified ["Unknown"] (docking_tool data))
        /\ 0 <= c /\ c <= 1)
    /\ (exists c,
        confidence (Workflow.applyTags data) = Num c
        /\ c == additive_confidence
                  (identified ["UNKNOWN"] (protein data))
                  (identified ["UNKNOWN"] (ligand data))
                  (nonzero_negative (binding_energy data))
                  (identified ["Unknown"] (docking_tool data))
        /\ 0 <= c /\ c <= 1).
Proof.
  intro data.
  unfold AutoTag.applyTags, Workflow.applyTags, AutoTag.calculateConfidence,
    AutoTag.differs, identified, existsb.
  simpl confidence.
  fold (nonzero_negative (binding_energy data)).
  split; bool_cases; score_case.
Qed.

(** The sum of the program is exact in binary64: computed on doubles, each
    of the sixteen outcomes is the double nearest to the rational outcome,
    and lies between 0 and 1. *)
Lemma confidence_binary64_exact (p l e t : bool) :
  confidence_binary64 p l e t = to_double (Qred (additive_confidence p l e t))
  /\ PrimFloat.leb 0 (confidence_binary64 p l e t) = true
  /\ PrimFloat.leb (confidence_binary64 p l e t) 1 = true.
Proof. destruct p, l, e, t; vm_compute; repeat split. Qed.

(** ** The two classifiers *)

(** C10 (the code at the failing inputs). On a record with unidentified
    protein and ligand the workflow's classifier leaves out the two
    identification tags the AUTO_TAG_DOCKING_RESULT classifier pushes; on
    the generic fallback's record it counts the fallback names as
    identified, so both the tags and the confidence differ. *)
Theorem C10_classifiers_disagree :
  tags (AutoTag.applyTags unidentified_sample)
    = ["very_weak_binder"; "tool_unknown"; "protein_unknown"; "ligand_unknown"]
  /\ tags (Workflow.applyTags unidentified_sample)
    = ["very_weak_binder"; "tool_unknown"]
  /\ tags (AutoTag.applyTags generic_sample)
    = ["weak_binder"; "tool_unknown"; "protein_unknown"; "ligand_unknown"]
  /\ tags (Workflow.applyTags generic_sample)
    = ["weak_binder"; "tool_unknown"; "protein_identified"; "ligand_identified"]
  /\ confidence (AutoTag.applyTags generic_sample) = Num (1 # 5)
  /\ confidence (Workflow.applyTags generic_sample) = Num (4 # 5).
Proof. vm_compute. repeat split. Qed.

(** Where the two classifiers agree: on every record whose protein and
    ligand are none of the sentinels (and, by
    [classifiers_disagree_otherwise] below, on no other record). *)
Lemma classifiers_agree_when_identified (data : ParsedDockingData) :
  identified ["UNKNOWN"; "GENERIC_PROTEIN"] (protein data) = true ->
  identified ["UNKNOWN"; "GENERIC_LIGAND"] (ligand data) = true ->
  Workflow.applyTags data = AutoTag.applyTags data.
Proof.
  unfold identified, existsb. rewrite !negb_true_iff, !orb_false_iff.
  intros (Hp & Hp' & _) (Hl & Hl' & _).
  unfold Workflow.applyTags, AutoTag.applyTags, AutoTag.calculateConfidence,
    AutoTag.energy_tag, AutoTag.differs.
  rewrite Hp, Hp', Hl, Hl'. simpl.
  destruct (JS.lt _ (Num (-10))); [reflexivity|].
  destruct (JS.lt _ (Num (-8))); [reflexivity|].
  destruct (JS.lt _ (Num (-6))); [reflexivity|].
  destruct (JS.lt _ (Num (-4))); reflexivity.
Qed.

(** On any other record the tag lists differ: the classifier of
    AUTO_TAG_DOCKING_RESULT has written [protein_unknown] or
    [ligand_unknown] where the workflow's has written something else or
    nothing. *)
Lemma classifiers_disagree_otherwise (data : ParsedDockingData) :
  identified ["UNKNOWN"; "GENERIC_PROTEIN"] (protein data)
    && identified ["UNKNOWN"; "GENERIC_LIGAND"] (ligand data) = false ->
  tags (Workflow.applyTags data) <> tags (AutoTag.applyTags data).
Proof.
  unfold identified, existsb.
  unfold Workflow.applyTags, AutoTag.applyTags, AutoTag.energy_tag,
    AutoTag.differs.
  cbn [tags].
  destruct (String.eqb (protein data) "UNKNOWN"),
           (String.eqb (protein data) "GENERIC_PROTEIN"),
           (String.eqb (ligand data) "UNKNOWN"),
           (String.eqb (ligand data) "GENERIC_LIGAND");
    cbn [negb andb orb app]; intro H; try discriminate H;
    (destruct (JS.lt _ (Num (-10))); [|destruct (JS.lt _ (Num (-8)));
      [|destruct (JS.lt _ (Num (-6))); [|destruct (JS.lt _ (Num (-4)))]]]);
    cbn [app]; intro E; discriminate E.
Qed.

(** The two classifiers return the same classified record exactly on the
    records whose protein and ligand are none of the sentinels. *)
Theorem classifiers_agree_iff (data : ParsedDockingData) :
  Workflow.applyTags data = AutoTag.applyTags data
  <-> identified ["UNKNOWN"; "GENERIC_PROTEIN"] (protein data)
        && identified ["UNKNOWN"; "GENERIC_LIGAND"] (ligand data) = true.
Proof.
  split.
  - intro H.
    destruct (identified _ (protein data) && identified _ (ligand data))
      eqn:E; [reflexivity|].
    exfalso. apply (classifiers_disagree_otherwise data E).
    rewrite H. reflexivity.
  - rewrite andb_true_iff. intros [Hp Hl].
    apply classifiers_agree_when_identified; assumption.
Qed.

(** ** Extraction *)

(** C2 (the code at the failing inputs). A submission that carries the
    Glide marker and no field is given a mock protein, a mock ligand and
    the energy -7.5, which the classifier then scores as a fully identified
    record; a submission of ten characters or more with no marker is given
    the energy -6.0. *)
Theorem C2_unlocated_fields_get_mock_values :
  ParseDockingFile.parseDockingContent "Glide"
    = Some (mkParsed "MOCK_PROTEIN" "MOCK_LIGAND" (Num (-7.5)) "Glide"
                     (Crypto.sha256_hex "Glide"))
  /\ ParseDockingFile.parseDockingContent "hello world"
    = Some (mkParsed "GENERIC_PROTEIN" "GENERIC_LIGAND" (Num (-6.0))
                     "Unknown" (Crypto.sha256_hex "hello world"))
  /\ (forall d,
        ParseDockingFile.parseDockingContent "Glide" = Some d ->
        tags (AutoTag.applyTags d)
          = ["moderate_binder"; "tool_glide"; "protein_identified";
             "ligand_identified"]
        /\ confidence (AutoTag.applyTags d) = Num 1).
Proof.
  split; [vm_compute; reflexivity|].
  split; [vm_compute; reflexivity|].
  intros d H. vm_compute in H. injection H as <-.
  vm_compute. split; reflexivity.
Qed.

(** The rulesets of the two open-source tools do use the sentinels: a field
    their patterns do not locate is UNKNOWN, an energy they do not locate
    is 0. *)
Lemma vina_gold_sentinels :
  ParseDockingFile.parseDockingContent "VINA RESULT"
    = Some (mkParsed "UNKNOWN" "UNKNOWN" (Num 0) "AutoDock Vina"
                     (Crypto.sha256_hex "VINA RESULT"))
  /\ ParseDockingFile.parseDockingContent "Gold Score"
    = Some (mkParsed "UNKNOWN" "UNKNOWN" (Num 0) "GOLD"
                     (Crypto.sha256_hex "Gold Score")).
Proof. split; vm_compute; reflexivity. Qed.

(** C6 (as stated, refuted). The four characters GOLD are shorter than ten
    and are accepted: the GOLD ruleset returns a record of sentinels. *)
Lemma C6_short_input_with_marker_accepted :
  (JS.length "GOLD" < 10)%nat
  /\ ParseDockingFile.parseDockingContent "GOLD"
     = Some (mkParsed "UNKNOWN" "UNKNOWN" (Num 0) "GOLD"
                      (Crypto.sha256_hex "GOLD"))
  /\ success (fst (ParseDockingFile.handler "GOLD")) = true.
Proof. split; [simpl; lia|]. split; vm_compute; reflexivity. Qed.

(** C6 (amended). Extraction fails exactly when the input holds none of the
    tool markers and is shorter than ten code units; the handler then
    reports PARSE_FAILED and returns no data.  Every other input is
    accepted.  An input that holds a marker is parsed, whatever its
    length, by the ruleset of the first tool, in the order AutoDock Vina,
    GOLD, Glide, one of whose markers it holds: the record is the one that
    ruleset gives for the input and its digest, it names that tool, and
    the handler returns it.  An input without marker of ten code units or
    more gets the record of the generic fallback.  The action writes to
    no store. *)
Theorem C6_parse_fails_iff_short_and_unmarked :
  forall (content : string) (w : World),
    let out := ParseDockingFile.parseDockingContent content in
    (out = None
     <-> has_marker content = false /\ (JS.length content < 10)%nat)
    /\ (out = None
        <-> ParseDockingFile.handler content
            = (mkActionResult
                 "Failed to parse docking file. Unsupported format or invalid data."
                 false (Some "PARSE_FAILED") None,
               [Progress "PARSE_DOCKING_FILE"]))
    /\ (out <> None
        <-> success (fst (ParseDockingFile.handler content)) = true)
    /\ match detected content with
       | Some t =>
           existsb (includes content) (markers_of t) = true
           /\ exists d,
                out = Some d
                /\ rules_of t content (Crypto.sha256_hex content) = Some d
                /\ docking_tool d = tool_of t
                /\ data (fst (ParseDockingFile.handler content)) = Some d
       | None =>
           has_marker content = false
           /\ ((10 <= JS.length content)%nat ->
               out = Some (mkParsed "GENERIC_PROTEIN" "GENERIC_LIGAND"
                                    (Num (-6.0)) "Unknown"
                                    (Crypto.sha256_hex content)))
       end
    /\ perform w (ParseFile content) = w.
Proof.
  intros content w out. subst out.
  unfold ParseDockingFile.handler.
  split; [|split; [|split; [|split; [|reflexivity]]]].
  - unfold ParseDockingFile.parseDockingContent, has_marker, tool_markers,
      existsb, ParseDockingFile.parseVinaFormat,
      ParseDockingFile.parseGoldFormat, ParseDockingFile.parseGlideFormat,
      ParseDockingFile.parseGenericFormat.
    destruct (includes content "AutoDock Vina"),
             (includes content "VINA RESULT"); simpl;
      try (split; [discriminate | intros [? _]; discriminate]).
    destruct (includes content "GOLD"), (includes content "Gold Score"); simpl;
      try (split; [discriminate | intros [? _]; discriminate]).
    destruct (includes content "Glide"), (includes content "GLIDE"); simpl;
      try (split; [discriminate | intros [? _]; discriminate]).
    destruct (JS.length content <? 10)%nat eqn:E.
    + apply Nat.ltb_lt in E. split; auto.
    + apply Nat.ltb_ge in E. split; [discriminate | intros [_ ?]; lia].
  - destruct (ParseDockingFile.parseDockingContent content);
      split; intro H; try reflexivity; discriminate.
  - destruct (ParseDockingFile.parseDockingContent content); simpl;
      split; intro H; try reflexivity; try discriminate; congruence.
  - unfold detected, has_marker, tool_markers,
      ParseDockingFile.parseDockingContent.
    cbn [find markers_of existsb].
    destruct (includes content "AutoDock Vina") eqn:V1;
      [marked|].
    destruct (includes content "VINA RESULT") eqn:V2;
      [marked|].
    destruct (includes content "GOLD") eqn:G1; [marked|].
    destruct (includes content "Gold Score") eqn:G2; [marked|].
    destruct (includes content "Glide") eqn:L1; [marked|].
    destruct (includes content "GLIDE") eqn:L2; [marked|].
    cbn [orb]. split; [reflexivity|]. intro H.
    unfold ParseDockingFile.parseGenericFormat.
    apply Nat.ltb_ge in H. rewrite H. reflexivity.
Qed.

(** The combined workflow rejects no submission: its extraction always
    returns a record, so even the empty text is tagged and stored. *)
Lemma workflow_accepts_everything (w : World) (message : Message)
    (now : string) :
  success (fst (fst (Workflow.handler w message now))) = true
  /\ List.length (array_of (snd (Workflow.handler w message now)))
     = S (List.length (array_of w)).
Proof.
  unfold Workflow.handler, Workflow.parseDockingContent, Workflow.append,
    Workflow.anchor.
  cbv zeta. cbn [fst snd heap dockingResults memories success].
  rewrite nth_error_app2, Nat.sub_diag by lia.
  cbn [nth_error fst snd success array_of dockingResults].
  split; [reflexivity|].
  fold (array_of w). rewrite length_app. simpl. lia.
Qed.

(** ** Stage order *)

Lemma AutoTag_upstream_none (options : option AutoTag.Options) :
  AutoTag.upstream options = None <->
  forall o, options = Some o ->
    AutoTag.parsedData o = None
    /\ forall c f r,
         AutoTag.context o = Some c ->
         AutoTag.getPreviousResult c = Some f ->
         f "PARSE_DOCKING_FILE" = Some r -> data r = None.
Proof.
  unfold AutoTag.upstream, orElse.
  destruct options as [o|].
  2: { split; [intros _ o' H; discriminate | reflexivity]. }
  split.
  - intros H o' Ho. injection Ho as <-.
    destruct (AutoTag.context o) as [c|] eqn:Ec.
    2: { split; [exact H | intros; discriminate]. }
    destruct (AutoTag.getPreviousResult c) as [f|] eqn:Ef.
    2: { split; [exact H | intros; congruence]. }
    destruct (f "PARSE_DOCKING_FILE") as [r|] eqn:Er.
    2: { split; [exact H | intros; congruence]. }
    destruct (data r) eqn:Ed; [discriminate|].
    split; [exact H | intros; congruence].
  - intro H. destruct (H o eq_refl) as [Hp Hc].
    destruct (AutoTag.context o) as [c|] eqn:Ec; [|exact Hp].
    destruct (AutoTag.getPreviousResult c) as [f|] eqn:Ef; [|exact Hp].
    destruct (f "PARSE_DOCKING_FILE") as [r|] eqn:Er; [|exact Hp].
    rewrite (Hc c f r eq_refl Ef Er). exact Hp.
Qed.

Lemma StoreMetadata_upstream_none (options : option StoreMetadata.Options) :
  StoreMetadata.upstream options = None <->
  forall o, options = Some o ->
    StoreMetadata.taggedData o = None
    /\ forall c f r,
         StoreMetadata.context o = Some c ->
         StoreMetadata.getPreviousResult c = Some f ->
         f "AUTO_TAG_DOCKING_RESULT" = Some r -> data r = None.
Proof.
  unfold StoreMetadata.upstream, orElse.
  destruct options as [o|].
  2: { split; [intros _ o' H; discriminate | reflexivity]. }
  split.
  - intros H o' Ho. injection Ho as <-.
    destruct (StoreMetadata.context o) as [c|] eqn:Ec.
    2: { split; [exact H | intros; discriminate]. }
    destruct (StoreMetadata.getPreviousResult c) as [f|] eqn:Ef.
    2: { split; [exact H | intros; congruence]. }
    destruct (f "AUTO_TAG_DOCKING_RESULT") as [r|] eqn:Er.
    2: { split; [exact H | intros; congruence]. }
    destruct (data r) eqn:Ed; [discriminate|].
    split; [exact H | intros; congruence].
  - intro H. destruct (H o eq_refl) as [Hp Hc].
    destruct (StoreMetadata.context o) as [c|] eqn:Ec; [|exact Hp].
    destruct (StoreMetadata.getPreviousResult c) as [f|] eqn:Ef; [|exact Hp].
    destruct (f "AUTO_TAG_DOCKING_RESULT") as [r|] eqn:Er; [|exact Hp].
    rewrite (Hc c f r eq_refl Ef Er). exact Hp.
Qed.

(** C9. The tagging stage invoked with no extracted record (no previous
    PARSE_DOCKING_FILE result carrying data, no parsedData option) and the
    store stage invoked with no classified record each return a failure
    whose error is MISSING_PARSED_DATA, respectively MISSING_TAGGED_DATA,
    with no data; the tagging stage has no state, and the store stage
    leaves the state as it was. *)
Theorem C9_missing_upstream_data_rejected :
  forall (tagOptions : option AutoTag.Options)
         (storeOptions : option StoreMetadata.Options)
         (runtime : Runtime) (w : World) (message : Message)
         (now newId : string),
    AutoTag.upstream tagOptions = None ->
    StoreMetadata.upstream storeOptions = None ->
    AutoTag.handler tagOptions
      = (mkActionResult
           "No parsed docking data found. Please run PARSE_DOCKING_FILE first."
           false (Some "MISSING_PARSED_DATA") None,
         [Progress "AUTO_TAG_DOCKING_RESULT"])
    /\ StoreMetadata.handler runtime w message storeOptions now newId
      = (mkActionResult
           "No tagged docking data found. Please run AUTO_TAG_DOCKING_RESULT first."
           false (Some "MISSING_TAGGED_DATA") None,
         [Progress "STORE_METADATA"], w).
Proof.
  intros tagOptions storeOptions runtime w message now newId Ht Hs.
  unfold AutoTag.handler, StoreMetadata.handler.
  rewrite Ht, Hs. split; reflexivity.
Qed.

(** C9 at a concrete input: no options for the tagging stage; for the
    store stage a context that knows no previous result and no taggedData
    option. *)
Lemma C9_witness :
  AutoTag.handler None
    = (mkActionResult
         "No parsed docking data found. Please run PARSE_DOCKING_FILE first."
         false (Some "MISSING_PARSED_DATA") None,
       [Progress "AUTO_TAG_DOCKING_RESULT"])
  /\ StoreMetadata.handler unconfigured empty_world sample_message
       (Some (StoreMetadata.mkOptions
                (Some (StoreMetadata.mkContext (Some (fun _ => None)))) None))
       sample_now "id-1"
     = (mkActionResult
          "No tagged docking data found. Please run AUTO_TAG_DOCKING_RESULT first."
          false (Some "MISSING_TAGGED_DATA") None,
        [Progress "STORE_METADATA"], empty_world).
Proof.
  apply (C9_missing_upstream_data_rejected
           None
           (Some (StoreMetadata.mkOptions
                    (Some (StoreMetadata.mkContext (Some (fun _ => None))))
                    None))
           unconfigured empty_world sample_message sample_now "id-1");
    reflexivity.
Defined.

(** ** The ledger reference and the stored record *)

Lemma stored_by_handler_no_key (m : Memory) :
  stored_by_handler m -> Query.has_key "docking_result" (content m) = false.
Proof. intros [r ->]. reflexivity. Qed.

Lemma loadResults_of_stored (runtime : Runtime) (w : World) :
  Forall stored_by_handler (memories w) -> Query.loadResults runtime w = [].
Proof.
  intro H. unfold Query.loadResults, getMemories.
  rewrite (filter_none (fun m => Query.has_key "docking_result" (content m)));
    [reflexivity|].
  apply Forall_firstn, Forall_filter.
  eapply Forall_impl; [|exact H]. exact stored_by_handler_no_key.
Qed.

Lemma applyFilters_nil (filters : Query.QueryFilters) :
  Query.applyFilters filters [] = Some [].
Proof.
  unfold Query.applyFilters, Query.filter_if.
  repeat match goal with
  | |- context [if ?c then _ else _] => destruct c; simpl
  end; reflexivity.
Qed.

Lemma nothing_read_nothing_found (runtime : Runtime) (w : World)
    (filters : Query.QueryFilters) :
  Query.loadResults runtime w = [] ->
  Query.queryDatabase runtime w filters = [].
Proof.
  intro H. unfold Query.queryDatabase. rewrite H, applyFilters_nil.
  reflexivity.
Qed.

(** C7 (the code, with the ledger not configured). The anchor step returns
    no reference and the handler still succeeds and writes the record, with
    [solana_tx] null, to the memory table.  But the memory is written with
    the properties [type] and [data], and the query reads the property
    [docking_result]: over memories written by STORE_METADATA every query
    returns nothing. *)
Theorem C7_null_reference_stored_but_never_returned :
  forall (runtime : Runtime) (w : World) (message : Message)
         (options : option StoreMetadata.Options) (now newId : string)
         (taggedData : TaggedDockingData),
    falsy (getSetting runtime "SOLANA_RPC_URL")
      || falsy (getSetting runtime "SOLANA_PRIVATE_KEY") = true ->
    StoreMetadata.upstream options = Some taggedData ->
    Forall stored_by_handler (memories w) ->
    let record := mkResult taggedData now None in
    let outcome := StoreMetadata.handler runtime w message options now newId in
    StoreMetadata.createSolanaProof runtime record = None
    /\ success (fst (fst outcome)) = true
    /\ data (fst (fst outcome)) = Some record
    /\ memories (snd outcome)
       = memories w
         ++ [mkMemory newId (msg_entityId message) (msg_roomId message)
                      [("type", Str "docking_result"); ("data", Obj record)]]
    /\ forall (reader : Runtime) (filters : Query.QueryFilters),
         Query.queryDatabase reader (snd outcome) filters = [].
Proof.
  intros runtime w message options now newId taggedData Hcfg Hup Hw
    record outcome.
  assert (Hproof : StoreMetadata.createSolanaProof runtime record = None).
  { unfold StoreMetadata.createSolanaProof. rewrite Hcfg. reflexivity. }
  subst outcome. unfold StoreMetadata.handler. rewrite Hup.
  unfold StoreMetadata.storeInDatabase. simpl tagged. simpl timestamp.
  fold record. rewrite Hproof. simpl.
  repeat split; try reflexivity.
  intros reader filters. apply nothing_read_nothing_found.
  apply loadResults_of_stored.
  simpl. apply Forall_app. split; [exact Hw|].
  constructor; [|constructor]. exists record. reflexivity.
Qed.

(** C7 at a concrete input: the classified sample record, stored with the
    ledger not configured into the empty state. *)
Lemma C7_witness :
  let record := mkResult sample_tagged sample_now None in
  let outcome :=
    StoreMetadata.handler unconfigured empty_world sample_message
      sample_options sample_now "id-1" in
  StoreMetadata.createSolanaProof unconfigured record = None
  /\ success (fst (fst outcome)) = true
  /\ data (fst (fst outcome)) = Some record
  /\ memories (snd outcome)
     = memories empty_world
       ++ [mkMemory "id-1" (msg_entityId sample_message)
                    (msg_roomId sample_message)
                    [("type", Str "docking_result"); ("data", Obj record)]]
  /\ forall (reader : Runtime) (filters : Query.QueryFilters),
       Query.queryDatabase reader (snd outcome) filters = [].
Proof.
  apply (C7_null_reference_stored_but_never_returned
           unconfigured empty_world sample_message sample_options
           sample_now "id-1" sample_tagged).
  - reflexivity.
  - reflexivity.
  - simpl. constructor.
Defined.


(** ** The digest *)

(** The digest of STORE_METADATA reads the eight fields only. *)
Lemma metadataHash_fields (t : TaggedDockingData) (ts : string)
    (tx tx' : option string) :
  StoreMetadata.metadataHash (mkResult t ts tx)
  = StoreMetadata.metadataHash (mkResult t ts tx').
Proof. reflexivity. Qed.

(** On the STORE_METADATA path the round trip holds: the reference of the
    record the handler stores and returns is the one recomputed from the
    eight fields of that record. *)
Lemma store_digest_recomputable (runtime : Runtime) (w : World)
    (message : Message) (options : option StoreMetadata.Options)
    (now newId : string) (r : DockingResult) :
  falsy (getSetting runtime "SOLANA_RPC_URL")
    || falsy (getSetting runtime "SOLANA_PRIVATE_KEY") = false ->
  data (fst (fst (StoreMetadata.handler runtime w message options now newId)))
    = Some r ->
  solana_tx r
  = Some ("MOCK_" ++ substring0 16 (StoreMetadata.metadataHash r))%string.
Proof.
  intros Hcfg. unfold StoreMetadata.handler.
  destruct (StoreMetadata.upstream options) as [t|]; simpl; [|discriminate].
  unfold StoreMetadata.createSolanaProof. rewrite Hcfg.
  intro H. injection H as <-. reflexivity.
Qed.

Lemma length_append (a b : string) :
  String.length (a ++ b) = (String.length a + String.length b)%nat.
Proof. induction a as [|c a IH]; simpl; [|rewrite IH]; reflexivity. Qed.

(** For every record, what the workflow hashes is seventeen characters
    longer than what STORE_METADATA hashes for the record as stored: the
    two digests are taken of different texts. *)
Lemma workflow_hashes_another_text (t : TaggedDockingData) (ts : string)
    (tx : option string) :
  String.length (Workflow.stringify (mkResult t ts None))
  = (String.length (StoreMetadata.metadataString (mkResult t ts tx)) + 17)%nat.
Proof.
  unfold Workflow.stringify, StoreMetadata.metadataString, JSON.object.
  cbn [map JSON.join fst snd tagged parsed timestamp solana_tx
       json_nullable].
  rewrite !length_append. cbn [String.length].
  change (String.length (JSON.str "solana_tx")) with 11%nat. lia.
Qed.

(** The round trip at a concrete input: the sample record stored with the
    ledger configured. *)
Lemma store_digest_recomputable_witness :
  solana_tx
    (mkResult sample_tagged sample_now
       (StoreMetadata.createSolanaProof configured
          (mkResult sample_tagged sample_now None)))
  = Some ("MOCK_"
          ++ substring0 16
               (StoreMetadata.metadataHash
                  (mkResult sample_tagged sample_now
                     (StoreMetadata.createSolanaProof configured
                        (mkResult sample_tagged sample_now None)))))%string.
Proof.
  apply (store_digest_recomputable configured empty_world sample_message
           sample_options sample_now "id-1").
  - reflexivity.
  - reflexivity.
Defined.

(** C3 (the code at the failing input). In the combined workflow the
    digest behind the ledger reference is taken over the serialisation of
    the whole record as it stands at that moment: the properties in their
    order of creation ([file_hash] before [tags]) followed by
    [solana_tx: null].  The digest recomputed from the fixed field subset
    of the stored record is a different one. *)
Theorem C3_workflow_digest_differs_from_canonical :
  exists r : DockingResult,
    data (fst (fst (Workflow.handler empty_world sample_message sample_now)))
      = Some r
    /\ solana_tx r = Some "MOCK_3ed3c9ac9cb0588f"
    /\ Crypto.sha256_hex
         (Workflow.stringify (mkResult (tagged r) (timestamp r) None))
       = "3ed3c9ac9cb0588f8629fc457e4c97235abe63d32fdf0d7578876419797acb89"
    /\ StoreMetadata.metadataHash r
       = "068db3780ecf45b44bd7928ece8dbb7672297ac05de7fed1a88055dd10e4aee5".
Proof.
  eexists. split; [vm_compute; reflexivity|].
  repeat split; vm_compute; reflexivity.
Qed.

(** ** The stores are append-only *)

(** What one workflow invocation does to the array, in its two steps. *)
Lemma workflow_steps (w : World) (t : TaggedDockingData) (now : string) :
  well_formed w ->
  let r1 := mkResult t now None in
  let r2 := mkResult t now (Some (Workflow.mockTxId r1)) in
  let w1 := snd (Workflow.append w t now) in
  let w2 := Workflow.anchor w1 (fst (Workflow.append w t now)) in
  stored w1 = stored w ++ [Some r1]
  /\ stored w2 = stored w ++ [Some r2]
  /\ memories w2 = memories w
  /\ well_formed w2.
Proof.
  intros Hw r1 r2 w1 w2.
  assert (Hnew : nth_error (heap w ++ [r1]) (List.length (heap w)) = Some r1).
  { rewrite nth_error_app2, Nat.sub_diag by lia. reflexivity. }
  assert (H1 : stored w1 = stored w ++ [Some r1]).
  { unfold stored, w1, Workflow.append, array_of; simpl.
    fold (array_of w). fold r1. rewrite map_app; simpl. rewrite Hnew.
    f_equal. apply map_nth_error_below; [exact Hw|].
    intros i Hi. apply nth_error_app1. exact Hi. }
  assert (H2 : heap w2
               = update (List.length (heap w))
                   (fun r => mkResult (tagged r) (timestamp r)
                                      (Some (Workflow.mockTxId r1)))
                   (heap w ++ [r1])
               /\ array_of w2 = array_of w ++ [List.length (heap w)]
               /\ memories w2 = memories w).
  { unfold w2, w1, Workflow.anchor, Workflow.append; simpl.
    fold r1. rewrite Hnew. simpl. fold (array_of w). repeat split. }
  destruct H2 as (Hh & Ha & Hm).
  split; [exact H1|]. split; [|split; [exact Hm|]].
  - unfold stored. rewrite Ha, Hh, map_app. simpl.
    rewrite nth_error_update_same, Hnew. simpl. f_equal.
    apply map_nth_error_below; [exact Hw|].
    intros i Hi. rewrite nth_error_update_other by lia.
    apply nth_error_app1. exact Hi.
  - unfold well_formed. rewrite Ha, Hh, update_length, length_app. simpl.
    apply Forall_app. split.
    + eapply Forall_impl; [|exact Hw]. simpl. intros; lia.
    + constructor; [lia | constructor].
Qed.

Lemma workflow_handler_world (w : World) (message : Message) (now : string) :
  exists parsed,
    Workflow.parseDockingContent (msg_text message) = Some parsed
    /\ snd (Workflow.handler w message now)
       = Workflow.anchor
           (snd (Workflow.append w (Workflow.applyTags parsed) now))
           (fst (Workflow.append w (Workflow.applyTags parsed) now)).
Proof.
  unfold Workflow.handler, Workflow.parseDockingContent.
  eexists. split; [reflexivity|]. reflexivity.
Qed.

Lemma perform_extends (w : World) (op : operation) :
  well_formed w ->
  well_formed (perform w op)
  /\ (exists g, stored (perform w op) = stored w ++ g)
  /\ (exists m, memories (perform w op) = memories w ++ m).
Proof.
  intro Hw.
  assert (Hsame : well_formed w
                  /\ (exists g, stored w = stored w ++ g)
                  /\ (exists m, memories w = memories w ++ m)).
  { split; [exact Hw|].
    split; exists []; rewrite app_nil_r; reflexivity. }
  destruct op as [text | options | runtime message options now newId
                  | runtime message | message now]; unfold perform;
    try exact Hsame.
  - unfold StoreMetadata.handler.
    destruct (StoreMetadata.upstream options) as [t|]; simpl; [|exact Hsame].
    split; [exact Hw|]. split; [exists []; rewrite app_nil_r; reflexivity|].
    eexists. reflexivity.
  - destruct (workflow_handler_world w message now) as (parsed & _ & ->).
    destruct (workflow_steps w (Workflow.applyTags parsed) now Hw)
      as (_ & H2 & Hm & Hwf).
    split; [exact Hwf|]. split; [eexists; exact H2|].
    exists []. rewrite app_nil_r. exact Hm.
Qed.

Lemma run_extends (ops : list operation) (w : World) :
  well_formed w ->
  well_formed (run w ops)
  /\ (exists g, stored (run w ops) = stored w ++ g)
  /\ (exists m, memories (run w ops) = memories w ++ m).
Proof.
  revert w. induction ops as [|op ops IH]; intros w Hw; simpl.
  - split; [exact Hw|]. split; exists []; rewrite app_nil_r; reflexivity.
  - destruct (perform_extends w op Hw) as (Hwf & [g Hg] & [m Hm]).
    destruct (IH _ Hwf) as (Hwf' & [g' Hg'] & [m' Hm']).
    split; [exact Hwf'|]. split.
    + exists (g ++ g'). rewrite Hg', Hg, app_assoc. reflexivity.
    + exists (m ++ m'). rewrite Hm', Hm, app_assoc. reflexivity.
Qed.

Lemma reachable_well_formed (ops : list operation) :
  well_formed (run empty_world ops).
Proof. apply run_extends. constructor. Qed.

(** C1 (as stated, refuted). In the combined workflow the record is pushed
    on the array with a null ledger reference, and the reference is
    assigned to that same object afterwards: the stored copy at the end of
    the invocation is not the one that was appended. *)
Lemma C1_ledger_reference_assigned_after_append :
  exists (t : TaggedDockingData) (appended final : DockingResult),
    option_map Workflow.applyTags
      (Workflow.parseDockingContent (msg_text sample_message)) = Some t
    /\ stored (snd (Workflow.append empty_world t sample_now))
       = [Some appended]
    /\ stored (perform empty_world (ProcessWorkflow sample_message sample_now))
       = [Some final]
    /\ solana_tx appended = None
    /\ solana_tx final = Some "MOCK_3ed3c9ac9cb0588f".
Proof.
  do 3 eexists. split; [vm_compute; reflexivity|].
  split; [vm_compute; reflexivity|].
  split; [vm_compute; reflexivity|].
  split; reflexivity.
Qed.

(** C1 (amended). In every state reached from the empty one:
    - any later operations leave the records of the array and the
      memories of the table in place and unchanged, adding at the end only;
    - a workflow invocation appends one record, with a null ledger
      reference, and before it returns assigns the reference to that
      record, whose other fields stay as appended; from then on the record
      is unchanged by every operation;
    - STORE_METADATA appends one memory, which carries the final record,
      ledger reference included. *)
Theorem C1_append_only_up_to_ledger_reference :
  forall (before later : list operation) (message : Message) (now : string),
    let w := run empty_world before in
    (exists g m,
        stored (run w later) = stored w ++ g
        /\ memories (run w later) = memories w ++ m)
    /\ (exists (t : TaggedDockingData),
          let appended := mkResult t now None in
          let final := mkResult t now (Some (Workflow.mockTxId appended)) in
          let done := perform w (ProcessWorkflow message now) in
          option_map Workflow.applyTags
            (Workflow.parseDockingContent (msg_text message)) = Some t
          /\ stored (snd (Workflow.append w t now))
             = stored w ++ [Some appended]
          /\ stored done = stored w ++ [Some final]
          /\ memories done = memories w
          /\ exists g, stored (run done later) = stored w ++ [Some final] ++ g)
    /\ (forall (runtime : Runtime) (options : option StoreMetadata.Options)
               (newId : string) (t : TaggedDockingData),
          StoreMetadata.upstream options = Some t ->
          let done := perform w (StoreRecord runtime message options now newId) in
          stored done = stored w
          /\ memories done
             = memories w
               ++ [mkMemory newId (msg_entityId message) (msg_roomId message)
                     [("type", Str "docking_result");
                      ("data",
                       Obj (mkResult t now
                              (StoreMetadata.createSolanaProof runtime
                                 (mkResult t now None))))]]
          /\ exists m,
               memories (run done later)
               = memories done ++ m).
Proof.
  intros before later message now w.
  pose proof (reachable_well_formed before) as Hw. fold w in Hw.
  split; [|split].
  - destruct (run_extends later w Hw) as (_ & [g Hg] & [m Hm]).
    exists g, m. split; assumption.
  - destruct (workflow_handler_world w message now) as (parsed & Hp & Hh).
    exists (Workflow.applyTags parsed).
    destruct (workflow_steps w (Workflow.applyTags parsed) now Hw)
      as (H1 & H2 & Hm & Hwf).
    unfold perform. rewrite Hh, Hp.
    split; [reflexivity|]. split; [exact H1|]. split; [exact H2|].
    split; [exact Hm|].
    destruct (run_extends later _ Hwf) as (_ & [g Hg] & _).
    exists g. rewrite Hg, H2, <- app_assoc. reflexivity.
  - intros runtime options newId t Hup done.
    assert (Hd : done
                 = createMemory w
                     (mkMemory newId (msg_entityId message) (msg_roomId message)
                        [("type", Str "docking_result");
                         ("data",
                          Obj (mkResult t now
                                 (StoreMetadata.createSolanaProof runtime
                                    (mkResult t now None))))])).
    { unfold done, perform, StoreMetadata.handler. rewrite Hup. reflexivity. }
    split; [rewrite Hd; reflexivity|]. split; [rewrite Hd; reflexivity|].
    assert (Hwf : well_formed done) by (rewrite Hd; exact Hw).
    destruct (run_extends later done Hwf) as (_ & _ & [m Hm]).
    exists m. exact Hm.
Qed.

(** ** Matching without regard to case *)

Lemma upper_char_idem (a : ascii) : upper_char (upper_char a) = upper_char a.
Proof. each_char a; reflexivity. Qed.

Lemma lower_upper_of_lower (a : ascii) :
  is_lower a = true -> lower_char (upper_char a) = a /\ lower_char a = a.
Proof. each_char a; intro H; try discriminate H; split; reflexivity. Qed.

Lemma upper_lower_of_upper (a : ascii) :
  is_upper a = true ->
  is_lower (lower_char a) = true /\ upper_char (lower_char a) = a.
Proof. each_char a; intro H; try discriminate H; split; reflexivity. Qed.

Lemma upper_char_fix (a : ascii) : is_lower a = false -> upper_char a = a.
Proof. unfold upper_char. intros ->. reflexivity. Qed.

Lemma lower_char_fix (a : ascii) : is_upper a = false -> lower_char a = a.
Proof. unfold lower_char. intros ->. reflexivity. Qed.

Lemma same_letter_upper (a b : ascii) :
  same_letter a b <-> upper_char a = upper_char b.
Proof.
  split.
  - intros [-> | [[_ ->] | [_ ->]]];
      [reflexivity | symmetry; apply upper_char_idem | apply upper_char_idem].
  - intro H. unfold same_letter.
    destruct (is_lower a) eqn:Ea, (is_lower b) eqn:Eb.
    + left. apply (f_equal lower_char) in H.
      rewrite (proj1 (lower_upper_of_lower a Ea)) in H.
      rewrite (proj1 (lower_upper_of_lower b Eb)) in H. exact H.
    + right; left. split; [reflexivity|].
      rewrite (upper_char_fix b Eb) in H. congruence.
    + right; right. split; [reflexivity|].
      rewrite (upper_char_fix a Ea) in H. exact H.
    + left. rewrite (upper_char_fix a Ea), (upper_char_fix b Eb) in H. exact H.
Qed.

Lemma same_letter_lower (a b : ascii) :
  same_letter a b <-> lower_char a = lower_char b.
Proof.
  split.
  - intros [-> | [[H ->] | [H ->]]]; [reflexivity| |].
    + destruct (lower_upper_of_lower a H) as [-> ->]. reflexivity.
    + destruct (lower_upper_of_lower b H) as [-> ->]. reflexivity.
  - intro H. unfold same_letter.
    destruct (is_upper a) eqn:Ea, (is_upper b) eqn:Eb.
    + left. apply (f_equal upper_char) in H.
      rewrite (proj2 (upper_lower_of_upper a Ea)) in H.
      rewrite (proj2 (upper_lower_of_upper b Eb)) in H. exact H.
    + right; right. rewrite (lower_char_fix b Eb) in H. subst b.
      destruct (upper_lower_of_upper a Ea) as [Hl Hu]. split; congruence.
    + right; left. rewrite (lower_char_fix a Ea) in H. subst a.
      destruct (upper_lower_of_upper b Eb) as [Hl Hu]. split; congruence.
    + left. rewrite (lower_char_fix a Ea), (lower_char_fix b Eb) in H. exact H.
Qed.

Section CaseFolding.

(** A case mapping under which two characters agree exactly when they
    are the same letter. *)
Variable fold_char : ascii -> ascii.
Hypothesis fold_char_same :
  forall a b, same_letter a b <-> fold_char a = fold_char b.

Lemma same_text_folded (s t : string) :
  same_text s t <-> map_string fold_char s = map_string fold_char t.
Proof.
  split.
  - induction 1 as [|a b s t Hab _ IH]; simpl; [reflexivity|].
    rewrite IH. apply fold_char_same in Hab. rewrite Hab. reflexivity.
  - revert t. induction s as [|a s IH]; intros [|b t] H; simpl in H;
      try discriminate H; [constructor|].
    injection H as Hc Hs. constructor; [apply fold_char_same, Hc | auto].
Qed.

Lemma map_string_app (s t : string) :
  map_string fold_char (s ++ t)
  = (map_string fold_char s ++ map_string fold_char t)%string.
Proof. induction s as [|a s IH]; simpl; [reflexivity|]. rewrite IH. reflexivity. Qed.

Lemma map_string_app_inv (u v s : string) :
  map_string fold_char s = (u ++ v)%string ->
  exists s1 s2,
    s = (s1 ++ s2)%string
    /\ map_string fold_char s1 = u /\ map_string fold_char s2 = v.
Proof.
  revert s. induction u as [|a u IH]; intros s H; simpl in H.
  - exists EmptyString, s. repeat split. exact H.
  - destruct s as [|b s]; simpl in H; [discriminate H|].
    injection H as Hc Hs. destruct (IH s Hs) as (s1 & s2 & -> & H1 & H2).
    exists (String b s1), s2. simpl. rewrite Hc, H1. repeat split. exact H2.
Qed.

End CaseFolding.

Lemma startsWith_spec (p s : string) :
  startsWith p s = true <-> exists post, s = (p ++ post)%string.
Proof.
  revert s. induction p as [|a p IH]; intros s; simpl.
  - split; [intros _; exists s; reflexivity | reflexivity].
  - destruct s as [|b s].
    + split; [discriminate | intros [post H]; discriminate H].
    + rewrite andb_true_iff, Ascii.eqb_eq, IH. split.
      * intros [-> [post ->]]. exists post. reflexivity.
      * intros [post H]. injection H as -> ->. split; [reflexivity|].
        exists post. reflexivity.
Qed.

Lemma includes_spec (s p : string) :
  includes s p = true <-> exists pre post, s = (pre ++ p ++ post)%string.
Proof.
  induction s as [|a s IH].
  - simpl. rewrite orb_false_r, startsWith_spec. split.
    + intros [post H]. exists EmptyString, post. exact H.
    + intros (pre & post & H). destruct pre as [|c pre]; [|discriminate H].
      exists post. exact H.
  - change (includes (String a s) p)
      with (startsWith p (String a s) || includes s p).
    rewrite orb_true_iff, startsWith_spec, IH. split.
    + intros [[post H] | (pre & post & H)].
      * exists EmptyString, post. exact H.
      * exists (String a pre), post. simpl. rewrite H. reflexivity.
    + intros (pre & post & H). destruct pre as [|c pre].
      * left. exists post. exact H.
      * right. injection H as _ H. exists pre, post. exact H.
Qed.

Lemma includes_folded (fold_char : ascii -> ascii) (hay needle : string) :
  (forall a b, same_letter a b <-> fold_char a = fold_char b) ->
  includes (map_string fold_char hay) (map_string fold_char needle) = true
  <-> ci_contains hay needle.
Proof.
  intro Hf. rewrite includes_spec. split.
  - intros (pre & post & H).
    destruct (map_string_app_inv fold_char _ _ _ H) as (h1 & h23 & -> & _ & H23).
    destruct (map_string_app_inv fold_char _ _ _ H23) as (h2 & h3 & -> & H2 & _).
    exists h1, h2, h3. split; [reflexivity|].
    apply (same_text_folded fold_char Hf). exact H2.
  - intros (pre & mid & post & -> & H).
    apply (same_text_folded fold_char Hf) in H.
    exists (map_string fold_char pre), (map_string fold_char post).
    rewrite !map_string_app, H. reflexivity.
Qed.

Lemma ci_contains_empty (hay : string) : ci_contains hay EmptyString.
Proof. exists EmptyString, EmptyString, hay. split; [reflexivity | constructor]. Qed.

(** ** Query evaluation *)

Lemma filter_or_throw_all {A : Type} (l : list A) :
  Query.filter_or_throw (fun _ => Some true) l = Some l.
Proof. induction l as [|x l IH]; simpl; [|rewrite IH]; reflexivity. Qed.

Lemma filter_or_throw_app {A : Type} (v : A -> option bool) (l l' : list A) :
  Query.filter_or_throw v (l ++ l')
  = both (Query.filter_or_throw v l) (Query.filter_or_throw v l').
Proof.
  induction l as [|x l IH]; simpl.
  - destruct (Query.filter_or_throw v l'); reflexivity.
  - rewrite IH. destruct (v x) as [[|]|]; [| |reflexivity];
      destruct (Query.filter_or_throw v l),
               (Query.filter_or_throw v l'); reflexivity.
Qed.

(** One more filter after the filters that went before, result by
    result. *)
Lemma filter_step (c : bool) (p v : value -> option bool) (l : list value) :
  Query.andThen (Query.filter_or_throw v l) (Query.filter_if c p)
  = Query.filter_or_throw (fun r => test_if c p r (v r)) l.
Proof.
  induction l as [|x l IH]; simpl.
  - destruct c; reflexivity.
  - rewrite <- IH. unfold test_if, Query.filter_if.
    destruct (v x) as [[|]|]; [| |reflexivity];
      destruct (Query.filter_or_throw v l) as [kept|]; simpl;
      destruct c; simpl; try reflexivity;
      try (destruct (p x) as [[|]|]; reflexivity);
      destruct (Query.filter_or_throw p kept); reflexivity.
Qed.

Lemma filter_steps (ts : list (bool * (value -> option bool)))
    (v : value -> option bool) (l : list value) :
  fold_left
    (fun results test =>
       Query.andThen results (Query.filter_if (fst test) (snd test)))
    ts (Query.filter_or_throw v l)
  = Query.filter_or_throw
      (fun r =>
         fold_left (fun kept test => test_if (fst test) (snd test) r kept)
                   ts (v r))
      l.
Proof.
  revert v. induction ts as [|t ts IH]; intro v; [reflexivity|].
  cbn [fold_left]. rewrite filter_step. apply IH.
Qed.

(** The filters of [applyFilters] are the six tests, in their order. *)
Lemma applyFilters_tests (f : Query.QueryFilters) (l : list value) :
  Query.applyFilters f l
  = fold_left
      (fun results test =>
         Query.andThen results (Query.filter_if (fst test) (snd test)))
      (tests f) (Some l).
Proof.
  unfold Query.applyFilters, tests.
  cbn [fold_left fst snd Query.andThen].
  repeat match goal with
  | |- context [Query.filter_if ?c ?p ?x] =>
      destruct (Query.filter_if c p x); cbn [Query.andThen]
  end; reflexivity.
Qed.

(** The filters treat each result on its own. *)
Lemma applyFilters_verdict (f : Query.QueryFilters) (l : list value) :
  Query.applyFilters f l = Query.filter_or_throw (verdict f) l.
Proof.
  rewrite applyFilters_tests. unfold verdict.
  rewrite <- (filter_or_throw_all l) at 1. apply filter_steps.
Qed.

Lemma test_if_record (c : bool) (t : DockingResult -> bool)
    (o : DockingResult) (b : bool) :
  test_if c (Query.on_record t) (Obj o) (Some b)
  = Some (b && implb c (t o)).
Proof. destruct b, c; simpl; try reflexivity; destruct (t o); reflexivity. Qed.

Lemma test_if_total (c : bool) (t : value -> bool) (r : value) (b : bool) :
  test_if c (fun r => Some (t r)) r (Some b) = Some (b && implb c (t r)).
Proof. destruct b, c; simpl; try reflexivity; destruct (t r); reflexivity. Qed.

(** On a record the verdict is that of the six tests. *)
Lemma verdict_record (f : Query.QueryFilters) (o : DockingResult) :
  verdict f (Obj o) = Some (passes f o).
Proof.
  unfold verdict, tests. cbn [fold_left fst snd].
  rewrite !test_if_record.
  rewrite (test_if_total _
             (fun r => JS.ge (Query.energy_of r)
                             (Query.the_number (Query.minEnergy f)))).
  rewrite (test_if_total _
             (fun r => JS.le (Query.energy_of r)
                             (Query.the_number (Query.maxEnergy f)))).
  rewrite !test_if_record. reflexivity.
Qed.

Lemma filter_or_throw_records (v : value -> option bool)
    (t : DockingResult -> bool) (records : list DockingResult) :
  (forall o, v (Obj o) = Some (t o)) ->
  Query.filter_or_throw v (map Obj records)
  = Some (map Obj (filter t records)).
Proof.
  intro H. induction records as [|o l IH]; simpl; [reflexivity|].
  rewrite H, IH. destruct (t o); reflexivity.
Qed.

(** On records no test throws, and the filters keep the records that pass
    the six tests. *)
Lemma applyFilters_records (f : Query.QueryFilters)
    (records : list DockingResult) :
  Query.applyFilters f (map Obj records)
  = Some (map Obj (filter (passes f) records)).
Proof.
  rewrite applyFilters_verdict.
  apply filter_or_throw_records. apply verdict_record.
Qed.

Lemma test_if_kept (c : bool) (p : value -> option bool) (r : value)
    (kept : option bool) :
  test_if c p r kept = Some true ->
  kept = Some true /\ (c = true -> p r = Some true).
Proof.
  unfold test_if. destruct kept as [[|]|]; try discriminate.
  destruct c; intro H; split; auto; discriminate.
Qed.

(** A result is kept only if every filter that applies keeps it. *)
Lemma verdict_kept (f : Query.QueryFilters) (r : value) :
  verdict f r = Some true ->
  Forall (fun t => fst t = true -> snd t r = Some true) (tests f).
Proof.
  unfold verdict. generalize (Some true) at 1 as kept.
  induction (tests f) as [|t ts IH] using rev_ind; intros kept H;
    [constructor|].
  rewrite fold_left_app in H. cbn [fold_left] in H.
  apply test_if_kept in H. destruct H as [H Ht].
  apply Forall_app. split; [exact (IH _ H)|].
  constructor; [exact Ht | constructor].
Qed.

Lemma filter_or_throw_kept {A : Type} (v : A -> option bool)
    (l kept : list A) :
  Query.filter_or_throw v l = Some kept ->
  Query.filter_or_throw v kept = Some kept
  /\ incl kept l
  /\ Forall (fun x => v x = Some true) kept.
Proof.
  revert kept. induction l as [|x l IH]; simpl; intros kept H.
  - injection H as <-. repeat split; [apply incl_refl | constructor].
  - destruct (v x) as [[|]|] eqn:Ex; try discriminate H;
      destruct (Query.filter_or_throw v l) as [k|]; try discriminate H;
      injection H as <-; destruct (IH k eq_refl) as (Hk & Hi & Ha).
    + simpl. rewrite Ex, Hk. repeat split.
      * intros y [<- | Hy]; [left; reflexivity | right; exact (Hi y Hy)].
      * constructor; assumption.
    + repeat split; [exact Hk | apply incl_tl; exact Hi | exact Ha].
Qed.

Lemma filter_or_throw_nothing {A : Type} (v : A -> option bool)
    (l : list A) :
  (forall x, v x = Some true -> False) ->
  Query.filter_or_throw v l = None \/ Query.filter_or_throw v l = Some [].
Proof.
  intro H. induction l as [|x l IH]; simpl; [right; reflexivity|].
  destruct (v x) as [[|]|] eqn:Ex; [exfalso; exact (H x Ex) | | left; reflexivity].
  destruct IH as [-> | ->]; [left | right]; reflexivity.
Qed.

(** What the query reads from a table that holds records the way it reads
    them. *)
Lemma loadResults_holds (runtime : Runtime) (w : World)
    (records : list DockingResult) :
  Forall2 (holds (agentId runtime)) (memories w) records ->
  (List.length records <= 100)%nat ->
  Query.loadResults runtime w = map Obj records.
Proof.
  intros H Hn. unfold Query.loadResults, getMemories.
  assert (Hl : List.length (memories w) = List.length records)
    by (eapply Forall2_length; exact H).
  assert (E : filter (fun m => String.eqb (roomId m) (agentId runtime))
                     (memories w) = memories w
              /\ filter (fun m => Query.has_key "docking_result" (content m))
                        (memories w) = memories w
              /\ Query.results_of (memories w) = map Obj records).
  { clear Hl Hn. induction H as [|m r ms rs (Hr & Hk & Hg) _ (I1 & I2 & I3)];
      [repeat split|].
    cbn [filter]. rewrite Hr, String.eqb_refl, Hk, I1, I2.
    repeat split. unfold Query.results_of in *. cbn [map filter].
    rewrite Hg, I3. reflexivity. }
  destruct E as (E1 & E2 & E3).
  rewrite E1, firstn_all2 by lia. rewrite E2. exact E3.
Qed.

Lemma string_filter_matches (o : option string) (hay : string) :
  implb (negb (falsy o))
        (includes (toUpperCase hay) (toUpperCase (Query.the_string o))) = true
  <-> forall p, o = Some p -> ci_contains hay p.
Proof.
  destruct o as [[|c s]|]; simpl.
  - split; [intros _ p H; injection H as <-; apply ci_contains_empty
           | reflexivity].
  - change (includes (toUpperCase hay) (String (upper_char c) (toUpperCase s)))
      with (includes (toUpperCase hay) (toUpperCase (String c s))).
    unfold toUpperCase. rewrite (includes_folded upper_char _ _ same_letter_upper).
    split; [intros H p Hp; injection Hp as <-; exact H | auto].
  - split; [intros _ p H; discriminate H | reflexivity].
Qed.

Lemma tool_filter_matches (o : option string) (hay : string) :
  implb (negb (falsy o))
        (includes (toLowerCase hay) (toLowerCase (Query.the_string o))) = true
  <-> forall p, o = Some p -> ci_contains hay p.
Proof.
  destruct o as [[|c s]|]; simpl.
  - split; [intros _ p H; injection H as <-; apply ci_contains_empty
           | reflexivity].
  - change (includes (toLowerCase hay) (String (lower_char c) (toLowerCase s)))
      with (includes (toLowerCase hay) (toLowerCase (String c s))).
    unfold toLowerCase. rewrite (includes_folded lower_char _ _ same_letter_lower).
    split; [intros H p Hp; injection Hp as <-; exact H | auto].
  - split; [intros _ p H; discriminate H | reflexivity].
Qed.

Lemma bound_filter_matches (o : option number) (test : number -> bool) :
  implb (Query.is_some o) (test (Query.the_number o)) = true
  <-> forall b, o = Some b -> test b = true.
Proof.
  destruct o as [b|]; simpl.
  - split; [intros H b' Hb; injection Hb as <-; exact H | auto].
  - split; [intros _ b H; discriminate H | reflexivity].
Qed.

Lemma tag_filter_matches (o : option (list string)) (r : DockingResult) :
  o <> Some [] ->
  implb (Query.is_some o && (0 <? List.length (Query.the_tags o))%nat)
        (existsb (Query.has_tag r) (Query.the_tags o)) = true
  <-> forall ts, o = Some ts -> exists t, In t ts /\ In t (tags r).
Proof.
  intro Hne. destruct o as [[|t0 ts]|]; [congruence| |].
  - change (implb _ _) with (existsb (Query.has_tag r) (t0 :: ts)).
    rewrite existsb_exists. split.
    + intros (t & Hin & Ht) ts' Hts. injection Hts as <-.
      exists t. split; [exact Hin|].
      unfold Query.has_tag in Ht. apply existsb_exists in Ht.
      destruct Ht as (t' & Hin' & Heq). apply String.eqb_eq in Heq.
      subst t'. exact Hin'.
    + intro H. destruct (H _ eq_refl) as (t & Hin & Hr).
      exists t. split; [exact Hin|].
      unfold Query.has_tag. apply existsb_exists.
      exists t. split; [exact Hr | apply String.eqb_refl].
  - simpl. split; [intros _ ts H; discriminate H | reflexivity].
Qed.

Lemma passes_matches (f : Query.QueryFilters) (r : DockingResult) :
  Query.tags f <> Some [] ->
  passes f r = true <-> matches f r.
Proof.
  intro Hne. unfold passes, matches.
  rewrite !andb_true_iff.
  rewrite !string_filter_matches, tool_filter_matches.
  rewrite (bound_filter_matches _ (fun b => JS.ge (binding_energy r) b)).
  rewrite (bound_filter_matches _ (fun b => JS.le (binding_energy r) b)).
  rewrite (tag_filter_matches _ r Hne).
  tauto.
Qed.

(** The filters the handler builds hold no empty list of tags: the tag
    field is absent or holds at least one tag. *)
Lemma parseQueryFilters_tags (queryText : string) :
  Query.tags (Query.parseQueryFilters queryText) = None
  \/ exists t ts,
       Query.tags (Query.parseQueryFilters queryText) = Some (t :: ts).
Proof.
  unfold Query.parseQueryFilters. simpl Query.tags.
  destruct (includes _ "strong binder"), (includes _ "weak binder"),
    (includes _ "moderate binder"); simpl; eauto.
Qed.

Example query_example :
  Query.queryDatabase unconfigured query_world example_filter
  = [ Obj (record_of "1abc" "MOL123" (Num (-8.7)) "AutoDock Vina");
      Obj (record_of "1Abc" "MOL9" (Num (-7.0)) "Glide") ].
Proof. vm_compute. reflexivity. Qed.

(** The guard on the tag filter: an empty list of tags constrains
    nothing. *)
Example empty_tag_list_constrains_nothing :
  Query.queryDatabase unconfigured query_world
    (Query.mkFilters None None None None None (Some []))
  = Query.loadResults unconfigured query_world.
Proof. reflexivity. Qed.

(** ** When the actions apply *)

Lemma includes_lower_keyword (t k : string) :
  toLowerCase k = k ->
  includes (toLowerCase t) k = true <-> ci_contains t k.
Proof.
  intro Hk. rewrite <- Hk at 1. unfold toLowerCase.
  apply includes_folded. exact same_letter_lower.
Qed.

Lemma mentions_none (keywords : list string) : ~ mentions None keywords.
Proof. intros (t & k & H & _). discriminate H. Qed.

Lemma mentions_cons (t k : string) (keywords : list string) :
  mentions (Some t) (k :: keywords)
  <-> ci_contains t k \/ mentions (Some t) keywords.
Proof.
  split.
  - intros (t' & k' & Ht & [<- | Hin] & Hc); injection Ht as <-.
    + left. exact Hc.
    + right. exists t, k'. auto.
  - intros [Hc | (t' & k' & Ht & Hin & Hc)].
    + exists t, k. split; [reflexivity|]. split; [left; reflexivity | exact Hc].
    + injection Ht as <-. exists t, k'. split; [reflexivity|].
      split; [right; exact Hin | exact Hc].
Qed.

Lemma mentions_nil (t : string) : ~ mentions (Some t) [].
Proof. intros (t' & k & _ & [] & _). Qed.

Ltac keyword_cases :=
  repeat rewrite mentions_cons;
  repeat rewrite orb_true_iff;
  repeat rewrite includes_lower_keyword by reflexivity;
  pose proof mentions_nil; firstorder.

(** Each of the three guarded actions applies to a message exactly when
    its text mentions one of the action's keywords, in any mix of capitals
    and small letters; a message without text is refused. *)
Theorem validate_iff_keyword_mentioned :
  forall text : option string,
    (ParseDockingFile.validate text = true
     <-> mentions text ["parse"; "upload"; "docking"; "file"])
    /\ (Workflow.validate text = true
        <-> mentions text
              ["parse"; "process"; "upload"; "docking"; "receptor"; "ligand"])
    /\ (Query.validate text = true
        <-> mentions text
              ["query"; "search"; "find"; "show"; "get"; "retrieve"; "list"]).
Proof.
  intros [t|].
  - unfold ParseDockingFile.validate, Workflow.validate, Query.validate.
    split; [|split].
    + keyword_cases.
    + keyword_cases.
    + keyword_cases.
  - repeat split; intro H; try discriminate H;
      exfalso; exact (mentions_none _ H).
Qed.

(** ** More on the classifiers *)

(** The label of [getEnergyClassification] and the tag of [applyTags]
    name the same tier, whatever the number. *)
Theorem classification_names_the_tagged_tier :
  forall energy : number,
    exists t : tier,
      AutoTag.energy_tag energy = tier_tag t
      /\ AutoTag.getEnergyClassification energy = tier_label t.
Proof.
  intro energy. unfold AutoTag.energy_tag, AutoTag.getEnergyClassification.
  destruct (JS.lt energy (Num (-10))); [exists VeryStrong; split; reflexivity|].
  destruct (JS.lt energy (Num (-8))); [exists Strong; split; reflexivity|].
  destruct (JS.lt energy (Num (-6))); [exists Moderate; split; reflexivity|].
  destruct (JS.lt energy (Num (-4))); [exists Weak; split; reflexivity|].
  exists VeryWeak; split; reflexivity.
Qed.

Lemma tier_tag_inj (t t' : tier) : tier_tag t = tier_tag t' -> t = t'.
Proof. destruct t, t'; intro H; try reflexivity; discriminate H. Qed.

Lemma energy_tag_tier (q : Q) (t : tier) :
  AutoTag.energy_tag (Num q) = tier_tag t -> in_tier q t.
Proof.
  intro H. destruct (in_tier_total q) as [t' Ht'].
  rewrite (energy_tag_in_tier q t' Ht') in H.
  apply tier_tag_inj in H. subst t'. exact Ht'.
Qed.

(** Tagging is monotone: of two energies the lower one is never given the
    weaker tier. *)
Theorem energy_tag_monotone :
  forall (q q' : Q) (t t' : tier),
    q <= q' ->
    AutoTag.energy_tag (Num q) = tier_tag t ->
    AutoTag.energy_tag (Num q') = tier_tag t' ->
    (tier_rank t <= tier_rank t')%nat.
Proof.
  intros q q' t t' Hle H H'.
  apply energy_tag_tier in H. apply energy_tag_tier in H'.
  destruct t, t'; simpl in *; try lia; exfalso; lra.
Qed.

Lemma energy_tag_monotone_witness : (tier_rank Strong <= tier_rank Weak)%nat.
Proof.
  apply (energy_tag_monotone (-8.7) (-5) Strong Weak).
  - unfold Qle. simpl. lia.
  - reflexivity.
  - reflexivity.
Defined.

Lemma energy_tag_cases (energy : number) :
  exists t : tier, AutoTag.energy_tag energy = tier_tag t.
Proof.
  unfold AutoTag.energy_tag.
  destruct (JS.lt energy (Num (-10))); [exists VeryStrong; reflexivity|].
  destruct (JS.lt energy (Num (-8))); [exists Strong; reflexivity|].
  destruct (JS.lt energy (Num (-6))); [exists Moderate; reflexivity|].
  destruct (JS.lt energy (Num (-4))); [exists Weak; reflexivity|].
  exists VeryWeak; reflexivity.
Qed.

Lemma Workflow_tags_from_energy_tag (data : ParsedDockingData) :
  tags (Workflow.applyTags data)
  = [AutoTag.energy_tag (binding_energy data);
     AutoTag.tool_tag (docking_tool data)]
    ++ (if AutoTag.differs (protein data) "UNKNOWN"
        then ["protein_identified"] else [])
    ++ (if AutoTag.differs (ligand data) "UNKNOWN"
        then ["ligand_identified"] else []).
Proof.
  unfold Workflow.applyTags, AutoTag.energy_tag. cbn [tags].
  destruct (JS.lt _ (Num (-10))); [|destruct (JS.lt _ (Num (-8)));
    [|destruct (JS.lt _ (Num (-6))); [|destruct (JS.lt _ (Num (-4)))]]];
    destruct (AutoTag.differs (protein data) _);
    destruct (AutoTag.differs (ligand data) _); reflexivity.
Qed.

Ltac distinct_tags :=
  repeat (constructor;
          [cbn [In]; unfold AutoTag.tool_tag;
           intuition discriminate|]);
  constructor.

(** The tags of a classified record form an ordered set: no tag occurs
    twice, the tier tag comes first and the tool tag second.  The
    classifier of AUTO_TAG_DOCKING_RESULT always writes four tags, the
    workflow's from two to four. *)
Theorem tags_form_an_ordered_set :
  forall data : ParsedDockingData,
    let standalone := tags (AutoTag.applyTags data) in
    let workflow := tags (Workflow.applyTags data) in
    NoDup standalone
    /\ List.length standalone = 4%nat
    /\ NoDup workflow
    /\ (2 <= List.length workflow <= 4)%nat
    /\ firstn 2 standalone
       = [AutoTag.energy_tag (binding_energy data);
          AutoTag.tool_tag (docking_tool data)]
    /\ firstn 2 workflow = firstn 2 standalone.
Proof.
  intros data standalone workflow.
  subst standalone workflow.
  rewrite Workflow_tags_from_energy_tag.
  unfold AutoTag.applyTags. cbn [tags app].
  destruct (energy_tag_cases (binding_energy data)) as [t ->].
  destruct (AutoTag.differs (protein data) "UNKNOWN"),
           (AutoTag.differs (protein data) "GENERIC_PROTEIN"),
           (AutoTag.differs (ligand data) "UNKNOWN"),
           (AutoTag.differs (ligand data) "GENERIC_LIGAND");
    cbn [andb app List.length firstn];
    destruct t; cbn [tier_tag];
    (split; [distinct_tags|]); (split; [reflexivity|]);
    (split; [distinct_tags|]); (split; [lia|]); split; reflexivity.
Qed.

Lemma space_has_width (c : ascii) (s : string) :
  is_space c = true -> member_width white_space (String c s) = 1%nat.
Proof. each_char c; intro H; try discriminate H; reflexivity. Qed.

Lemma replace_spaces_from_chars (p : ascii -> bool) (b : bool) (n : nat)
    (s : string) :
  p "_"%char = true ->
  all_chars p s = true ->
  all_chars (fun c => negb (is_space c) && p c) (replace_spaces_from b n s)
  = true.
Proof.
  intros Hu. revert b n. induction s as [|c s IH]; intros b n H;
    [reflexivity|].
  cbn [all_chars] in H. apply andb_true_iff in H. destruct H as [Hc Hs].
  cbn [replace_spaces_from].
  destruct n as [|n]; [|apply IH; exact Hs].
  destruct (member_width white_space (String c s)) as [|k] eqn:E.
  - cbn [all_chars]. rewrite Hc, (IH _ _ Hs), !andb_true_r.
    destruct (is_space c) eqn:Ec; [|reflexivity].
    rewrite (space_has_width c s Ec) in E. discriminate E.
  - destruct b; [apply IH; exact Hs|].
    cbn [all_chars]. rewrite Hu, (IH _ _ Hs). reflexivity.
Qed.

Lemma startsWith_blunted (m s t : string) :
  all_chars (fun c => negb (Ascii.eqb c "_")) m = true ->
  blunted s t -> startsWith m t = true -> startsWith m s = true.
Proof.
  intros Hm H. revert m Hm.
  induction H as [s | s t | c s t H IH]; intros [|a m] Hm Hs;
    try reflexivity; try discriminate Hs.
  - cbn [all_chars startsWith] in *.
    apply andb_true_iff in Hm, Hs. destruct Hm as [Ha _], Hs as [Hs _].
    apply Ascii.eqb_eq in Hs. subst a. discriminate Ha.
  - cbn [all_chars startsWith] in *.
    apply andb_true_iff in Hm, Hs. destruct Hm as [_ Hm], Hs as [-> Hs].
    exact (IH m Hm Hs).
Qed.

Lemma member_width_blunted (cls : list string) (s t : string) :
  forallb (all_chars (fun c => negb (Ascii.eqb c "_"))) cls = true ->
  forallb (fun m => negb (String.eqb m EmptyString)) cls = true ->
  blunted s t ->
  member_width cls s = 0%nat -> member_width cls t = 0%nat.
Proof.
  intros Hu Hn H. induction cls as [|m cls IH]; [reflexivity|].
  cbn [forallb member_width] in *.
  apply andb_true_iff in Hu, Hn. destruct Hu as [Hm Hu], Hn as [Hm' Hn].
  destruct (startsWith m s) eqn:Es.
  - intro E. destruct m; [discriminate Hm' | discriminate E].
  - intro E. destruct (startsWith m t) eqn:Et.
    + rewrite (startsWith_blunted m s t Hm H Et) in Es. discriminate Es.
    + exact (IH Hu Hn E).
Qed.

Lemma replace_spaces_blunted (s : string) :
  blunted s (replace_spaces_from false 0 s).
Proof.
  induction s as [|c s IH]; [constructor|].
  cbn [replace_spaces_from].
  destruct (member_width white_space (String c s)); constructor. exact IH.
Qed.

Lemma replace_spaces_spaceless (b : bool) (n : nat) (s : string) :
  spaceless (replace_spaces_from b n s) = true.
Proof.
  revert b n. induction s as [|c s IH]; intros b n; [reflexivity|].
  cbn [replace_spaces_from].
  destruct n as [|n]; [|apply IH].
  destruct (member_width white_space (String c s)) as [|k] eqn:E.
  - cbn [spaceless]. rewrite IH, andb_true_r. apply Nat.eqb_eq.
    apply (member_width_blunted white_space (String c s));
      [reflexivity | reflexivity | | exact E].
    constructor. apply replace_spaces_blunted.
  - destruct b; [apply IH|].
    cbn [spaceless]. rewrite IH. reflexivity.
Qed.

Lemma toLowerCase_chars (s : string) :
  all_chars (fun c => negb (is_upper c)) (toLowerCase s) = true.
Proof.
  induction s as [|c s IH]; [reflexivity|].
  change (negb (is_upper (lower_char c))
          && all_chars (fun c => negb (is_upper c)) (toLowerCase s) = true).
  rewrite IH, andb_true_r.
  each_char c; reflexivity.
Qed.

(** The tool tag is the tool name in small letters with its white space
    normalised: whatever the name, the tag holds no capital letter and no
    white-space character, neither one of ASCII nor one of the
    white-space characters of several bytes. *)
Theorem tool_tag_normalised :
  forall docking_tool : string,
    all_chars (fun c => negb (is_space c) && negb (is_upper c))
              (AutoTag.tool_tag docking_tool) = true
    /\ spaceless (AutoTag.tool_tag docking_tool) = true.
Proof.
  intro docking_tool. unfold AutoTag.tool_tag.
  change ("tool_" ++ replace_spaces (toLowerCase docking_tool))%string
    with (String "t" (String "o" (String "o" (String "l" (String "_"
            (replace_spaces (toLowerCase docking_tool))))))).
  split.
  - cbn [all_chars].
    change (all_chars (fun c => negb (is_space c) && negb (is_upper c))
              (replace_spaces (toLowerCase docking_tool)) = true).
    unfold replace_spaces.
    apply (replace_spaces_from_chars (fun c => negb (is_upper c)));
      [reflexivity | apply toLowerCase_chars].
  - do 5 (cbn [spaceless];
          match goal with
          | |- (?w =? 0)%nat && _ = true =>
              change w with 0%nat; cbn [Nat.eqb andb]
          end).
    apply replace_spaces_spaceless.
Qed.

(** The confidence is 1 exactly when all four items of evidence are
    present, and 0 exactly when none is. *)
Theorem confidence_extremes :
  forall data : ParsedDockingData,
    let p := identified ["UNKNOWN"; "GENERIC_PROTEIN"] (protein data) in
    let l := identified ["UNKNOWN"; "GENERIC_LIGAND"] (ligand data) in
    let e := nonzero_negative (binding_energy data) in
    let t := identified ["Unknown"] (docking_tool data) in
    (strict_eq (AutoTag.calculateConfidence data) (Num 1) = p && l && e && t)
    /\ (strict_eq (AutoTag.calculateConfidence data) (Num 0)
        = negb (p || l || e || t)).
Proof.
  intro data. cbv zeta.
  unfold AutoTag.calculateConfidence, AutoTag.differs, identified, existsb.
  fold (nonzero_negative (binding_energy data)).
  bool_cases; split; reflexivity.
Qed.

(** ** What the patterns capture *)

Lemma run_le_length (p : ascii -> bool) (s : string) :
  (JS.run p s <= String.length s)%nat.
Proof.
  induction s as [|c s IH]; simpl; [lia|]. destruct (p c); lia.
Qed.

Lemma length_drop (n : nat) (s : string) :
  String.length (drop n s) = (String.length s - n)%nat.
Proof.
  revert s. induction n as [|n IH]; intros [|c s]; simpl; try reflexivity.
  apply IH.
Qed.

Lemma take_run_chars (p : ascii -> bool) (n : nat) (s : string) :
  (n <= JS.run p s)%nat -> all_chars p (take n s) = true.
Proof.
  revert s. induction n as [|n IH]; intros [|c s] H; simpl in *;
    try reflexivity; try lia.
  destruct (p c) eqn:E; [|lia]. simpl. apply IH. lia.
Qed.

Lemma take_run_word (p : ascii -> bool) (n : nat) (s : string) :
  (1 <= n <= JS.run p s)%nat -> word_of p (take n s) = true.
Proof.
  intros [H1 Hn]. unfold word_of. rewrite (take_run_chars p n s Hn).
  destruct n as [|n]; [lia|]. destruct s as [|c s]; [simpl in Hn; lia|].
  reflexivity.
Qed.

Lemma backtrack_eq {R : Type} (k : string -> option R) (s : string)
    (atleast n : nat) :
  backtrack k s atleast n
  = match k (drop n s) with
    | Some r => Some r
    | None =>
        match n with
        | O => None
        | S n' =>
            if (n' <? atleast)%nat then None else backtrack k s atleast n'
        end
    end.
Proof. destruct n; reflexivity. Qed.

Lemma backtrack_some {R : Type} (k : string -> option R) (s : string)
    (atleast n : nat) (x : R) :
  (atleast <= n)%nat ->
  backtrack k s atleast n = Some x ->
  exists j, (atleast <= j <= n)%nat /\ k (drop j s) = Some x.
Proof.
  induction n as [|n IH]; intros Hle H; rewrite backtrack_eq in H.
  - destruct (k (drop 0 s)) eqn:E; [|discriminate H].
    exists 0%nat. split; [lia | congruence].
  - destruct (k (drop (S n) s)) eqn:E.
    + exists (S n). split; [lia | congruence].
    + destruct (n <? atleast)%nat eqn:En; [discriminate H|].
      apply Nat.ltb_ge in En. destruct (IH En H) as (j & Hj & Hk).
      exists j. split; [lia | exact Hk].
Qed.

Lemma first_of_some {R : Type} (k : string -> option R) (l : list string)
    (x : R) :
  first_of k l = Some x -> exists rest, In rest l /\ k rest = Some x.
Proof.
  induction l as [|y l IH]; simpl; [discriminate|].
  destruct (k y) eqn:E.
  - intro H. exists y. split; [left; reflexivity | congruence].
  - intro H. destruct (IH H) as (rest & Hin & Hk).
    exists rest. split; [right; exact Hin | exact Hk].
Qed.

(** The capture handed to the continuation is the initial one or the text
    of a capture group. *)
Lemma exec_captures {R : Type} (P : string -> Prop) (Q : R -> Prop)
    (ic : bool) (r : regex) :
  captures P r ->
  forall (s : string) (cap : option string)
         (k : string -> option string -> option R) (x : R),
    (forall v, cap = Some v -> P v) ->
    (forall rest c, (forall v, c = Some v -> P v) -> k rest c = Some x -> Q x) ->
    exec ic r s cap k = Some x -> Q x.
Proof.
  induction r as [p | p atleast | cls atleast | r IH | r1 IH1 r2 IH2
                  | r1 IH1 r2 IH2];
    intros Hr s cap k x Hcap Hk H; cbn [exec] in H.
  - destruct (after_literal ic p s) as [rest|]; [|discriminate H].
    exact (Hk rest cap Hcap H).
  - destruct (JS.run p s <? atleast)%nat eqn:E; [discriminate H|].
    apply Nat.ltb_ge in E.
    destruct (backtrack_some _ _ _ _ _ E H) as (j & _ & Hj).
    exact (Hk _ cap Hcap Hj).
  - destruct (first_of_some _ _ _ H) as (rest & _ & Hrest).
    exact (Hk _ cap Hcap Hrest).
  - destruct r as [| p atleast | | | |]; simpl in Hr; try contradiction.
    cbn [exec] in H.
    destruct (JS.run p s <? atleast)%nat eqn:E; [discriminate H|].
    apply Nat.ltb_ge in E.
    destruct (backtrack_some _ _ _ _ _ E H) as (j & Hj & Hkj).
    refine (Hk _ _ _ Hkj). intros v Hv. injection Hv as <-.
    rewrite length_drop.
    pose proof (run_le_length p s).
    replace (String.length s - (String.length s - j))%nat with j by lia.
    apply Hr. exact Hj.
  - destruct Hr as [Hr1 Hr2].
    destruct (exec ic r1 s cap k) as [y|] eqn:E.
    + injection H as <-. exact (IH1 Hr1 s cap k y Hcap Hk E).
    + exact (IH2 Hr2 s cap k x Hcap Hk H).
  - destruct Hr as [Hr1 Hr2].
    refine (IH1 Hr1 s cap _ x Hcap _ H).
    intros rest c Hc Hx. exact (IH2 Hr2 rest c k x Hc Hk Hx).
Qed.

Lemma match1_captures (P : string -> Prop) (ic : bool) (r : regex)
    (s c : string) :
  captures P r -> match1 ic r s = Some c -> P c.
Proof.
  intros Hr. unfold match1.
  destruct (search ic r s) as [[v|]|] eqn:E; try discriminate.
  intro H. injection H as <-.
  revert E. induction s as [|a s IH]; simpl.
  - destruct (exec ic r EmptyString None (fun _ c => Some c)) as [y|] eqn:Ex;
      [|discriminate].
    intro H. injection H as ->.
    refine (exec_captures P (fun y => forall v, y = Some v -> P v) ic r Hr
              _ None _ _ _ _ Ex v eq_refl).
    + discriminate.
    + intros rest c' Hc Hy. injection Hy as <-. exact Hc.
  - destruct (exec ic r (String a s) None (fun _ c => Some c)) as [y|] eqn:Ex.
    + intro H. injection H as ->.
      refine (exec_captures P (fun y => forall v, y = Some v -> P v) ic r Hr
                _ None _ _ _ _ Ex v eq_refl).
      * discriminate.
      * intros rest c' Hc Hy. injection Hy as <-. exact Hc.
    + exact IH.
Qed.

Lemma labelled_word_captures (key : string) :
  captures (fun v => word_of is_word v = true)
           (ParseDockingFile.labelled_word key).
Proof.
  simpl. repeat split. intros s n H. apply take_run_word. exact H.
Qed.

Lemma remark_name_captures :
  captures (fun v => word_of is_word v = true) ParseDockingFile.remark_name.
Proof.
  simpl. repeat split. intros s n H. apply take_run_word. exact H.
Qed.

Lemma name_or_default (m : option string) (d : string) :
  (forall v, m = Some v -> word_of is_word v = true) ->
  word_of is_word d = true ->
  word_of is_word (ParseDockingFile.or_default m d) = true.
Proof. intros Hm Hd. destruct m as [v|]; simpl; auto. Qed.

Lemma orElse_some {A : Type} (P : A -> Prop) (a b : option A) :
  (forall v, a = Some v -> P v) ->
  (forall v, b = Some v -> P v) ->
  forall v, orElse a b = Some v -> P v.
Proof. intros Ha Hb v. destruct a; simpl; auto. Qed.

Ltac name_ok :=
  apply name_or_default; [|reflexivity];
  repeat (apply orElse_some);
  intros v Hv;
  first [ exact (match1_captures _ _ _ _ _ (labelled_word_captures _) Hv)
        | exact (match1_captures _ _ _ _ _ remark_name_captures Hv) ].

(** Whatever the text, the record an extraction returns names a protein
    and a ligand that are non-empty words (letters, digits, underscore:
    the name stops at the first other character), names one of the four
    tools, and carries the SHA-256 digest of the whole text. *)
Theorem extracted_record_shape :
  forall content : string,
    (forall d, ParseDockingFile.parseDockingContent content = Some d ->
               extracted_from content d)
    /\ (exists d, Workflow.parseDockingContent content = Some d
                  /\ extracted_from content d).
Proof.
  intro content. split.
  - intros d.
    unfold ParseDockingFile.parseDockingContent,
      ParseDockingFile.parseVinaFormat, ParseDockingFile.parseGoldFormat,
      ParseDockingFile.parseGlideFormat, ParseDockingFile.parseGenericFormat.
    destruct (includes content "AutoDock Vina" || includes content "VINA RESULT").
    { intro H. injection H as <-. unfold extracted_from. cbn [protein ligand docking_tool file_hash].
      split; [name_ok|]. split; [name_ok|]. split; [simpl; auto | reflexivity]. }
    destruct (includes content "GOLD" || includes content "Gold Score").
    { intro H. injection H as <-. unfold extracted_from. cbn [protein ligand docking_tool file_hash].
      split; [name_ok|]. split; [name_ok|]. split; [simpl; auto | reflexivity]. }
    destruct (includes content "Glide" || includes content "GLIDE").
    { intro H. injection H as <-. unfold extracted_from. cbn [protein ligand docking_tool file_hash].
      split; [name_ok|]. split; [name_ok|]. split; [simpl; auto | reflexivity]. }
    destruct (JS.length content <? 10)%nat; [discriminate|].
    intro H. injection H as <-. unfold extracted_from. simpl. auto 10.
  - unfold Workflow.parseDockingContent. eexists. split; [reflexivity|].
    unfold extracted_from. cbn [protein ligand docking_tool file_hash].
    split; [name_ok|]. split; [name_ok|]. split; [|reflexivity].
    destruct (includes content "Vina"); [simpl; auto|].
    destruct (includes content "GOLD"); [simpl; auto|].
    destruct (includes content "Glide"); simpl; auto.
Qed.

(** ** More on queries *)

Lemma upper_of_word (c : ascii) :
  is_word c = true -> capital_word_char (upper_char c) = true.
Proof. each_char c; intro H; try discriminate H; reflexivity. Qed.

Lemma toUpperCase_word (v : string) :
  word_of is_word v = true ->
  word_of capital_word_char (toUpperCase v) = true.
Proof.
  unfold word_of. destruct v as [|c v]; [discriminate|].
  cbn [String.eqb negb andb]. intro H.
  change (all_chars capital_word_char (toUpperCase (String c v)) = true).
  revert H. generalize (String c v). clear.
  induction s as [|c s IH]; [reflexivity|].
  cbn [all_chars]. rewrite andb_true_iff. intros [Hc Hs].
  change (capital_word_char (upper_char c)
          && all_chars capital_word_char (toUpperCase s) = true).
  rewrite (upper_of_word c Hc), (IH Hs). reflexivity.
Qed.

Lemma named_captures (key : string) :
  captures (fun v => word_of is_word v = true) (Query.named key).
Proof.
  simpl. repeat split. intros s n H. apply take_run_word. exact H.
Qed.

Lemma word_not_falsy (p : ascii -> bool) (v : string) :
  word_of p v = true -> falsy (Some v) = false.
Proof.
  unfold word_of, falsy. destruct (String.eqb v EmptyString); [discriminate|].
  reflexivity.
Qed.

(** Every field [parseQueryFilters] sets is one [queryDatabase] applies:
    a protein or ligand filter is a non-empty word in capitals, and the
    tool filter, when set, is one of the three tool names; none of them is
    the empty string, which the guards of [queryDatabase] would skip. *)
Theorem parsed_filter_fields_are_applied :
  forall queryText : string,
    let f := Query.parseQueryFilters queryText in
    (forall p, Query.protein f = Some p ->
               word_of capital_word_char p = true)
    /\ (forall l, Query.ligand f = Some l ->
                  word_of capital_word_char l = true)
    /\ In (Query.tool f) [None; Some "AutoDock Vina"; Some "GOLD"; Some "Glide"]
    /\ falsy (Query.protein f) = negb (Query.is_some (Query.protein f))
    /\ falsy (Query.ligand f) = negb (Query.is_some (Query.ligand f))
    /\ falsy (Query.tool f) = negb (Query.is_some (Query.tool f)).
Proof.
  intros queryText f.
  assert (Hname : forall key v,
             option_map toUpperCase
               (match1 true (Query.named key) (toLowerCase queryText)) = Some v ->
             word_of capital_word_char v = true).
  { intros key v H.
    destruct (match1 true (Query.named key) (toLowerCase queryText))
      as [c|] eqn:E; [|discriminate H].
    injection H as <-. apply toUpperCase_word.
    exact (match1_captures _ _ _ _ _ (named_captures key) E). }
  assert (Hp : forall p, Query.protein f = Some p ->
                         word_of capital_word_char p = true).
  { intros p H. exact (Hname "protein" p H). }
  assert (Hl : forall l, Query.ligand f = Some l ->
                         word_of capital_word_char l = true).
  { intros l H. exact (Hname "ligand" l H). }
  split; [exact Hp|]. split; [exact Hl|].
  split; [|split; [|split]].
  - subst f. unfold Query.parseQueryFilters. cbn [Query.tool].
    destruct (includes _ "vina"); [simpl; auto|].
    destruct (includes _ "gold"); [simpl; auto|].
    destruct (includes _ "glide"); simpl; auto.
  - destruct (Query.protein f) as [p|] eqn:E; [|reflexivity].
    rewrite (word_not_falsy _ p (Hp p eq_refl)). reflexivity.
  - destruct (Query.ligand f) as [l|] eqn:E; [|reflexivity].
    rewrite (word_not_falsy _ l (Hl l eq_refl)). reflexivity.
  - subst f. unfold Query.parseQueryFilters. cbn [Query.tool].
    destruct (includes _ "vina"); [reflexivity|].
    destruct (includes _ "gold"); [reflexivity|].
    destruct (includes _ "glide"); reflexivity.
Qed.

(** An energy bound that is not a number matches nothing: a query such as
    [below -], whose bound holds no digit, returns no record whatever the
    store holds. *)
Theorem NaN_bound_matches_nothing :
  forall (runtime : Runtime) (w : World) (f : Query.QueryFilters),
    Query.minEnergy f = Some NaN \/ Query.maxEnergy f = Some NaN ->
    Query.queryDatabase runtime w f = [].
Proof.
  intros runtime w f H. unfold Query.queryDatabase.
  rewrite applyFilters_verdict.
  assert (Hv : forall r, verdict f r = Some true -> False).
  { intros r Hr. apply verdict_kept in Hr. unfold tests in Hr.
    pose proof (Forall_inv (Forall_inv_tail (Forall_inv_tail Hr))) as Hmin.
    pose proof (Forall_inv (Forall_inv_tail (Forall_inv_tail
                  (Forall_inv_tail Hr)))) as Hmax.
    cbn [fst snd] in Hmin, Hmax.
    destruct H as [H | H]; rewrite H in *;
      cbn [Query.the_number ParseDockingFile.or_default Query.is_some]
        in Hmin, Hmax;
      [specialize (Hmin eq_refl); injection Hmin as Hmin
      |specialize (Hmax eq_refl); injection Hmax as Hmax];
      destruct (Query.energy_of r); discriminate. }
  destruct (filter_or_throw_nothing (verdict f)
              (Query.loadResults runtime w) Hv) as [-> | ->]; reflexivity.
Qed.

Lemma NaN_bound_witness :
  Query.maxEnergy (Query.parseQueryFilters "energy below - 7") = Some NaN
  /\ Query.queryDatabase unconfigured query_world
       (Query.parseQueryFilters "energy below - 7") = [].
Proof.
  split; [reflexivity|].
  apply (NaN_bound_matches_nothing unconfigured query_world
           (Query.parseQueryFilters "energy below - 7")).
  right. reflexivity.
Defined.

(** Filter parsing ignores the case of the query: two texts that differ
    only in capitals give the same filter. *)
Theorem parseQueryFilters_ignores_case :
  forall q q' : string,
    same_text q q' ->
    Query.parseQueryFilters q = Query.parseQueryFilters q'.
Proof.
  intros q q' H.
  apply (same_text_folded lower_char same_letter_lower) in H.
  unfold Query.parseQueryFilters. fold (toLowerCase q). fold (toLowerCase q').
  unfold toLowerCase. rewrite H. reflexivity.
Qed.

Lemma parseQueryFilters_ignores_case_witness :
  Query.parseQueryFilters "Find Strong Binders BELOW -8 for Protein 1abc"
  = Query.parseQueryFilters "find strong binders below -8 for protein 1ABC".
Proof.
  apply (parseQueryFilters_ignores_case
           "Find Strong Binders BELOW -8 for Protein 1abc"
           "find strong binders below -8 for protein 1ABC").
  apply (same_text_folded lower_char same_letter_lower). reflexivity.
Defined.

(** Filtering composes: it treats each result on its own, so it
    distributes over the concatenation of two lists (it throws on the
    whole when it throws on a part), filtering what it returned again
    changes nothing, and it returns only results it was given.  On
    records it never throws and keeps those that pass the six tests. *)
Theorem applyFilters_composes :
  forall (f : Query.QueryFilters) (l l' : list value),
    Query.applyFilters f (l ++ l')
    = both (Query.applyFilters f l) (Query.applyFilters f l')
    /\ (forall kept,
          Query.applyFilters f l = Some kept ->
          Query.applyFilters f kept = Some kept /\ incl kept l)
    /\ (forall records : list DockingResult,
          Query.applyFilters f (map Obj records)
          = Some (map Obj (filter (passes f) records))).
Proof.
  intros f l l'. rewrite !applyFilters_verdict.
  split; [apply filter_or_throw_app|]. split.
  - intros kept H. rewrite applyFilters_verdict.
    destruct (filter_or_throw_kept _ _ _ H) as (Hk & Hi & _). auto.
  - apply applyFilters_records.
Qed.

Lemma filter_or_throw_throws {A : Type} (v : A -> option bool) (l : list A)
    (x : A) :
  In x l -> v x = None -> Query.filter_or_throw v l = None.
Proof.
  intros Hin Hx. induction l as [|y l IH]; [contradiction|].
  destruct Hin as [-> | Hin]; simpl.
  - rewrite Hx. reflexivity.
  - rewrite (IH Hin). destruct (v y); reflexivity.
Qed.

(** A value under [docking_result] that is no record breaks the query.
    A filter on the protein or on the ligand throws on it, and the query
    answers with nothing, whatever else the table holds; a query without
    any filter returns the value among its results, and the handler fails
    when it formats them. *)
Theorem other_values_break_the_query :
  forall (runtime : Runtime) (w : World) (s : string)
         (f : Query.QueryFilters) (query : Message) (typeError : string),
    In (Str s) (Query.loadResults runtime w) ->
    (negb (falsy (Query.protein f)) || negb (falsy (Query.ligand f)) = true ->
     Query.queryDatabase runtime w f = [])
    /\ (Query.parseQueryFilters (msg_text query) = no_filter ->
        Query.queryDatabase runtime w no_filter = Query.loadResults runtime w
        /\ Query.handler typeError runtime w query
           = (mkActionResult
                ("Failed to query docking data: " ++ typeError)%string
                false (Some typeError) None,
              [Progress "QUERY_DOCKING_DATA"])).
Proof.
  intros runtime w s f query typeError Hin. split.
  - intro Hf. unfold Query.queryDatabase.
    rewrite applyFilters_verdict.
    rewrite (filter_or_throw_throws _ _ (Str s) Hin); [reflexivity|].
    unfold verdict, tests. cbn [fold_left fst snd].
    destruct (negb (falsy (Query.protein f)));
      [reflexivity|].
    destruct (negb (falsy (Query.ligand f))); [reflexivity|].
    discriminate Hf.
  - intro Hq.
    assert (Hall : Query.queryDatabase runtime w no_filter
                   = Query.loadResults runtime w) by reflexivity.
    split; [exact Hall|].
    unfold Query.handler. cbv zeta. rewrite Hq, Hall.
    destruct (Query.loadResults runtime w) as [|x l] eqn:E;
      [contradiction|].
    cbn [List.length Nat.eqb]. unfold Query.formatResults.
    rewrite (filter_or_throw_throws _ _ (Str s) Hin); reflexivity.
Qed.

Lemma other_values_break_the_query_witness :
  Query.queryDatabase unconfigured mixed_world example_filter = []
  /\ Query.handler "TypeError" unconfigured mixed_world
       (mkMessage "show everything" "user" "room")
     = (mkActionResult "Failed to query docking data: TypeError"
                       false (Some "TypeError") None,
        [Progress "QUERY_DOCKING_DATA"]).
Proof.
  destruct (other_values_break_the_query unconfigured mixed_world "1ABC"
              example_filter (mkMessage "show everything" "user" "room")
              "TypeError") as [H1 H2].
  - vm_compute. do 4 right. left. reflexivity.
  - split; [apply H1; reflexivity|].
    apply H2. vm_compute. reflexivity.
Defined.

Lemma search_some (ic : bool) (r : regex) (s : string)
    (x : option string) :
  search ic r s = Some x ->
  exists pre t,
    s = (pre ++ t)%string
    /\ exec ic r t None (fun _ c => Some c) = Some x.
Proof.
  induction s as [|a s IH]; simpl.
  - destruct (exec ic r EmptyString None (fun _ c => Some c)) as [y|] eqn:E;
      [|discriminate].
    intro H. injection H as ->. exists EmptyString, EmptyString. auto.
  - destruct (exec ic r (String a s) None (fun _ c => Some c)) as [y|] eqn:E.
    + intro H. injection H as ->. exists EmptyString, (String a s). auto.
    + intro H. destruct (IH H) as (pre & t & -> & Ht).
      exists (String a pre), t. auto.
Qed.

Lemma all_chars_app (p : ascii -> bool) (s t : string) :
  all_chars p (s ++ t) = all_chars p s && all_chars p t.
Proof.
  induction s as [|c s IH]; simpl; [reflexivity|].
  rewrite IH, andb_assoc. reflexivity.
Qed.

Lemma same_char_small (ic : bool) (a b : ascii) :
  is_upper a = false -> is_upper b = false ->
  same_char ic a b = true -> a = b.
Proof.
  intros Ha Hb. unfold same_char. destruct ic; rewrite Ascii.eqb_eq; [|auto].
  intro H. apply same_letter_upper in H.
  destruct H as [H | [[Hl ->] | [Hl ->]]]; [exact H | |]; exfalso.
  - revert Hl Hb. clear. each_char a; intros H H'; discriminate.
  - revert Hl Ha. clear. each_char b; intros H H'; discriminate.
Qed.

(** On text without capitals a literal without capitals matches only
    itself, with or without the [i] flag. *)
Lemma after_literal_small (ic : bool) (p t rest : string) :
  all_chars (fun c => negb (is_upper c)) p = true ->
  all_chars (fun c => negb (is_upper c)) t = true ->
  after_literal ic p t = Some rest -> startsWith p t = true.
Proof.
  revert t. induction p as [|a p IH]; intros [|b t] Hp Ht H; simpl in *;
    try reflexivity; try discriminate.
  apply andb_true_iff in Hp. destruct Hp as [Ha Hp].
  apply andb_true_iff in Ht. destruct Ht as [Hb Ht].
  apply negb_true_iff in Ha. apply negb_true_iff in Hb.
  destruct (same_char ic a b) eqn:E; [|discriminate H].
  rewrite (same_char_small ic a b Ha Hb E), Ascii.eqb_refl.
  simpl. exact (IH t Hp Ht H).
Qed.

Lemma includes_suffix (pre t p : string) :
  startsWith p t = true -> includes (pre ++ t) p = true.
Proof.
  intro H. apply startsWith_spec in H. destruct H as [post ->].
  apply includes_spec. exists pre, post. reflexivity.
Qed.

(** A pattern that opens with a literal matches only where the literal
    stands; one that opens with a choice of two literals only where one of
    them stands. *)
Lemma match1_literal (ic : bool) (p : string) (r : regex) (s c : string) :
  all_chars (fun c => negb (is_upper c)) p = true ->
  all_chars (fun c => negb (is_upper c)) s = true ->
  match1 ic (Seq (Lit p) r) s = Some c -> includes s p = true.
Proof.
  intros Hp Hs. unfold match1.
  destruct (search ic (Seq (Lit p) r) s) as [x|] eqn:E; [|discriminate].
  intros _. destruct (search_some _ _ _ _ E) as (pre & t & -> & Ht).
  rewrite all_chars_app in Hs. apply andb_true_iff in Hs.
  simpl in Ht. destruct (after_literal ic p t) as [rest|] eqn:El;
    [|discriminate Ht].
  apply includes_suffix. exact (after_literal_small ic p t rest Hp (proj2 Hs) El).
Qed.

Lemma match1_either_literal (ic : bool) (p p' : string) (r : regex)
    (s c : string) :
  all_chars (fun c => negb (is_upper c)) p = true ->
  all_chars (fun c => negb (is_upper c)) p' = true ->
  all_chars (fun c => negb (is_upper c)) s = true ->
  match1 ic (Seq (Alt (Lit p) (Lit p')) r) s = Some c ->
  includes s p = true \/ includes s p' = true.
Proof.
  intros Hp Hp' Hs. unfold match1.
  destruct (search ic (Seq (Alt (Lit p) (Lit p')) r) s) as [x|] eqn:E;
    [|discriminate].
  intros _. destruct (search_some _ _ _ _ E) as (pre & t & -> & Ht).
  rewrite all_chars_app in Hs. apply andb_true_iff in Hs.
  simpl in Ht.
  destruct (after_literal ic p t) as [rest|] eqn:El.
  - left. apply includes_suffix.
    exact (after_literal_small ic p t rest Hp (proj2 Hs) El).
  - destruct (after_literal ic p' t) as [rest|] eqn:El'; [|discriminate Ht].
    right. apply includes_suffix.
    exact (after_literal_small ic p' t rest Hp' (proj2 Hs) El').
Qed.

Lemma no_match_without_literal (ic : bool) (p : string) (r : regex)
    (s : string) :
  all_chars (fun c => negb (is_upper c)) p = true ->
  all_chars (fun c => negb (is_upper c)) s = true ->
  includes s p = false ->
  match1 ic (Seq (Lit p) r) s = None.
Proof.
  intros Hp Hs H. destruct (match1 ic (Seq (Lit p) r) s) as [c|] eqn:E;
    [|reflexivity].
  rewrite (match1_literal ic p r s c Hp Hs E) in H. discriminate H.
Qed.

Lemma no_match_without_either (ic : bool) (p p' : string) (r : regex)
    (s : string) :
  all_chars (fun c => negb (is_upper c)) p = true ->
  all_chars (fun c => negb (is_upper c)) p' = true ->
  all_chars (fun c => negb (is_upper c)) s = true ->
  includes s p = false -> includes s p' = false ->
  match1 ic (Seq (Alt (Lit p) (Lit p')) r) s = None.
Proof.
  intros Hp Hp' Hs H H'.
  destruct (match1 ic (Seq (Alt (Lit p) (Lit p')) r) s) as [c|] eqn:E;
    [|reflexivity].
  destruct (match1_either_literal ic p p' r s c Hp Hp' Hs E) as [F | F];
    [rewrite F in H; discriminate H | rewrite F in H'; discriminate H'].
Qed.

(** A query that holds none of the words and signs the parser looks for
    gives the filter that constrains nothing, and is answered with every
    record the query reads. *)
Theorem unrecognised_query_returns_everything :
  forall (queryText : string) (runtime : Runtime) (w : World),
    existsb (includes (toLowerCase queryText)) query_keywords = false ->
    Query.parseQueryFilters queryText = no_filter
    /\ Query.queryDatabase runtime w (Query.parseQueryFilters queryText)
       = Query.loadResults runtime w.
Proof.
  intros queryText runtime w H.
  assert (Hf : Query.parseQueryFilters queryText = no_filter).
  { unfold query_keywords, existsb in H.
    repeat (apply orb_false_iff in H; destruct H as [? H]).
    pose proof (toLowerCase_chars queryText) as Hs.
    unfold Query.parseQueryFilters, Query.named, Query.bound_after,
      Query.bound_either.
    cbn [seq].
    rewrite !no_match_without_literal by (reflexivity || assumption).
    rewrite !no_match_without_either by (reflexivity || assumption).
    repeat match goal with
    | Hk : includes _ _ = false |- _ => rewrite Hk; clear Hk
    end.
    reflexivity. }
  split; [exact Hf|]. rewrite Hf. reflexivity.
Qed.

Lemma unrecognised_query_witness :
  Query.parseQueryFilters "show all docking results" = no_filter
  /\ Query.queryDatabase unconfigured query_world
       (Query.parseQueryFilters "show all docking results")
     = Query.loadResults unconfigured query_world.
Proof.
  apply (unrecognised_query_returns_everything
           "show all docking results" unconfigured query_world).
  reflexivity.
Defined.

(** ** The form of digests and ledger references *)

Lemma compress_length (h block : list Z) :
  List.length h = 8%nat -> List.length (Crypto.compress h block) = 8%nat.
Proof.
  intro H. unfold Crypto.compress.
  rewrite length_map, length_combine, H. reflexivity.
Qed.

Lemma digest_length (msg : list Z) :
  List.length (Crypto.digest msg) = 8%nat.
Proof.
  unfold Crypto.digest.
  generalize (Crypto.blocks
                (List.length
                   (Crypto.words_of_bytes (List.length (Crypto.pad msg))
                      (Crypto.pad msg)))
                (Crypto.words_of_bytes (List.length (Crypto.pad msg))
                   (Crypto.pad msg))).
  intro bs.
  assert (H : List.length Crypto.H0 = 8%nat) by reflexivity.
  revert H. generalize Crypto.H0.
  induction bs as [|b bs IH]; intros h H; simpl; [exact H|].
  apply IH. apply compress_length. exact H.
Qed.

Lemma hex_digit_is_hex (d : Z) :
  (0 <= d < 16)%Z -> is_hex (Crypto.hex_digit d) = true.
Proof.
  intro H.
  assert (C : (d = 0 \/ d = 1 \/ d = 2 \/ d = 3 \/ d = 4 \/ d = 5 \/ d = 6
               \/ d = 7 \/ d = 8 \/ d = 9 \/ d = 10 \/ d = 11 \/ d = 12
               \/ d = 13 \/ d = 14 \/ d = 15)%Z) by lia.
  repeat (destruct C as [-> | C]; [reflexivity|]). subst d. reflexivity.
Qed.

Lemma hex_shape (n : nat) (x : Z) :
  String.length (Crypto.hex n x) = n
  /\ all_chars is_hex (Crypto.hex n x) = true.
Proof.
  induction n as [|n [IHl IHc]]; [split; reflexivity|].
  cbn [Crypto.hex String.length all_chars]. rewrite IHl, IHc.
  rewrite hex_digit_is_hex by (apply Z.mod_pos_bound; lia).
  split; reflexivity.
Qed.

Lemma sha256_hex_shape (s : string) :
  String.length (Crypto.sha256_hex s) = 64%nat
  /\ all_chars is_hex (Crypto.sha256_hex s) = true.
Proof.
  unfold Crypto.sha256_hex.
  pose proof (digest_length (Crypto.bytes_of_string s)) as H.
  destruct (Crypto.digest (Crypto.bytes_of_string s))
    as [|a [|b [|c [|d [|e [|f [|g [|h [|i l]]]]]]]]]; try discriminate H.
  cbn [fold_right].
  rewrite !length_append, !all_chars_app.
  rewrite !(proj1 (hex_shape 8 _)), !(proj2 (hex_shape 8 _)).
  split; reflexivity.
Qed.

Lemma take_shape (p : ascii -> bool) (n : nat) (s : string) :
  (n <= String.length s)%nat ->
  all_chars p s = true ->
  String.length (take n s) = n /\ all_chars p (take n s) = true.
Proof.
  revert s. induction n as [|n IH]; intros [|c s] Hn Hs; simpl in *;
    try (split; reflexivity); try lia.
  apply andb_true_iff in Hs. destruct Hs as [Hc Hs].
  destruct (IH s ltac:(lia) Hs) as [Hl Ha]. rewrite Hl, Hc, Ha.
  split; reflexivity.
Qed.

Lemma mock_reference (digest_text : string) :
  is_reference ("MOCK_" ++ substring0 16 (Crypto.sha256_hex digest_text))
  = true.
Proof.
  destruct (sha256_hex_shape digest_text) as [Hl Hc].
  destruct (take_shape is_hex 16 (Crypto.sha256_hex digest_text)
              ltac:(lia) Hc) as [Tl Tc].
  unfold is_reference, substring0.
  change (drop 5 ("MOCK_" ++ take 16 (Crypto.sha256_hex digest_text)))
    with (take 16 (Crypto.sha256_hex digest_text)).
  rewrite Tl, Tc. reflexivity.
Qed.

(** Every digest of the content is sixty-four hexadecimal digits, and
    every ledger reference either path produces is [MOCK_] followed by
    sixteen of them; [createSolanaProof] produces one exactly when both
    settings are present and not empty. *)
Theorem digests_and_references_are_well_formed :
  forall (content : string) (runtime : Runtime) (data result : DockingResult),
    String.length (Crypto.sha256_hex content) = 64%nat
    /\ all_chars is_hex (Crypto.sha256_hex content) = true
    /\ is_reference (Workflow.mockTxId result) = true
    /\ match StoreMetadata.createSolanaProof runtime data with
       | Some tx =>
           is_reference tx = true
           /\ falsy (getSetting runtime "SOLANA_RPC_URL") = false
           /\ falsy (getSetting runtime "SOLANA_PRIVATE_KEY") = false
       | None =>
           falsy (getSetting runtime "SOLANA_RPC_URL") = true
           \/ falsy (getSetting runtime "SOLANA_PRIVATE_KEY") = true
       end.
Proof.
  intros content runtime data result.
  destruct (sha256_hex_shape content) as [Hl Hc].
  split; [exact Hl|]. split; [exact Hc|].
  split; [apply mock_reference|].
  unfold StoreMetadata.createSolanaProof, StoreMetadata.metadataHash.
  destruct (falsy (getSetting runtime "SOLANA_RPC_URL")),
           (falsy (getSetting runtime "SOLANA_PRIVATE_KEY"));
    cbn [orb]; auto.
  split; [apply mock_reference | auto].
Qed.

(** ** The states the actions reach *)

Lemma update_last {A : Type} (f : A -> A) (l : list A) (x : A) :
  update (List.length l) f (l ++ [x]) = l ++ [f x].
Proof. induction l as [|y l IH]; simpl; [|rewrite IH]; reflexivity. Qed.

Lemma workflow_handler_state (w : World) (message : Message) (now : string) :
  exists t : TaggedDockingData,
    let final :=
      mkResult t now (Some (Workflow.mockTxId (mkResult t now None))) in
    snd (Workflow.handler w message now)
    = mkWorld (heap w ++ [final])
              (Some (array_of w ++ [List.length (heap w)]))
              (memories w).
Proof.
  destruct (workflow_handler_world w message now) as (parsed & _ & ->).
  exists (Workflow.applyTags parsed).
  unfold Workflow.anchor, Workflow.append.
  cbn [fst snd heap dockingResults memories].
  rewrite nth_error_app2, Nat.sub_diag by lia. cbn [nth_error].
  rewrite update_last. reflexivity.
Qed.

Lemma reached_perform (w : World) (op : operation) :
  reached w -> reached (perform w op).
Proof.
  intros (Ha & Hh & Hm).
  destruct op as [text | options | runtime message options now newId
                  | runtime message | message now]; unfold perform;
    try (repeat split; assumption).
  - unfold StoreMetadata.handler.
    destruct (StoreMetadata.upstream options) as [t|]; cbn [snd];
      [|repeat split; assumption].
    repeat split; try assumption. cbn [memories createMemory].
    apply Forall_app. split; [exact Hm|].
    constructor; [|constructor]. eexists. reflexivity.
  - destruct (workflow_handler_state w message now) as [t ->].
    unfold reached. cbn [heap memories array_of dockingResults].
    rewrite length_app. cbn [List.length]. rewrite Nat.add_1_r, seq_S, Ha.
    split; [reflexivity|]. split; [|exact Hm].
    apply Forall_app. split; [exact Hh|].
    constructor; [reflexivity | constructor].
Qed.

Lemma reached_run (ops : list operation) (w : World) :
  reached w -> reached (run w ops).
Proof.
  revert w. induction ops as [|op ops IH]; intros w H; simpl; [exact H|].
  apply IH. apply reached_perform. exact H.
Qed.

Lemma reached_empty : reached empty_world.
Proof. repeat split; constructor. Qed.

Lemma stored_of_seq (h : list DockingResult) :
  map (nth_error h) (List.seq 0 (List.length h)) = map Some h.
Proof.
  induction h as [|r h IH] using rev_ind; [reflexivity|].
  rewrite length_app. cbn [List.length]. rewrite Nat.add_1_r, seq_S.
  rewrite !map_app. cbn [map]. rewrite nth_error_app2, Nat.sub_diag by lia.
  cbn [nth_error]. f_equal.
  rewrite <- IH. apply map_ext_in. intros i Hi. apply in_seq in Hi.
  apply nth_error_app1. lia.
Qed.

(** In every state reached from the empty one, the array holds each record
    the workflow created exactly once, in the order of creation, and each
    of them carries a ledger reference: the one the workflow's recipe
    gives back from the record's own fields with the reference reset to
    null. *)
Theorem workflow_records_carry_their_reference :
  forall ops : list operation,
    let w := run empty_world ops in
    stored w = map Some (heap w)
    /\ Forall carries_own_reference (heap w)
    /\ Forall (fun r => exists tx, solana_tx r = Some tx
                                   /\ is_reference tx = true) (heap w).
Proof.
  intros ops w.
  destruct (reached_run ops empty_world reached_empty) as (Ha & Hh & _).
  fold w in Ha, Hh.
  split; [|split].
  - unfold stored. rewrite Ha. apply stored_of_seq.
  - exact Hh.
  - eapply Forall_impl; [|exact Hh].
    intros r Hr. eexists. split; [exact Hr | apply mock_reference].
Qed.

Lemma stored_records_app (w : World) (m : Memory) (r : DockingResult) :
  Query.get "data" (content m) = Obj r ->
  stored_records (createMemory w m) = stored_records w ++ [r].
Proof.
  intro H. unfold stored_records, createMemory. cbn [memories].
  rewrite flat_map_app. cbn [flat_map]. rewrite H. reflexivity.
Qed.

(** C8 (the code). The filters are the strict conjunction the claim
    describes: over a table that holds records the way the query reads
    them, under the property [docking_result] in the room of the reading
    agent, the query returns, in the order of the table, exactly the
    records that match the protein, the ligand and the tool by containment
    without regard to case, lie within the inclusive energy bounds and
    carry one of the requested tags.  But STORE_METADATA writes the record
    under the property [data]: in a state the actions reached, a record
    just stored that matches the filter is among the stored records the
    claim selects, and the query returns nothing and reports that no
    result was found.  (The filter is any filter without an empty list of
    tags; the filters the handler builds are such.) *)
Theorem C8_stored_matching_record_not_returned :
  forall (ops : list operation) (runtime reader : Runtime)
         (message query : Message) (options : option StoreMetadata.Options)
         (now newId typeError : string) (f : Query.QueryFilters)
         (r : DockingResult),
    let w := run empty_world ops in
    let outcome :=
      StoreMetadata.handler runtime w message options now newId in
    data (fst (fst outcome)) = Some r ->
    Query.tags f <> Some [] ->
    matches f r ->
    exists decide : DockingResult -> bool,
      (forall r', decide r' = true <-> matches f r')
      /\ In r (filter decide (stored_records (snd outcome)))
      /\ Query.queryDatabase reader (snd outcome) f = []
      /\ fst (Query.handler typeError reader (snd outcome) query)
         = mkActionResult "No results found" true None (Some [])
      /\ (forall (w' : World) (records : list DockingResult),
            Forall2 (holds (agentId reader)) (memories w') records ->
            (List.length records <= 100)%nat ->
            Query.queryDatabase reader w' f
            = map Obj (filter decide records)).
Proof.
  intros ops runtime reader message query options now newId typeError f r
    w outcome Hdata Hne Hr.
  exists (passes f).
  assert (Hp : forall r', passes f r' = true <-> matches f r')
    by (intro r'; apply passes_matches; exact Hne).
  split; [exact Hp|].
  destruct (reached_run ops empty_world reached_empty) as (_ & _ & Hm).
  fold w in Hm.
  assert (Hout : snd outcome
                 = createMemory w
                     (mkMemory newId (msg_entityId message)
                        (msg_roomId message)
                        [("type", Str "docking_result"); ("data", Obj r)])).
  { subst outcome. unfold StoreMetadata.handler in *.
    destruct (StoreMetadata.upstream options) as [t|]; [|discriminate Hdata].
    cbv zeta in *. cbn [fst snd data] in *. injection Hdata as <-.
    reflexivity. }
  rewrite Hout. clear Hout Hdata.
  assert (Hnone : forall f', Query.queryDatabase reader
                    (createMemory w
                       (mkMemory newId (msg_entityId message)
                          (msg_roomId message)
                          [("type", Str "docking_result"); ("data", Obj r)]))
                    f' = []).
  { intro f'. apply nothing_read_nothing_found, loadResults_of_stored.
    cbn [createMemory memories]. apply Forall_app. split; [exact Hm|].
    constructor; [|constructor]. exists r. reflexivity. }
  split; [|split; [|split]].
  - apply filter_In. split; [|apply Hp; exact Hr].
    rewrite stored_records_app with (r := r) by reflexivity.
    apply in_or_app. right. left. reflexivity.
  - apply Hnone.
  - unfold Query.handler. cbv zeta. rewrite Hnone. reflexivity.
  - intros w' records Hh Hn. unfold Query.queryDatabase.
    rewrite (loadResults_holds reader w' records Hh Hn).
    rewrite applyFilters_records. reflexivity.
Qed.

(** C8 at a concrete input: the classified sample record (1ABC, -8.7) is
    stored into the empty table, and an agent in the room of the record
    asks for protein 1ABC below -7.0. *)
Lemma C8_witness :
  let outcome :=
    StoreMetadata.handler unconfigured empty_world sample_message
      sample_options sample_now "id-1" in
  let reader := mkRuntime (fun _ => None) "room" in
  let query := mkMessage "find protein 1ABC below -7.0" "user" "room" in
  let f := Query.parseQueryFilters (msg_text query) in
  exists decide : DockingResult -> bool,
    (forall r', decide r' = true <-> matches f r')
    /\ In (mkResult sample_tagged sample_now None)
          (filter decide (stored_records (snd outcome)))
    /\ Query.queryDatabase reader (snd outcome) f = []
    /\ fst (Query.handler "TypeError" reader (snd outcome) query)
       = mkActionResult "No results found" true None (Some [])
    /\ (forall (w' : World) (records : list DockingResult),
          Forall2 (holds (agentId reader)) (memories w') records ->
          (List.length records <= 100)%nat ->
          Query.queryDatabase reader w' f
          = map Obj (filter decide records)).
Proof.
  intros outcome reader query f.
  apply (C8_stored_matching_record_not_returned
           [] unconfigured reader sample_message query sample_options
           sample_now "id-1" "TypeError" f
           (mkResult sample_tagged sample_now None)).
  - reflexivity.
  - vm_compute. discriminate.
  - apply passes_matches; [vm_compute; discriminate|].
    vm_compute. reflexivity.
Defined.

(** In every state reached from the empty one, whatever was stored, every
    query finds nothing: STORE_METADATA writes the record under [data]
    while the query reads [docking_result], and the workflow writes to the
    array, which the query does not read. *)
Theorem queries_find_nothing_in_reached_states :
  forall (ops : list operation) (runtime : Runtime) (message : Message)
         (f : Query.QueryFilters) (typeError : string),
    let w := run empty_world ops in
    Query.queryDatabase runtime w f = []
    /\ Query.handler typeError runtime w message
       = (mkActionResult "No results found" true None (Some []),
          [Progress "QUERY_DOCKING_DATA"; Report "QUERY_DOCKING_DATA"]).
Proof.
  intros ops runtime message f typeError w.
  destruct (reached_run ops empty_world reached_empty) as (_ & _ & Hm).
  fold w in Hm.
  assert (H : forall f', Query.queryDatabase runtime w f' = []).
  { intro f'. apply nothing_read_nothing_found.
    exact (loadResults_of_stored runtime w Hm). }
  split; [apply H|].
  unfold Query.handler. rewrite H. reflexivity.
Qed.

(** ** The three actions in a chain *)

(** Chained through the context, each action reading the result of the
    one before: when the extraction succeeds, the record stored is the
    classified extraction, stamped and anchored; when it fails, the
    tagging stage and the store stage fail in turn for want of upstream
    data, and nothing is stored. *)
Theorem chained_actions :
  forall (content : string) (runtime : Runtime) (w : World)
         (message : Message) (now newId : string),
    let parsed := fst (ParseDockingFile.handler content) in
    let classified := fst (AutoTag.handler (after_parse parsed)) in
    let outcome :=
      StoreMetadata.handler runtime w message (after_tag classified)
        now newId in
    match ParseDockingFile.parseDockingContent content with
    | Some d =>
        let record :=
          mkResult (AutoTag.applyTags d) now
            (StoreMetadata.createSolanaProof runtime
               (mkResult (AutoTag.applyTags d) now None)) in
        data parsed = Some d
        /\ data classified = Some (AutoTag.applyTags d)
        /\ data (fst (fst outcome)) = Some record
        /\ memories (snd outcome)
           = memories w
             ++ [mkMemory newId (msg_entityId message) (msg_roomId message)
                          [("type", Str "docking_result");
                           ("data", Obj record)]]
    | None =>
        error parsed = Some "PARSE_FAILED"
        /\ error classified = Some "MISSING_PARSED_DATA"
        /\ error (fst (fst outcome)) = Some "MISSING_TAGGED_DATA"
        /\ snd outcome = w
    end.
Proof.
  intros content runtime w message now newId.
  unfold ParseDockingFile.handler.
  destruct (ParseDockingFile.parseDockingContent content) as [d|];
    cbv zeta; repeat split.
Qed.

(** ** The two extractions compared *)

Lemma append_assoc3 (a b c : string) :
  ((a ++ b) ++ c = a ++ b ++ c)%string.
Proof. induction a as [|x a IH]; simpl; [|rewrite IH]; reflexivity. Qed.

Lemma includes_mono (s a b : string) :
  includes a b = true -> includes s a = true -> includes s b = true.
Proof.
  intros Hab Hsa.
  apply includes_spec in Hab. destruct Hab as (pre' & post' & ->).
  apply includes_spec in Hsa. destruct Hsa as (pre & post & ->).
  apply includes_spec. exists (pre ++ pre')%string, (post' ++ post)%string.
  rewrite !append_assoc3. reflexivity.
Qed.

(** The action and the workflow read the tool off different markers, yet
    they name the same tool whenever the text holds [AutoDock Vina], and
    whenever it holds none of the markers only one of them looks for; and
    on a report the action takes for AutoDock Vina's, both extract the
    same protein. *)
Theorem extractions_agree_on_the_tool :
  forall (content : string) (d d' : ParsedDockingData),
    ParseDockingFile.parseDockingContent content = Some d ->
    Workflow.parseDockingContent content = Some d' ->
    (includes content "AutoDock Vina" = true
     \/ existsb (includes content) one_sided_markers = false ->
     docking_tool d = docking_tool d')
    /\ (docking_tool d = "AutoDock Vina" -> protein d = protein d').
Proof.
  intros content d d' H H'.
  unfold Workflow.parseDockingContent in H'. cbv zeta in H'.
  injection H' as <-. cbn [docking_tool protein].
  unfold ParseDockingFile.parseDockingContent in H. cbv zeta in H.
  split.
  - intros [Hav | Hnone].
    + rewrite Hav in H. cbn [orb] in H.
      rewrite (includes_mono content "AutoDock Vina" "Vina" eq_refl Hav).
      injection H as <-. reflexivity.
    + unfold one_sided_markers in Hnone. cbn [existsb] in Hnone.
      repeat (apply orb_false_iff in Hnone; destruct Hnone as [? Hnone]).
      destruct (includes content "AutoDock Vina") eqn:Hav.
      { rewrite (includes_mono content "AutoDock Vina" "Vina" eq_refl Hav)
          in *. discriminate. }
      repeat match goal with
      | Hk : includes content _ = false |- _ =>
          rewrite Hk in *; clear Hk
      end.
      cbn [orb] in H.
      destruct (includes content "GOLD");
        [injection H as <-; reflexivity|].
      cbn [orb] in H. rewrite orb_false_r in H.
      destruct (includes content "Glide");
        [injection H as <-; reflexivity|].
      unfold ParseDockingFile.parseGenericFormat in H.
      destruct (JS.length content <? 10)%nat; [discriminate H|].
      injection H as <-. reflexivity.
  - intro Ht.
    destruct (includes content "AutoDock Vina" || includes content "VINA RESULT").
    { injection H as <-. reflexivity. }
    destruct (includes content "GOLD" || includes content "Gold Score").
    { injection H as <-. discriminate Ht. }
    destruct (includes content "Glide" || includes content "GLIDE").
    { injection H as <-. discriminate Ht. }
    unfold ParseDockingFile.parseGenericFormat in H.
    destruct (JS.length content <? 10)%nat; [discriminate H|].
    injection H as <-. discriminate Ht.
Qed.

Lemma extractions_agree_on_the_tool_witness :
  exists d d' : ParsedDockingData,
    ParseDockingFile.parseDockingContent "GOLD run, protein 1ABC" = Some d
    /\ Workflow.parseDockingContent "GOLD run, protein 1ABC" = Some d'
    /\ docking_tool d = docking_tool d'.
Proof.
  eexists. eexists. split; [reflexivity|]. split; [reflexivity|].
  apply (extractions_agree_on_the_tool "GOLD run, protein 1ABC" _ _
           eq_refl eq_refl).
  right. reflexivity.
Defined.

(** ** What a handler returns *)

Lemma workflow_handler_result (w : World) (message : Message) (now : string) :
  exists r : DockingResult,
    fst (Workflow.handler w message now)
    = (mkActionResult "Docking workflow completed successfully" true None
                      (Some r),
       [Progress "PROCESS_DOCKING_WORKFLOW";
        Progress "PROCESS_DOCKING_WORKFLOW";
        Progress "PROCESS_DOCKING_WORKFLOW";
        Report "PROCESS_DOCKING_WORKFLOW"]).
Proof.
  unfold Workflow.handler, Workflow.parseDockingContent. cbv zeta.
  unfold Workflow.append. cbv zeta. unfold Workflow.anchor.
  cbn [fst snd heap dockingResults memories].
  rewrite nth_error_app2, Nat.sub_diag by lia. cbn [nth_error heap fst].
  rewrite update_last. rewrite nth_error_app2, Nat.sub_diag by lia.
  cbn [nth_error]. eexists. reflexivity.
Qed.

(** Whatever they are given, the five handlers return coherent results:
    data exactly with a success, an error code exactly with a failure, and
    after a failure no reply beyond the progress notice.  A failed
    STORE_METADATA leaves the store as it was and a successful one adds
    one memory. *)
Theorem handlers_return_coherent_results :
  forall (text : string) (tag_options : option AutoTag.Options)
         (store_options : option StoreMetadata.Options)
         (runtime : Runtime) (w : World) (message : Message)
         (now newId typeError : string),
    coherent (ParseDockingFile.handler text) = true
    /\ coherent (AutoTag.handler tag_options) = true
    /\ coherent (fst (StoreMetadata.handler runtime w message store_options
                        now newId)) = true
    /\ coherent (fst (Workflow.handler w message now)) = true
    /\ coherent (Query.handler typeError runtime w message) = true
    /\ let out :=
         StoreMetadata.handler runtime w message store_options now newId in
       if success (fst (fst out))
       then List.length (memories (snd out)) = S (List.length (memories w))
            /\ heap (snd out) = heap w
            /\ dockingResults (snd out) = dockingResults w
       else snd out = w.
Proof.
  intros text tag_options store_options runtime w message now newId
    typeError.
  repeat split.
  - unfold ParseDockingFile.handler.
    destruct (ParseDockingFile.parseDockingContent text); reflexivity.
  - unfold AutoTag.handler.
    destruct (AutoTag.upstream tag_options); reflexivity.
  - unfold StoreMetadata.handler.
    destruct (StoreMetadata.upstream store_options); reflexivity.
  - destruct (workflow_handler_result w message now) as [r ->]. reflexivity.
  - unfold Query.handler. cbv zeta.
    destruct (List.length _ =? 0)%nat; [reflexivity|].
    destruct (Query.formatResults _); reflexivity.
  - unfold StoreMetadata.handler.
    destruct (StoreMetadata.upstream store_options); cbv zeta;
      cbn [fst snd success]; [|reflexivity].
    unfold createMemory. cbn [memories heap dockingResults].
    rewrite length_app. cbn [List.length]. rewrite Nat.add_1_r.
    repeat split.
Qed.
